(** * A shallow embedding of the multi-order-type order book

    The development follows the C++ sources: [Usings.h], [Constants.h],
    [Order.h], [OrderModify.h], [Trade.h], [Orderbook.cpp] and the input
    handler of [OrderbookTests.cpp].

    - [Price] is a 32-bit signed integer, [Quantity] a 32-bit unsigned
      integer and [OrderId] a 64-bit unsigned integer; all three are [Z]
      here and every place where the C++ arithmetic wraps is written out.
    - [std::map] and [std::unordered_map] are [gmap]s.  [begin()] and
      [rbegin()] of the ordered maps are the entries with the extreme keys.
    - C++ exceptions, and the operations whose behaviour is undefined, are
      values of the [error] type, threaded by a small error monad.
    - The functions are the bodies of the member functions as one thread
      runs them.  Of the mutex [ordersMutex_] the model keeps what one
      thread can see: a lock of the mutex by the thread that holds it is
      never granted, and the call that asks for it does not return.  The
      clock, the wait and the shutdown of the thread that prunes the
      good-for-day orders are not part of the model; one cycle of that
      thread is.
    - The test scripts are strings; [std::getline] on the file is the
      sequence of lines of its content. *)

From Stdlib Require Import ZArith String Ascii List Lia Bool.

From stdpp Require Import base option list gmap fin_maps sorting.

Local Open Scope Z_scope.

#[local] Set Warnings "-clear-no-such-hyp".

(** ** The error monad *)

Inductive error : Type :=
  | LogicError (what : string)   (* std::logic_error *)
  | OutOfRange                   (* std::out_of_range, thrown by [map::at] *)
  | Undefined                    (* behaviour the language leaves undefined *)
  | Deadlock                     (* a lock that is never granted: the call does not return *)
  | OutOfFuel.                   (* the model's loop bound was too small *)

Definition M (A : Type) : Type := error + A.

Definition ret {A} (a : A) : M A := inr a.

Definition throw {A} (e : error) : M A := inl e.

#[global] Instance M_ret : MRet M := fun A a => inr a.

#[global] Instance M_bind : MBind M := fun A B k m =>
  match m with
  | inl e => inl e
  | inr a => k a
  end.

Definition succeeds {A} (m : M A) : Prop := exists a, m = ret a.

(** ** Usings.h *)

Abbreviation Price := Z (only parsing).

Abbreviation Quantity := Z (only parsing).

Abbreviation OrderId := Z (only parsing).

Abbreviation OrderIds := (list Z) (only parsing).

Definition INT32_MIN : Z := - 2 ^ 31.

Definition INT32_MAX : Z := 2 ^ 31 - 1.

Definition UINT32_MOD : Z := 2 ^ 32.

Definition INT64_MIN : Z := - 2 ^ 63.

Definition INT64_MAX : Z := 2 ^ 63 - 1.

(** A price the type [Price] can hold. *)
Definition valid_price (p : Z) : Prop := INT32_MIN <= p <= INT32_MAX.

(** A quantity the type [Quantity] can hold. *)
Definition valid_quantity (q : Z) : Prop := 0 <= q < UINT32_MOD.

(** Arithmetic of [std::uint32_t]. *)
Definition wrap32 (z : Z) : Z := z mod UINT32_MOD.

(** ** Constants.h

    [std::numeric_limits<T>::quiet_NaN()] is meaningful for floating-point
    types only; for an integer [T] such as [std::int32_t] the standard
    library returns [T()], which is zero. *)
Definition numeric_limits_int32_quiet_NaN : Z := 0.

Module Constants.

Definition InvalidPrice : Price := numeric_limits_int32_quiet_NaN.

End Constants.

(** ** Side.h, OrderType.h *)

Inductive Side : Type := Buy | Sell.

Inductive OrderType : Type :=
  | GoodTillCancel
  | FillAndKill
  | FillOrKill
  | GoodForDay
  | Market.

#[global] Instance Side_eq_dec : EqDecision Side.
Proof. solve_decision. Defined.

#[global] Instance OrderType_eq_dec : EqDecision OrderType.
Proof. solve_decision. Defined.

(** ** Order.h *)

Record Order : Type := mkOrder {
  orderType_ : OrderType;
  orderId_ : OrderId;
  side_ : Side;
  price_ : Price;
  quantity_ : Quantity;
  initialQuantity_ : Quantity;
  remainingQuantity_ : Quantity
}.

(** The five-argument constructor. *)
Definition NewOrder (orderType : OrderType) (orderId : OrderId) (side : Side)
    (price : Price) (quantity : Quantity) : Order :=
  mkOrder orderType orderId side price quantity quantity quantity.

(** The three-argument constructor, for market orders. *)
Definition NewMarketOrder (orderId : OrderId) (side : Side) (quantity : Quantity) : Order :=
  NewOrder Market orderId side Constants.InvalidPrice quantity.

Definition GetOrderId (o : Order) : OrderId := orderId_ o.

Definition GetSide (o : Order) : Side := side_ o.

Definition GetPrice (o : Order) : Price := price_ o.

Definition GetOrderType (o : Order) : OrderType := orderType_ o.

Definition GetInitialQuantity (o : Order) : Quantity := initialQuantity_ o.

Definition GetRemainingQuantity (o : Order) : Quantity := remainingQuantity_ o.

Definition GetFilledQuantity (o : Order) : Quantity :=
  wrap32 (GetInitialQuantity o - GetRemainingQuantity o).

Definition IsFilled (o : Order) : bool := GetRemainingQuantity o =? 0.

Definition Fill (quantity : Quantity) (o : Order) : M Order :=
  if quantity >? GetRemainingQuantity o
  then throw (LogicError "Order cannot be filled with quantity greater than remaining quantity")
  else ret (mkOrder (orderType_ o) (orderId_ o) (side_ o) (price_ o) (quantity_ o)
              (initialQuantity_ o) (wrap32 (remainingQuantity_ o - quantity))).

Definition ToGoodTillCancel (price : Price) (o : Order) : M Order :=
  if decide (GetOrderType o <> Market)
  then throw (LogicError "Order cannot have its price adjusted, only market orders can.")
  else ret (mkOrder GoodTillCancel (orderId_ o) (side_ o) price (quantity_ o)
              (initialQuantity_ o) (remainingQuantity_ o)).

Abbreviation OrderPointers := (list Order) (only parsing).

(** ** OrderModify.h *)

Record OrderModify : Type := mkOrderModify {
  mod_orderId_ : OrderId;
  mod_price_ : Price;
  mod_side_ : Side;
  mod_quantity_ : Quantity
}.

(** The constructor takes its arguments in the order id, side, price, quantity. *)
Definition NewOrderModify (orderId : OrderId) (side : Side) (price : Price)
    (quantity : Quantity) : OrderModify :=
  mkOrderModify orderId price side quantity.

Definition ToOrderPointer (m : OrderModify) (type : OrderType) : Order :=
  NewOrder type (mod_orderId_ m) (mod_side_ m) (mod_price_ m) (mod_quantity_ m).

(** ** TradeInfo.h, Trade.h *)

Record TradeInfo : Type := mkTradeInfo {
  ti_orderId_ : OrderId;
  ti_price_ : Price;
  ti_quantity_ : Quantity
}.

Record Trade : Type := mkTrade {
  bidTrade_ : TradeInfo;
  askTrade_ : TradeInfo
}.

Abbreviation Trades := (list Trade) (only parsing).

(** ** The input handler of the test harness *)

Module InputHandler.

(** [std::from_chars] for a signed integer in base 10, as the C++ standard
    describes it: an optional minus sign followed by decimal digits, no
    leading white space and no plus sign; the longest such prefix is
    parsed.  When no prefix matches the result is [invalid_argument],
    when the parsed number does not fit the type it is
    [result_out_of_range]; in both cases [value] is left as it was. *)
Inductive errc : Type := errc_ok | invalid_argument | result_out_of_range.

Definition digit_of (c : ascii) : option Z :=
  let n := Z.of_N (N_of_ascii c) in
  if (48 <=? n) && (n <=? 57) then Some (n - 48) else None.

Fixpoint scan_digits (s : string) : list Z :=
  match s with
  | EmptyString => []
  | String c s' =>
      match digit_of c with
      | Some d => d :: scan_digits s'
      | None => []
      end
  end.

Definition digits_value (ds : list Z) : Z :=
  fold_left (fun acc d => 10 * acc + d) ds 0.

Definition strip_minus (s : string) : bool * string :=
  match s with
  | String "-"%char s' => (true, s')
  | _ => (false, s)
  end.

Definition from_chars_int64 (str : string) (value : Z) : Z * errc :=
  let '(neg, rest) := strip_minus str in
  match scan_digits rest with
  | [] => (value, invalid_argument)
  | ds =>
      let v := if neg then - digits_value ds else digits_value ds in
      if (INT64_MIN <=? v) && (v <=? INT64_MAX)
      then (v, errc_ok)
      else (value, result_out_of_range)
  end.

(** [ToNumber]: the result of [from_chars] is discarded. *)
Definition ToNumber (str : string) : M Z :=
  let value := 0 in
  let '(value, _) := from_chars_int64 str value in
  if value <? 0
  then throw (LogicError "Value is below zero.")
  else ret (wrap32 value).

(** The conversion of the [std::uint32_t] that [ToNumber] returns to the
    signed [Price]. *)
Definition to_int32 (z : Z) : Z :=
  let r := wrap32 z in if r <? 2 ^ 31 then r else r - UINT32_MOD.

Definition ParsePrice (str : string) : M Price :=
  if decide (str = EmptyString) then throw (LogicError "Unknown Price")
  else value ← ToNumber str; ret (to_int32 value).

Definition ParseQuantity (str : string) : M Quantity :=
  if decide (str = EmptyString) then throw (LogicError "Unknown Quantity")
  else ToNumber str.

Definition ParseOrderId (str : string) : M OrderId :=
  if decide (str = EmptyString) then throw (LogicError "Empty OrderId")
  else ToNumber str.

(** Shapes of tokens, for the statements about [ToNumber]. *)

(** A non-empty string of decimal digits. *)
Fixpoint all_digits (s : string) : bool :=
  match s with
  | EmptyString => true
  | String c s' =>
      match digit_of c with
      | Some _ => all_digits s'
      | None => false
      end
  end.

Definition is_number (s : string) : bool :=
  match s with
  | EmptyString => false
  | _ => all_digits s
  end.

(** The value a string of digits denotes. *)
Definition number_value (s : string) : Z := digits_value (scan_digits s).

(** A malformed token: after an optional minus sign it does not even
    start with a digit. *)
Definition malformed (s : string) : Prop := scan_digits (snd (strip_minus s)) = [].

End InputHandler.

(** ** Orderbook.h

    Modelled from the spec: the header [Orderbook.h] is not part of the
    sources at hand.  The members below are the ones [Orderbook.cpp] uses,
    with the shapes the specification gives them: [data_] maps a price to a
    pair of a count and an aggregated quantity (both unsigned 32-bit), [bids_]
    iterates by descending price, [asks_] by ascending price, and [orders_]
    maps an order id to the order and the handle of its node in its queue. *)

Module LevelData.

Record t : Type := mk {
  quantity_ : Quantity;
  count_ : Quantity
}.

Inductive Action : Type := Add | Remove | Match.

End LevelData.

(** The order objects live in the nodes of the queues.  An [OrderEntry] is a
    shared pointer to an order together with the iterator of its node; as the
    side and the price of an order never change once it rests, the entry is
    modelled by these two coordinates, and the node is the one in that queue
    which carries the order id.  Following an entry whose node is missing has
    no counterpart in the source and is reported as [Undefined]. *)
Record OrderEntry : Type := mkOrderEntry {
  entry_side_ : Side;
  entry_price_ : Price
}.

Record Orderbook : Type := mkOrderbook {
  data_ : gmap Z LevelData.t;
  bids_ : gmap Z (list Order);
  asks_ : gmap Z (list Order);
  orders_ : gmap Z OrderEntry
}.

Definition empty_book : Orderbook := mkOrderbook ∅ ∅ ∅ ∅.

Definition set_data (d : gmap Z LevelData.t) (st : Orderbook) : Orderbook :=
  mkOrderbook d (bids_ st) (asks_ st) (orders_ st).

Definition set_bids (b : gmap Z (list Order)) (st : Orderbook) : Orderbook :=
  mkOrderbook (data_ st) b (asks_ st) (orders_ st).

Definition set_asks (a : gmap Z (list Order)) (st : Orderbook) : Orderbook :=
  mkOrderbook (data_ st) (bids_ st) a (orders_ st).

Definition set_orders (o : gmap Z OrderEntry) (st : Orderbook) : Orderbook :=
  mkOrderbook (data_ st) (bids_ st) (asks_ st) o.

(** *** Ordered maps: the first and the last entry *)

Definition pick {A} (better : Z -> Z -> bool) (kv : Z * A) (acc : option (Z * A)) : option (Z * A) :=
  match acc with
  | None => Some kv
  | Some kv' => if better (fst kv) (fst kv') then Some kv else Some kv'
  end.

(** The entry whose key is [better] than every other key. *)
Definition extreme {A} (better : Z -> Z -> bool) (m : gmap Z A) : option (Z * A) :=
  foldr (pick better) None (map_to_list m).

Definition min_entry {A} (m : gmap Z A) : option (Z * A) := extreme Z.ltb m.

Definition max_entry {A} (m : gmap Z A) : option (Z * A) := extreme Z.gtb m.

(** [bids_] is ordered by [std::greater], [asks_] by [std::less]. *)
Definition bids_begin (st : Orderbook) := max_entry (bids_ st).

Definition bids_rbegin (st : Orderbook) := min_entry (bids_ st).

Definition asks_begin (st : Orderbook) := min_entry (asks_ st).

Definition asks_rbegin (st : Orderbook) := max_entry (asks_ st).

(** [map::at] *)
Definition at_ {A} (m : gmap Z A) (k : Z) : M A :=
  match m !! k with
  | Some a => ret a
  | None => throw OutOfRange
  end.

(** [list::erase] of the node that carries order [orderId]. *)
Fixpoint erase_node (orderId : OrderId) (q : list Order) : list Order :=
  match q with
  | [] => []
  | o :: q' => if decide (orderId_ o = orderId) then q' else o :: erase_node orderId q'
  end.

Fixpoint find_node (orderId : OrderId) (q : list Order) : option Order :=
  match q with
  | [] => None
  | o :: q' => if decide (orderId_ o = orderId) then Some o else find_node orderId q'
  end.

Definition side_map (s : Side) (st : Orderbook) : gmap Z (list Order) :=
  match s with
  | Buy => bids_ st
  | Sell => asks_ st
  end.

(** The order an entry of [orders_] points to. *)
Definition deref (st : Orderbook) (orderId : OrderId) (e : OrderEntry) : M Order :=
  match side_map (entry_side_ e) st !! entry_price_ e with
  | Some q =>
      match find_node orderId q with
      | Some o => ret o
      | None => throw Undefined
      end
  | None => throw Undefined
  end.

(** ** Orderbook.cpp *)

Definition UpdateLevelData (price : Price) (quantity : Quantity) (action : LevelData.Action)
    (data : gmap Z LevelData.t) : gmap Z LevelData.t :=
  (* auto& data = data_[price]; a missing entry is value-initialised *)
  let d := default (LevelData.mk 0 0) (data !! price) in
  let count :=
    wrap32 (LevelData.count_ d +
            match action with
            | LevelData.Remove => -1
            | LevelData.Add => 1
            | LevelData.Match => 0
            end) in
  let qty :=
    match action with
    | LevelData.Remove | LevelData.Match => wrap32 (LevelData.quantity_ d - quantity)
    | LevelData.Add => wrap32 (LevelData.quantity_ d + quantity)
    end in
  if count =? 0 then delete price data
  else <[price := LevelData.mk qty count]> data.

Definition OnOrderCancelled (order : Order) (data : gmap Z LevelData.t) : gmap Z LevelData.t :=
  UpdateLevelData (GetPrice order) (GetRemainingQuantity order) LevelData.Remove data.

Definition OnOrderAdded (order : Order) (data : gmap Z LevelData.t) : gmap Z LevelData.t :=
  UpdateLevelData (GetPrice order) (GetInitialQuantity order) LevelData.Add data.

Definition OnOrderMatched (price : Price) (quantity : Quantity) (isFullyFilled : bool)
    (data : gmap Z LevelData.t) : gmap Z LevelData.t :=
  UpdateLevelData price quantity
    (if isFullyFilled then LevelData.Remove else LevelData.Match) data.

(** [orders.erase(iterator); if (orders.empty()) levels.erase(price);] *)
Definition erase_from_level (orderId : OrderId) (price : Price)
    (levels : gmap Z (list Order)) : M (gmap Z (list Order)) :=
  orders ← at_ levels price;
  let orders := erase_node orderId orders in
  match orders with
  | [] => ret (delete price levels)
  | _ => ret (<[price := orders]> levels)
  end.

Definition CancelOrderInternal (orderId : OrderId) (st : Orderbook) : M Orderbook :=
  match orders_ st !! orderId with
  | None => ret st
  | Some entry =>
      order ← deref st orderId entry;
      let st := set_orders (delete orderId (orders_ st)) st in
      st ← match GetSide order with
           | Sell =>
               asks ← erase_from_level orderId (GetPrice order) (asks_ st);
               ret (set_asks asks st)
           | Buy =>
               bids ← erase_from_level orderId (GetPrice order) (bids_ st);
               ret (set_bids bids st)
           end;
      ret (set_data (OnOrderCancelled order (data_ st)) st)
  end.

(** Modelled from the spec: [ordersMutex_] is declared in [Orderbook.h],
    which is not among the sources; the specification has it as one mutex
    that is not reentrant.  [std::scoped_lock ordersLock{ ordersMutex_ }]
    by a thread that does not hold the mutex gets it at once, there being
    no other thread in the model; by the thread that holds it ([held]) the
    lock is never granted. *)
Definition scoped_lock (held : bool) : M unit :=
  if held then throw Deadlock else ret tt.

(** [CancelOrder], called by a thread that holds [ordersMutex_] or by one
    that does not: it takes the lock and calls [CancelOrderInternal]. *)
Definition CancelOrder_holding (held : bool) (orderId : OrderId) (st : Orderbook) :
    M Orderbook :=
  _ ← scoped_lock held;
  CancelOrderInternal orderId st.

(** [CancelOrder] as the callers of the engine call it, the mutex being
    free: [CancelOrder_holding false]. *)
Definition CancelOrder (orderId : OrderId) (st : Orderbook) : M Orderbook :=
  CancelOrderInternal orderId st.

Fixpoint CancelOrders (orderIds : OrderIds) (st : Orderbook) : M Orderbook :=
  match orderIds with
  | [] => ret st
  | orderId :: rest =>
      st ← CancelOrderInternal orderId st;
      CancelOrders rest st
  end.

Definition CanMatch (st : Orderbook) (side : Side) (price : Price) : bool :=
  match side with
  | Buy =>
      match asks_begin st with
      | None => false
      | Some (bestAsk, _) => price >=? bestAsk
      end
  | Sell =>
      match bids_begin st with
      | None => false
      | Some (bestBid, _) => price <=? bestBid
      end
  end.

Definition is_buy (s : Side) : bool := if s is Buy then true else false.

Definition is_sell (s : Side) : bool := if s is Sell then true else false.

(** The walk over [data_].  [threshold] is a [std::optional] that both
    branches before the loop assign, so [has_value()] is [true]; the first
    condition is grouped the way C++ parses it, [(a && b) || c]. *)
Fixpoint CanFullyFill_walk (side : Side) (price threshold : Price) (quantity : Quantity)
    (levels : list (Z * LevelData.t)) : bool :=
  match levels with
  | [] => false
  | (levelPrice, levelData) :: rest =>
      if (true && (is_buy side && (threshold >? levelPrice)))
         || (is_sell side && (threshold <? levelPrice))
      then CanFullyFill_walk side price threshold quantity rest
      else if (is_buy side && (levelPrice >? price))
              || (is_sell side && (levelPrice <? price))
      then CanFullyFill_walk side price threshold quantity rest
      else if quantity <=? LevelData.quantity_ levelData then true
      else CanFullyFill_walk side price threshold
             (wrap32 (quantity - LevelData.quantity_ levelData)) rest
  end.

Definition CanFullyFill (st : Orderbook) (side : Side) (price : Price) (quantity : Quantity) : bool :=
  if negb (CanMatch st side price) then false
  else
    match (match side with Buy => asks_begin st | Sell => bids_begin st end) with
    | None => false (* not reached: [CanMatch] fails on an empty opposite side *)
    | Some (threshold, _) =>
        CanFullyFill_walk side price threshold quantity (map_to_list (data_ st))
    end.

(** The state of the inner [while] loop of [MatchOrders]: the two queues the
    references [bids] and [asks] designate, [orders_], [data_] and the local
    vector [trades]. *)
Record LevelState : Type := mkLevelState {
  ls_bids : list Order;
  ls_asks : list Order;
  ls_orders : gmap Z OrderEntry;
  ls_data : gmap Z LevelData.t;
  ls_trades : Trades
}.

(** [while (!bids.empty() && !asks.empty())].  Every round pops at least one
    head, so [length bids + length asks] rounds are never exceeded. *)
Fixpoint MatchLevel (fuel : nat) (s : LevelState) : M LevelState :=
  match ls_bids s, ls_asks s with
  | bid :: bids, ask :: asks =>
      match fuel with
      | O => throw OutOfFuel
      | S fuel =>
          let quantity := Z.min (GetRemainingQuantity bid) (GetRemainingQuantity ask) in
          bid ← Fill quantity bid;
          ask ← Fill quantity ask;
          let '(bids, orders) :=
            if IsFilled bid then (bids, delete (GetOrderId bid) (ls_orders s))
            else (bid :: bids, ls_orders s) in
          let '(asks, orders) :=
            if IsFilled ask then (asks, delete (GetOrderId ask) orders)
            else (ask :: asks, orders) in
          let trades :=
            ls_trades s ++
            [mkTrade (mkTradeInfo (GetOrderId bid) (GetPrice bid) quantity)
                     (mkTradeInfo (GetOrderId ask) (GetPrice ask) quantity)] in
          let data := OnOrderMatched (GetPrice bid) quantity (IsFilled bid) (ls_data s) in
          let data := OnOrderMatched (GetPrice ask) quantity (IsFilled ask) data in
          MatchLevel fuel (mkLevelState bids asks orders data trades)
      end
  | _, _ => ret s
  end.

Definition is_nil {A} (l : list A) : bool := if l is [] then true else false.

(** The end of a round of the outer loop.  [bids] and [asks] are references
    into the two maps, so what the inner loop did to them is in the maps; a
    queue that is now empty has its price erased from its side and from
    [data_].  ([bidPrice] and [askPrice] are references into the map nodes
    too; they are read here as the prices they held when the round began.) *)
Definition EraseEmptyLevels (bidPrice askPrice : Price) (s : LevelState) (st : Orderbook) :
    Orderbook :=
  let st := mkOrderbook (ls_data s)
              (<[bidPrice := ls_bids s]> (bids_ st))
              (<[askPrice := ls_asks s]> (asks_ st))
              (ls_orders s) in
  let st :=
    if is_nil (ls_bids s)
    then set_data (delete bidPrice (data_ st)) (set_bids (delete bidPrice (bids_ st)) st)
    else st in
  if is_nil (ls_asks s)
  then set_data (delete askPrice (data_ st)) (set_asks (delete askPrice (asks_ st)) st)
  else st.

(** The outer [while (true)] loop.  A round that does not leave the loop
    empties one of the two best levels and erases it, so the number of levels
    bounds the number of rounds. *)
Fixpoint MatchLoop (fuel : nat) (st : Orderbook) (trades : Trades) : M (Trades * Orderbook) :=
  match bids_begin st, asks_begin st with
  | Some (bidPrice, bids), Some (askPrice, asks) =>
      if bidPrice <? askPrice then ret (trades, st)
      else
        match fuel with
        | O => throw OutOfFuel
        | S fuel =>
            s ← MatchLevel (length bids + length asks)
                  (mkLevelState bids asks (orders_ st) (data_ st) trades);
            MatchLoop fuel (EraseEmptyLevels bidPrice askPrice s st) (ls_trades s)
        end
  | _, _ => ret (trades, st)
  end.

(** [auto& order = level.front(); if (order->GetOrderType() == FillAndKill)
    CancelOrder(order->GetOrderId());] on the best level of one side.
    [front()] of an empty list is undefined.  [MatchOrders] runs inside
    [AddOrder], whose [std::scoped_lock] holds [ordersMutex_] until it
    returns, and the call is of the public [CancelOrder], which locks the
    mutex again. *)
Definition CancelFillAndKillHead (top : option (Z * list Order)) (st : Orderbook) : M Orderbook :=
  match top with
  | None => ret st
  | Some (_, []) => throw Undefined
  | Some (_, order :: _) =>
      if decide (GetOrderType order = FillAndKill)
      then CancelOrder_holding true (GetOrderId order) st
      else ret st
  end.

Definition MatchOrders (st : Orderbook) : M (Trades * Orderbook) :=
  '(trades, st) ← MatchLoop (S (size (bids_ st) + size (asks_ st))) st [];
  st ← CancelFillAndKillHead (bids_begin st) st;
  st ← CancelFillAndKillHead (asks_begin st) st;
  ret (trades, st).

(** [auto& orders = levels[price]; orders.push_back(order);] *)
Definition push_back_level (order : Order) (levels : gmap Z (list Order)) : gmap Z (list Order) :=
  <[GetPrice order := default [] (levels !! GetPrice order) ++ [order]]> levels.

(** The second half of [AddOrder]: the order enters its queue, the id index
    and the level data. *)
Definition PlaceOrder (order : Order) (st : Orderbook) : Orderbook :=
  let st :=
    match GetSide order with
    | Buy => set_bids (push_back_level order (bids_ st)) st
    | Sell => set_asks (push_back_level order (asks_ st)) st
    end in
  let st :=
    set_orders (<[GetOrderId order := mkOrderEntry (GetSide order) (GetPrice order)]> (orders_ st)) st in
  set_data (OnOrderAdded order (data_ st)) st.

(** The conversion of a market order; [None] when the order is dropped. *)
Definition ConvertMarket (order : Order) (st : Orderbook) : M (option Order) :=
  if decide (GetOrderType order = Market) then
    match GetSide order, asks_rbegin st, bids_rbegin st with
    | Buy, Some (worstAsk, _), _ => order ← ToGoodTillCancel worstAsk order; ret (Some order)
    | Sell, _, Some (worstBid, _) => order ← ToGoodTillCancel worstBid order; ret (Some order)
    | _, _, _ => ret None
    end
  else ret (Some order).

(** [AddOrder] as the callers of the engine call it: its
    [std::scoped_lock] gets the free mutex and holds it until the function
    returns, also while [MatchOrders] runs. *)
Definition AddOrder (order : Order) (st : Orderbook) : M (Trades * Orderbook) :=
  if decide (is_Some (orders_ st !! GetOrderId order)) then ret ([], st)
  else
    converted ← ConvertMarket order st;
    match converted with
    | None => ret ([], st)
    | Some order =>
        if bool_decide (GetOrderType order = FillAndKill)
           && negb (CanMatch st (GetSide order) (GetPrice order))
        then ret ([], st)
        else if bool_decide (GetOrderType order = FillOrKill)
                && negb (CanFullyFill st (GetSide order) (GetPrice order) (GetInitialQuantity order))
        then ret ([], st)
        else MatchOrders (PlaceOrder order st)
    end.

(** [ModifyOrder] holds the mutex in its first block only; [CancelOrder]
    and [AddOrder] are called after the lock is released and each takes the
    free mutex. *)
Definition ModifyOrder (order : OrderModify) (st : Orderbook) : M (Trades * Orderbook) :=
  match orders_ st !! mod_orderId_ order with
  | None => ret ([], st)
  | Some entry =>
      existingOrder ← deref st (mod_orderId_ order) entry;
      let orderType := GetOrderType existingOrder in
      st ← CancelOrder (mod_orderId_ order) st;
      AddOrder (ToOrderPointer order orderType) st
  end.

Definition Size (st : Orderbook) : nat := size (orders_ st).

(** ** Running a script of commands *)

(** [AddOrder] for each order of a list in turn. *)
Definition run_adds (os : list Order) (st : Orderbook) : M (Trades * Orderbook) :=
  foldl (fun acc o => '(ts, st) ← acc; '(ts', st) ← AddOrder o st; ret (ts ++ ts', st))
        (ret ([], st)) os.

(** What the terminal line of a test script compares: [Size()] and the
    numbers of bid and ask levels. *)
Definition counts (r : M (Trades * Orderbook)) : M (nat * nat * nat) :=
  '(_, st) ← r; ret (Size st, size (bids_ st), size (asks_ st)).

(** The public operations that change the book, as commands, and a script
    of them run from a book; the trades of the script are those of its
    commands in sequence. *)
Inductive Command : Type :=
  | DoAddOrder (order : Order)
  | DoCancelOrder (orderId : OrderId)
  | DoModifyOrder (order : OrderModify)
  | DoCancelOrders (orderIds : OrderIds).

Definition exec (c : Command) (st : Orderbook) : M (Trades * Orderbook) :=
  match c with
  | DoAddOrder order => AddOrder order st
  | DoCancelOrder orderId => st ← CancelOrder orderId st; ret ([], st)
  | DoModifyOrder order => ModifyOrder order st
  | DoCancelOrders orderIds => st ← CancelOrders orderIds st; ret ([], st)
  end.

Definition run (cs : list Command) (st : Orderbook) : M (Trades * Orderbook) :=
  foldl (fun acc c => '(ts, st) ← acc; '(ts', st) ← exec c st; ret (ts ++ ts', st))
        (ret ([], st)) cs.

(** * Notions used in the statements *)

(** ** Well-formed books *)

(** What never changes in an order once it rests. *)
Definition static (o : Order) : OrderType * OrderId * Side * Price :=
  (orderType_ o, orderId_ o, side_ o, price_ o).

Definition static_id (t : OrderType * OrderId * Side * Price) : OrderId := snd (fst (fst t)).

(** [q'] holds some of the orders of [q], in the same sequence, possibly
    filled further. *)
Definition subqueue (q' q : list Order) : Prop :=
  (static <$> q') `sublist_of` (static <$> q).

Definition set_side (s : Side) (levels : gmap Z (list Order)) (st : Orderbook) : Orderbook :=
  match s with
  | Buy => set_bids levels st
  | Sell => set_asks levels st
  end.

(** A queue written back to its level; an empty queue erases the level. *)
Definition put_level (p : Price) (q : list Order) (levels : gmap Z (list Order)) :
    gmap Z (list Order) :=
  if is_nil q then delete p levels else <[p := q]> levels.

Definition remove_ids (ids : list OrderId) (orders : gmap Z OrderEntry) : gmap Z OrderEntry :=
  foldr delete orders ids.

(** Invariant 2 and invariant 1 of the specification: no level is empty,
    the orders of a level carry its side and its price and are indexed under
    their id, which is unique; and every indexed id has its node. *)
Definition level_ok (orders : gmap Z OrderEntry) (s : Side) (p : Price) (q : list Order) : Prop :=
  q <> []
  /\ NoDup (orderId_ <$> q)
  /\ Forall (fun o => side_ o = s /\ price_ o = p
                      /\ orders !! orderId_ o = Some (mkOrderEntry s p)) q.

Definition levels_ok (st : Orderbook) : Prop :=
  forall s p q, side_map s st !! p = Some q -> level_ok (orders_ st) s p q.

Definition index_ok (st : Orderbook) : Prop :=
  forall id e, orders_ st !! id = Some e ->
    exists q o, side_map (entry_side_ e) st !! entry_price_ e = Some q
                /\ find_node id q = Some o.

Definition book_wf (st : Orderbook) : Prop := levels_ok st /\ index_ok st.

(** Every bid price is below every ask price. *)
Definition apart (st : Orderbook) : Prop :=
  forall pb qb pa qa, bids_ st !! pb = Some qb -> asks_ st !! pa = Some qa -> pb < pa.

(** The best bid is below the best ask whenever both sides are non-empty. *)
Definition uncrossed (st : Orderbook) : Prop :=
  forall bidPrice bids askPrice asks,
    bids_begin st = Some (bidPrice, bids) ->
    asks_begin st = Some (askPrice, asks) ->
    bidPrice < askPrice.

(** No order of type [FillAndKill] rests on either side. *)
Definition no_FillAndKill (st : Orderbook) : Prop :=
  forall s p q o, side_map s st !! p = Some q -> o ∈ q -> orderType_ o <> FillAndKill.

(** Levels only disappear or lose orders. *)
Definition shrinks (st st' : Orderbook) : Prop :=
  forall s p q', side_map s st' !! p = Some q' ->
    exists q, side_map s st !! p = Some q /\ subqueue q' q.

(** The book after the queue at price [p] of side [s] became [q'] and the
    ids [removed] left the index. *)
Definition shrunk (st : Orderbook) (s : Side) (p : Price) (q' : list Order)
    (removed : list OrderId) : Orderbook :=
  set_side s (put_level p q' (side_map s st)) (set_orders (remove_ids removed (orders_ st)) st).

(** *** The inner loop *)

(** The order after [Fill(quantity)]. *)
Definition filled_by (quantity : Quantity) (o : Order) : Order :=
  mkOrder (orderType_ o) (orderId_ o) (side_ o) (price_ o) (quantity_ o)
    (initialQuantity_ o) (wrap32 (remainingQuantity_ o - quantity)).

(** One state of the inner loop is reached from another by popping [kb]
    bids and [ka] asks and erasing exactly their ids from the index. *)
Definition level_pops (s s' : LevelState) : Prop :=
  exists kb ka : nat,
    static <$> ls_bids s' = drop kb (static <$> ls_bids s)
    /\ static <$> ls_asks s' = drop ka (static <$> ls_asks s)
    /\ forall id : Z,
         ls_orders s' !! id =
         if decide (id ∈ take kb (orderId_ <$> ls_bids s) ++ take ka (orderId_ <$> ls_asks s))
         then None else ls_orders s !! id.

(** *** The orders of type [FillAndKill] at the end of [MatchOrders] *)

(** The best level of a side. *)
Definition top (s : Side) (st : Orderbook) : option (Z * list Order) :=
  match s with
  | Buy => bids_begin st
  | Sell => asks_begin st
  end.

(** Every resting order of type [FillAndKill] is alone in its queue, and
    that queue is the best level of its side. *)
Definition FillAndKill_on_top (st : Orderbook) : Prop :=
  forall s p q o, side_map s st !! p = Some q -> o ∈ q ->
    orderType_ o = FillAndKill -> q = [o] /\ top s st = Some (p, q).

(** *** The invariant of the book *)

Definition book_inv (st : Orderbook) : Prop :=
  book_wf st /\ uncrossed st /\ no_FillAndKill st.

(** *** The public operations and the books they reach *)

(** The books the public operations lead to from the empty book. *)
Inductive reachable : Orderbook -> Prop :=
  | reachable_empty : reachable empty_book
  | reachable_exec c st trades st' :
      reachable st -> exec c st = ret (trades, st') -> reachable st'.

(** ** The best bid stays below the best ask *)

(** A book with orders on both sides, reached from the empty book. *)
Definition two_sided_book : Orderbook :=
  Eval vm_compute in
    match run_adds [NewOrder GoodTillCancel 1 Buy 99 5;
                    NewOrder GoodTillCancel 2 Sell 101 7] empty_book with
    | inr (_, st) => st
    | inl _ => empty_book
    end.

(** ** Modifying an order *)

(** Follows the words of the specification: a cancel followed by an add that
    re-uses the id, keeps the order type the order had before the cancel and
    takes the new side, price and quantity. *)
Definition CancelThenAdd (orderId : OrderId) (side : Side) (price : Price)
    (quantity : Quantity) (originalType : OrderType) (st : Orderbook) : M (Trades * Orderbook) :=
  st ← CancelOrder orderId st;
  AddOrder (NewOrder originalType orderId side price quantity) st.

(** ** Market orders *)

(** The side an order trades against. *)
Definition opposite (s : Side) : Side :=
  match s with
  | Buy => Sell
  | Sell => Buy
  end.

(** [worst] is the worst price of the side opposite to [s]: the highest ask
    for a buy, the lowest bid for a sell. *)
Definition worst_opposite_price (s : Side) (st : Orderbook) (worst : Price) : Prop :=
  is_Some (side_map (opposite s) st !! worst)
  /\ forall p q, side_map (opposite s) st !! p = Some q ->
       match s with
       | Buy => p <= worst
       | Sell => worst <= p
       end.

(** The market order after [ToGoodTillCancel(price)]. *)
Definition as_GoodTillCancel (price : Price) (o : Order) : Order :=
  mkOrder GoodTillCancel (orderId_ o) (side_ o) price (quantity_ o)
    (initialQuantity_ o) (remainingQuantity_ o).

(** A leg of a trade names an order of the queue [q] and carries the price
    of that very order. *)
Definition leg_of (q : list Order) (leg : TradeInfo) : Prop :=
  exists o, o ∈ q /\ GetOrderId o = ti_orderId_ leg /\ GetPrice o = ti_price_ leg.

Definition trade_between (bids asks : list Order) (t : Trade) : Prop :=
  ti_quantity_ (bidTrade_ t) = ti_quantity_ (askTrade_ t)
  /\ leg_of bids (bidTrade_ t) /\ leg_of asks (askTrade_ t).

(** Both legs of a trade belong to orders resting in the book [st]. *)
Definition trade_of_book (st : Orderbook) (t : Trade) : Prop :=
  exists bidPrice bids askPrice asks,
    bids_ st !! bidPrice = Some bids
    /\ asks_ st !! askPrice = Some asks
    /\ trade_between bids asks t.

(** A book with a resting ask at 100, and the bid at 101 that crosses it. *)
Definition ask_at_100 : Orderbook :=
  Eval vm_compute in
    match run_adds [NewOrder GoodTillCancel 1 Sell 100 3] empty_book with
    | inr (_, st) => st
    | inl _ => empty_book
    end.

(** ** The fill-or-kill predicate *)

(** A price of [data_] the order can reach: between the best opposite price
    [best] and the limit of the order. *)
Definition reachable_level (side : Side) (limit best : Price) (p : Price) : bool :=
  match side with
  | Buy => (best <=? p) && (p <=? limit)
  | Sell => (limit <=? p) && (p <=? best)
  end.

(** The sum of [quantity_] over the reachable entries of a list of levels. *)
Fixpoint reachable_sum (side : Side) (limit best : Price) (levels : list (Z * LevelData.t)) : Z :=
  match levels with
  | [] => 0
  | (p, d) :: rest =>
      (if reachable_level side limit best p then LevelData.quantity_ d else 0)
      + reachable_sum side limit best rest
  end.

Definition has_reachable (side : Side) (limit best : Price) (levels : list (Z * LevelData.t)) :
    bool :=
  existsb (fun '(p, _) => reachable_level side limit best p) levels.

(** The best price of the side opposite to [side]. *)
Definition best_opposite (side : Side) (st : Orderbook) : option (Z * list Order) :=
  match side with
  | Buy => asks_begin st
  | Sell => bids_begin st
  end.

(** Every aggregated quantity of [data_] is a value of its 32-bit type. *)
Definition data_valid (data : gmap Z LevelData.t) : Prop :=
  forall p d, data !! p = Some d -> valid_quantity (LevelData.quantity_ d).

(** The book after a bid for 5 and an ask for 10 at the same price 100: the
    ask rests with 5 units and [data_] is empty. *)
Definition ask_without_level_data : Orderbook :=
  Eval vm_compute in
    match run_adds [NewOrder GoodTillCancel 1 Buy 100 5;
                    NewOrder GoodTillCancel 2 Sell 100 10] empty_book with
    | inr (_, st) => st
    | inl _ => empty_book
    end.

(** ** The level data after a cross at one price *)

Definition sum_remaining (q : list Order) : Z :=
  foldr (fun o acc => GetRemainingQuantity o + acc) 0 q.

(** Invariant 3 of the specification: every price of either side has its
    entry in [data_], with the number of orders resting there and the sum of
    their remaining quantities. *)
Definition level_data_accurate (st : Orderbook) : Prop :=
  forall s p q, side_map s st !! p = Some q ->
    exists d, data_ st !! p = Some d
              /\ LevelData.count_ d = Z.of_nat (length q)
              /\ LevelData.quantity_ d = sum_remaining q.

(** * The rest of the engine *)

(** ** LevelInfo.h, OrderbookLevelInfos.h *)

Record LevelInfo : Type := mkLevelInfo {
  li_price_ : Price;
  li_quantity_ : Quantity
}.

Abbreviation LevelInfos := (list LevelInfo) (only parsing).

Record OrderbookLevelInfos : Type := mkOrderbookLevelInfos {
  infos_bids_ : LevelInfos;
  infos_asks_ : LevelInfos
}.

Definition GetBids (infos : OrderbookLevelInfos) : LevelInfos := infos_bids_ infos.

Definition GetAsks (infos : OrderbookLevelInfos) : LevelInfos := infos_asks_ infos.

(** ** Iterating an ordered map

    A range-based [for] over a [std::map] visits the entries by their keys,
    in the order of the comparator of the map. *)

Definition key_le {A} (x y : Z * A) : Prop := fst x <= fst y.

Definition key_ge {A} (x y : Z * A) : Prop := fst y <= fst x.

#[global] Instance key_le_dec {A} (x y : Z * A) : Decision (key_le x y).
Proof. unfold key_le. apply _. Defined.

#[global] Instance key_ge_dec {A} (x y : Z * A) : Decision (key_ge x y).
Proof. unfold key_ge. apply _. Defined.

(** The entries of a map ordered by [std::less]. *)
Definition iterate_less {A} (m : gmap Z A) : list (Z * A) :=
  merge_sort key_le (map_to_list m).

(** The entries of a map ordered by [std::greater]. *)
Definition iterate_greater {A} (m : gmap Z A) : list (Z * A) :=
  merge_sort key_ge (map_to_list m).

(** ** Orderbook.cpp: the snapshot and the pruning of good-for-day orders *)

(** The lambda [CreateLevelInfos] of [GetOrderInfos]: [std::accumulate] over
    the queue in [Quantity], which wraps at every addition. *)
Definition CreateLevelInfos (price : Price) (orders : OrderPointers) : LevelInfo :=
  mkLevelInfo price
    (foldl (fun runningSum order => wrap32 (runningSum + GetRemainingQuantity order)) 0 orders).

Definition GetOrderInfos (st : Orderbook) : OrderbookLevelInfos :=
  let bidInfos :=
    (fun '(price, orders) => CreateLevelInfos price orders) <$> iterate_greater (bids_ st) in
  let askInfos :=
    (fun '(price, orders) => CreateLevelInfos price orders) <$> iterate_less (asks_ st) in
  mkOrderbookLevelInfos bidInfos askInfos.

(** The scan of [PruneGoodForDayOrders] over [orders_]: the ids of the
    orders of type [GoodForDay], in the order of the iteration. *)
Fixpoint CollectGoodForDay (st : Orderbook) (entries : list (Z * OrderEntry))
    (orderIds : OrderIds) : M OrderIds :=
  match entries with
  | [] => ret orderIds
  | (id, entry) :: rest =>
      order ← deref st id entry;
      if decide (GetOrderType order <> GoodForDay)
      then CollectGoodForDay st rest orderIds
      else CollectGoodForDay st rest (orderIds ++ [GetOrderId order])
  end.

(** One cycle of [PruneGoodForDayOrders] once its timed wait has run out:
    the scan, then [CancelOrders] on what it collected.  [orders_] is a
    [std::unordered_map]: the scan visits its entries in a sequence the
    container chooses, here [entries].  The clock, the wait and the shutdown
    are not modelled. *)
Definition PruneGoodForDayOrders_cycle (entries : list (Z * OrderEntry)) (st : Orderbook) :
    M Orderbook :=
  orderIds ← CollectGoodForDay st entries [];
  CancelOrders orderIds st.

(** A book with a good-for-day bid and a good-till-cancel ask. *)
Definition book_with_GoodForDay : Orderbook :=
  Eval vm_compute in
    match run_adds [NewOrder GoodForDay 1 Buy 99 5;
                    NewOrder GoodTillCancel 2 Sell 101 7] empty_book with
    | inr (_, st) => st
    | inl _ => empty_book
    end.

(** ** Notions for the statements about the rest of the engine *)

(** The orders resting in the book, side by side. *)
Definition resting_orders (st : Orderbook) : list Order :=
  (map_to_list (bids_ st) ≫= snd) ++ (map_to_list (asks_ st) ≫= snd).

(** The queue at a price of a side; empty when the side has no such level. *)
Definition queue_at (s : Side) (p : Price) (st : Orderbook) : list Order :=
  default [] (side_map s st !! p).

(** No resting order has the type [t]. *)
Definition no_type (t : OrderType) (st : Orderbook) : Prop :=
  forall s p q o, side_map s st !! p = Some q -> o ∈ q -> orderType_ o <> t.

(** Both legs of a trade belong to orders resting in the book [st], at
    levels that cross. *)
Definition crossing_trade_of_book (st : Orderbook) (t : Trade) : Prop :=
  exists bidPrice bids askPrice asks,
    bids_ st !! bidPrice = Some bids
    /\ asks_ st !! askPrice = Some asks
    /\ askPrice <= bidPrice
    /\ trade_between bids asks t.

(** The leg of a trade on the side [s]. *)
Definition leg (s : Side) (t : Trade) : TradeInfo :=
  match s with
  | Buy => bidTrade_ t
  | Sell => askTrade_ t
  end.

(** Every entry of [data_] counts at least one order, in its 32-bit type. *)
Definition data_counted (data : gmap Z LevelData.t) : Prop :=
  forall p d, data !! p = Some d -> 0 < LevelData.count_ d < UINT32_MOD.

(** The quantity a list of trades moved. *)
Definition traded (trades : Trades) : Z :=
  foldr (fun t acc => ti_quantity_ (bidTrade_ t) + acc) 0 trades.

(** The remaining quantity of every order of a queue is a value of its
    32-bit type. *)
Definition remaining_valid (q : list Order) : Prop :=
  Forall (fun o => valid_quantity (remainingQuantity_ o)) q.

(** A bid level with 5 and 3 units against an ask level with 4 and 9. *)
Definition level_5_3_against_4_9 : LevelState :=
  mkLevelState
    [NewOrder GoodTillCancel 1 Buy 100 5; NewOrder GoodTillCancel 2 Buy 100 3]
    [NewOrder GoodTillCancel 3 Sell 100 4; NewOrder GoodTillCancel 4 Sell 100 9]
    ∅ ∅ [].

(** The total remaining quantity of the orders of one side. *)
Definition levels_total (levels : gmap Z (list Order)) : Z :=
  sum_remaining (map_to_list levels ≫= snd).

(** The remaining quantity of every resting order is a value of its 32-bit
    type. *)
Definition book_valid (st : Orderbook) : Prop :=
  forall s p q, side_map s st !! p = Some q -> remaining_valid q.

(** * OrderbookTests.cpp: the reader of the test scripts and the test body *)

Module OrderbookTests.

Import InputHandler.

Inductive ActionType : Type := Add | Cancel | Modify.

(** [struct Information].  [TryParseInformation] fills a local that is
    declared without an initialiser, so a field that no statement has
    assigned holds no value: [None]. *)
Record Information : Type := mkInformation {
  type_ : ActionType;
  orderType_ : option OrderType;
  side_ : option Side;
  price_ : option Price;
  quantity_ : option Quantity;
  orderId_ : option OrderId
}.

Abbreviation Informations := (list Information) (only parsing).

Record Result : Type := mkResult {
  allCount_ : Z;
  bidCount_ : Z;
  askCount_ : Z
}.

(** [str.at(0)] *)
Definition at0 (str : string) : M ascii :=
  match str with
  | EmptyString => throw OutOfRange
  | String c _ => ret c
  end.

(** [values[i]] on a vector; an index past the end is undefined. *)
Definition subscript {A} (values : list A) (i : nat) : M A :=
  match values !! i with
  | Some v => ret v
  | None => throw Undefined
  end.

(** [str.find(delimeter, start_index)]; [None] is [npos]. *)
Fixpoint find (str : string) (delimeter : ascii) (start_index : nat) : option nat :=
  match str, start_index with
  | EmptyString, _ => None
  | String c rest, O =>
      if decide (c = delimeter) then Some O else S <$> find rest delimeter O
  | String _ rest, S n => S <$> find rest delimeter n
  end.

(** [str.substr(pos, count)]; [pos > size()] throws. *)
Definition substr (str : string) (pos count : nat) : M string :=
  if decide (String.length str < pos)%nat then throw OutOfRange
  else ret (substring pos count str).

(** [str.substr(pos)] *)
Definition substr_from (str : string) (pos : nat) : M string :=
  substr str pos (String.length str - pos).

(** The loop of [Split].  Its condition
    [(end_index = str.find(delimeter, start_index)) && end_index != npos]
    is false when [find] returns [npos] and also when it returns 0.  Every
    round moves [start_index] past a delimiter, so the length of the string
    bounds the number of rounds. *)
Fixpoint Split_loop (fuel : nat) (str : string) (delimeter : ascii) (start_index : nat)
    (columns : list string) : M (list string) :=
  match find str delimeter start_index with
  | Some (S _ as end_index) =>
      match fuel with
      | O => throw OutOfFuel
      | S fuel =>
          let distance := (end_index - start_index)%nat in
          column ← substr str start_index distance;
          let start_index := (end_index + 1)%nat in
          Split_loop fuel str delimeter start_index (columns ++ [column])
      end
  | _ =>
      column ← substr_from str start_index;
      ret (columns ++ [column])
  end.

Definition Split (str : string) (delimeter : ascii) : M (list string) :=
  Split_loop (String.length str) str delimeter 0 [].

Definition ParseSide (str : string) : M Side :=
  if decide (str = "B"%string) then ret Buy
  else if decide (str = "S"%string) then ret Sell
  else throw (LogicError "Unknown Side").

Definition ParseOrderType (str : string) : M OrderType :=
  if decide (str = "FillAndKill"%string) then ret FillAndKill
  else if decide (str = "GoodTillCancel"%string) then ret GoodTillCancel
  else if decide (str = "GoodForDay"%string) then ret GoodForDay
  else if decide (str = "FillOrKill"%string) then ret FillOrKill
  else if decide (str = "Market"%string) then ret Market
  else throw (LogicError "Unknown OrderType").

(** [None] is the return value [false]; the result is then not read. *)
Definition TryParseResult (str : string) : M (option Result) :=
  c ← at0 str;
  if decide (c <> "R"%char) then ret None
  else
    values ← Split str " "%char;
    v ← subscript values 1; allCount ← ToNumber v;
    v ← subscript values 2; bidCount ← ToNumber v;
    v ← subscript values 3; askCount ← ToNumber v;
    ret (Some (mkResult allCount bidCount askCount)).

(** [None] is the return value [false]; the action is then not read. *)
Definition TryParseInformation (str : string) : M (option Information) :=
  value ← at0 str;
  values ← Split str " "%char;
  if decide (value = "A"%char) then
    v ← subscript values 1; side ← ParseSide v;
    v ← subscript values 2; orderType ← ParseOrderType v;
    v ← subscript values 3; price ← ParsePrice v;
    v ← subscript values 4; quantity ← ParseQuantity v;
    v ← subscript values 5; orderId ← ParseOrderId v;
    ret (Some (mkInformation Add (Some orderType) (Some side) (Some price)
                 (Some quantity) (Some orderId)))
  else if decide (value = "M"%char) then
    v ← subscript values 1; orderId ← ParseOrderId v;
    v ← subscript values 2; side ← ParseSide v;
    v ← subscript values 3; price ← ParsePrice v;
    v ← subscript values 4; quantity ← ParseQuantity v;
    ret (Some (mkInformation Modify None (Some side) (Some price)
                 (Some quantity) (Some orderId)))
  else if decide (value = "C"%char) then
    v ← subscript values 1; orderId ← ParseOrderId v;
    ret (Some (mkInformation Cancel None None None None (Some orderId)))
  else ret None.

(** The calls of [std::getline(file, line)] that succeed on a stream with
    the content [content], in sequence: the line each one stores, and
    whether [eofbit] is set after it.  A call extracts characters up to and
    including the next newline, which it drops; it sets [eofbit] when it
    meets the end of the content instead of a newline, and it fails when it
    extracts nothing at all.  [line] holds the characters of the line read
    so far. *)
Fixpoint getlines (content : string) (line : string) : list (string * bool) :=
  match content with
  | EmptyString =>
      match line with
      | EmptyString => []
      | _ => [(line, true)]
      end
  | String c rest =>
      if decide (c = "010"%char) then (line, false) :: getlines rest EmptyString
      else getlines rest (line ++ String c EmptyString)%string
  end.

(** The loop of [GetInformations] over the lines; leaving the loop, by
    [break] or at the end of the file, reaches the [throw] after it. *)
Fixpoint GetInformations_loop (lines : list (string * bool)) (actions : Informations) :
    M (Informations * Result) :=
  match lines with
  | [] => throw (LogicError "No result specified.")
  | (line, eof) :: lines =>
      if decide (line = EmptyString) then throw (LogicError "No result specified.")
      else
        c ← at0 line;
        let isResult := bool_decide (c = "R"%char) in
        let isAction := negb isResult in
        if isAction then
          isValid ← TryParseInformation line;
          match isValid with
          | None => GetInformations_loop lines actions
          | Some action => GetInformations_loop lines (actions ++ [action])
          end
        else if negb eof
        then throw (LogicError "Result should only be specified at the end.")
        else
          isValid ← TryParseResult line;
          match isValid with
          | None => GetInformations_loop lines actions
          | Some result => ret (actions, result)
          end
  end.

(** [GetInformations] on a file that opens and has the content [content]. *)
Definition GetInformations (content : string) : M (Informations * Result) :=
  GetInformations_loop (getlines content EmptyString) [].

(** Reading a field of an [Information]; a field without a value is
    undefined to read. *)
Definition field {A} (f : option A) : M A :=
  match f with
  | Some v => ret v
  | None => throw Undefined
  end.

(** The lambda [GetOrder] of the test body. *)
Definition GetOrder (action : Information) : M Order :=
  orderType ← field (orderType_ action);
  orderId ← field (orderId_ action);
  side ← field (side_ action);
  price ← field (price_ action);
  quantity ← field (quantity_ action);
  ret (NewOrder orderType orderId side price quantity).

(** The lambda [GetOrderModify] of the test body. *)
Definition GetOrderModify (action : Information) : M OrderModify :=
  orderId ← field (orderId_ action);
  side ← field (side_ action);
  price ← field (price_ action);
  quantity ← field (quantity_ action);
  ret (NewOrderModify orderId side price quantity).

(** The [for] loop of the test body; the trades the calls return are not
    read.  The [default] of the [switch] is not reached: [ActionType] has
    the three values. *)
Fixpoint Act (actions : Informations) (orderbook : Orderbook) : M Orderbook :=
  match actions with
  | [] => ret orderbook
  | action :: actions =>
      orderbook ←
        match type_ action with
        | Add =>
            order ← GetOrder action;
            '(_, orderbook) ← AddOrder order orderbook;
            ret orderbook
        | Modify =>
            order ← GetOrderModify action;
            '(_, orderbook) ← ModifyOrder order orderbook;
            ret orderbook
        | Cancel =>
            orderId ← field (orderId_ action);
            CancelOrder orderId orderbook
        end;
      Act actions orderbook
  end.

(** The three [ASSERT_EQ] of the test body. *)
Definition Assert (orderbook : Orderbook) (result : Result) : bool :=
  let orderbookInfos := GetOrderInfos orderbook in
  (Z.of_nat (Size orderbook) =? allCount_ result)
  && (Z.of_nat (length (GetBids orderbookInfos)) =? bidCount_ result)
  && (Z.of_nat (length (GetAsks orderbookInfos)) =? askCount_ result).

(** The test body on a file with the content [content]: the verdict of the
    assertions, or the exception that ends the test. *)
Definition OrderbookTestSuite (content : string) : M bool :=
  '(actions, result) ← GetInformations content;
  orderbook ← Act actions empty_book;
  ret (Assert orderbook result).

(** Every field the test body reads of an action has a value. *)
Definition assigned (action : Information) : Prop :=
  match type_ action with
  | Add =>
      is_Some (orderType_ action) /\ is_Some (side_ action) /\ is_Some (price_ action)
      /\ is_Some (quantity_ action) /\ is_Some (orderId_ action)
  | Modify =>
      is_Some (side_ action) /\ is_Some (price_ action)
      /\ is_Some (quantity_ action) /\ is_Some (orderId_ action)
  | Cancel => is_Some (orderId_ action)
  end.

(** The columns of a line put together again, with the delimiter between
    them. *)
Fixpoint join (delimeter : ascii) (columns : list string) : string :=
  match columns with
  | [] => EmptyString
  | [column] => column
  | column :: columns => (column ++ String delimeter (join delimeter columns))%string
  end.

(** The character occurs in the string. *)
Definition occurs (c : ascii) (str : string) : Prop := is_Some (find str c 0).

(** The string begins with the character. *)
Definition begins_with (c : ascii) (str : string) : Prop :=
  exists rest, str = String c rest.

(** The columns of a string, by recursion on the string. *)
Fixpoint split_on (delimeter : ascii) (str : string) : list string :=
  match str with
  | EmptyString => [EmptyString]
  | String c rest =>
      if decide (c = delimeter) then EmptyString :: split_on delimeter rest
      else
        match split_on delimeter rest with
        | column :: columns => String c column :: columns
        | [] => [String c EmptyString]
        end
  end.

(** The lines of a script put together again, each followed by a newline. *)
Definition unlines (lines : list string) : string :=
  foldr (fun line rest => (line ++ String "010"%char rest)%string) EmptyString lines.

(** A script with one action and the result line, which no newline ends. *)
Definition script_with_one_add : string :=
  (unlines ["A B GoodTillCancel 100 10 1"%string] ++ "R 1 1 0")%string.

End OrderbookTests.

(** ** Orders of quantity zero *)

(** A book whose only order is a bid of quantity zero at 100. *)
Definition zero_quantity_bid_book : Orderbook :=
  Eval vm_compute in
    match run_adds [NewOrder GoodTillCancel 1 Buy 100 0] empty_book with
    | inr (_, st) => st
    | inl _ => empty_book
    end.

(** The trade of quantity zero between the order [o] that is added and the
    order [z] it meets at the head of the best level of the other side. *)
Definition zero_trade (o z : Order) : Trade :=
  match GetSide o with
  | Buy => mkTrade (mkTradeInfo (GetOrderId o) (GetPrice o) 0)
                   (mkTradeInfo (GetOrderId z) (GetPrice z) 0)
  | Sell => mkTrade (mkTradeInfo (GetOrderId z) (GetPrice z) 0)
                    (mkTradeInfo (GetOrderId o) (GetPrice o) 0)
  end.

(** * Properties *)

(** ** The model at work *)

(** The seven scenarios of the specification, with the counts of their
    terminal line (all orders, bid levels, ask levels) where the run gets
    there. *)
Example scenario_1_GoodTillCancel_rest_then_cross :
  counts (run [DoAddOrder (NewOrder GoodTillCancel 1 Buy 100 10);
               DoAddOrder (NewOrder GoodTillCancel 2 Sell 100 10)] empty_book)
  = ret (0, 0, 0)%nat.
Proof. vm_compute. reflexivity. Qed.

(** The second scenario does not reach its terminal line: what is left of
    the order of type [FillAndKill] is the head of the best ask level, and
    the call that is to cancel it does not return. *)
Example scenario_2_FillAndKill_partial :
  counts (run [DoAddOrder (NewOrder GoodTillCancel 1 Buy 100 5);
               DoAddOrder (NewOrder FillAndKill 2 Sell 100 10)] empty_book)
  = throw Deadlock.
Proof. vm_compute. reflexivity. Qed.

Example scenario_3_FillOrKill_miss :
  counts (run [DoAddOrder (NewOrder GoodTillCancel 1 Sell 100 5);
               DoAddOrder (NewOrder FillOrKill 2 Buy 100 10)] empty_book)
  = ret (1, 0, 1)%nat.
Proof. vm_compute. reflexivity. Qed.

Example scenario_4_FillOrKill_hit :
  counts (run [DoAddOrder (NewOrder GoodTillCancel 1 Sell 100 5);
               DoAddOrder (NewOrder GoodTillCancel 2 Sell 101 5);
               DoAddOrder (NewOrder FillOrKill 3 Buy 101 10)] empty_book)
  = ret (0, 0, 0)%nat.
Proof. vm_compute. reflexivity. Qed.

Example scenario_5_cancel :
  counts (run [DoAddOrder (NewOrder GoodTillCancel 1 Buy 100 5);
               DoCancelOrder 1] empty_book)
  = ret (0, 0, 0)%nat.
Proof. vm_compute. reflexivity. Qed.

Example scenario_6_modify_side :
  counts (run [DoAddOrder (NewOrder GoodTillCancel 1 Buy 100 5);
               DoModifyOrder (NewOrderModify 1 Sell 101 5)] empty_book)
  = ret (1, 0, 1)%nat.
Proof. vm_compute. reflexivity. Qed.

Example scenario_7_market_sweep :
  exists st,
    run [DoAddOrder (NewOrder GoodTillCancel 1 Sell 100 3);
         DoAddOrder (NewOrder GoodTillCancel 2 Sell 101 3);
         DoAddOrder (NewOrder Market 3 Buy 0 5)] empty_book
    = ret ([mkTrade (mkTradeInfo 3 101 3) (mkTradeInfo 1 100 3);
            mkTrade (mkTradeInfo 3 101 2) (mkTradeInfo 2 101 2)], st)
    /\ counts (ret ([], st)) = ret (1, 0, 1)%nat.
Proof. eexists. split; vm_compute; reflexivity. Qed.

Example ToNumber_42 : InputHandler.ToNumber "42" = ret 42.
Proof. reflexivity. Qed.

Example ToNumber_m5 : InputHandler.ToNumber "-5" = throw (LogicError "Value is below zero.").
Proof. reflexivity. Qed.

Example ToNumber_abc : InputHandler.ToNumber "abc" = ret 0.
Proof. reflexivity. Qed.

Example ToNumber_12abc : InputHandler.ToNumber "12abc" = ret 12.
Proof. reflexivity. Qed.

(** ** The sentinel price *)

(** C8.  [Constants::InvalidPrice] is the integer zero, which is a price the
    type [Price] holds and the harness parses from the token [0]: the
    sentinel cannot be told apart from the real price zero. *)
Theorem InvalidPrice_is_a_real_price :
  Constants.InvalidPrice = 0
  /\ valid_price Constants.InvalidPrice
  /\ InputHandler.ParsePrice "0" = ret Constants.InvalidPrice
  /\ GetPrice (NewMarketOrder 7 Buy 5) = GetPrice (NewOrder GoodTillCancel 7 Buy 0 5).
Proof.
  repeat split; try reflexivity; unfold Constants.InvalidPrice,
    numeric_limits_int32_quiet_NaN, INT32_MIN, INT32_MAX; lia.
Qed.

(** ** The number parser *)

Section ToNumber.

Import InputHandler.

Lemma scan_digits_all (s : string) :
  is_number s = true -> scan_digits s <> [].
Proof.
  destruct s as [|c s]; simpl; [discriminate|].
  destruct (digit_of c); [discriminate | discriminate].
Qed.

Lemma from_chars_malformed (s : string) (value : Z) :
  malformed s -> from_chars_int64 s value = (value, invalid_argument).
Proof.
  unfold malformed, from_chars_int64.
  destruct (strip_minus s) as [neg rest]; simpl.
  intros ->. reflexivity.
Qed.

Lemma from_chars_negative (ds : string) (value : Z) :
  is_number ds = true ->
  0 < number_value ds <= 2 ^ 63 ->
  from_chars_int64 (String "-" ds) value = (- number_value ds, errc_ok).
Proof.
  intros Hnum Hrange. unfold from_chars_int64; simpl.
  pose proof (scan_digits_all ds Hnum) as Hne.
  unfold number_value in *.
  destruct (scan_digits ds) as [|d l] eqn:E; [congruence|].
  replace ((INT64_MIN <=? - digits_value (d :: l)) && (- digits_value (d :: l) <=? INT64_MAX))
    with true; [reflexivity|].
  symmetry. apply andb_true_iff. unfold INT64_MIN, INT64_MAX. split; apply Z.leb_le; lia.
Qed.

End ToNumber.

(** C9, as the code has it.  [ToNumber] raises for a negative token (a minus
    sign followed by digits of a non-zero value) as long as the value fits in
    64 bits; for a malformed token it raises nothing and yields zero. *)
Theorem ToNumber_negative_raises_malformed_yields_zero :
  (forall ds : string,
      InputHandler.is_number ds = true ->
      0 < InputHandler.number_value ds <= 2 ^ 63 ->
      InputHandler.ToNumber (String "-" ds) = throw (LogicError "Value is below zero."))
  /\ (forall s : string, InputHandler.malformed s -> InputHandler.ToNumber s = ret 0).
Proof.
  split.
  - intros ds Hnum Hrange. unfold InputHandler.ToNumber.
    rewrite (from_chars_negative ds 0 Hnum Hrange).
    destruct (- InputHandler.number_value ds <? 0) eqn:E; [reflexivity|].
    apply Z.ltb_ge in E. lia.
  - intros s Hs. unfold InputHandler.ToNumber.
    rewrite (from_chars_malformed s 0 Hs). reflexivity.
Qed.

Lemma ToNumber_negative_raises_malformed_yields_zero_witness :
  InputHandler.ToNumber "-5" = throw (LogicError "Value is below zero.")
  /\ InputHandler.ToNumber "x1" = ret 0.
Proof.
  split.
  - apply (proj1 ToNumber_negative_raises_malformed_yields_zero "5"%string).
    + reflexivity.
    + vm_compute. split; [reflexivity | discriminate].
  - apply (proj2 ToNumber_negative_raises_malformed_yields_zero "x1"%string).
    reflexivity.
Defined.

(** C9, as stated, fails: the malformed token [abc] is turned into the number
    zero and nothing is raised; so is the negative token below, which does not
    fit in 64 bits. *)
Lemma ToNumber_malformed_not_raised :
  InputHandler.malformed "abc"
  /\ InputHandler.ToNumber "abc" = ret 0
  /\ InputHandler.ToNumber "-9223372036854775809" = ret 0
  /\ ~ (forall s : string, InputHandler.malformed s ->
          exists e, InputHandler.ToNumber s = throw e).
Proof.
  split; [reflexivity|]. split; [reflexivity|]. split; [reflexivity|].
  intros H. destruct (H "abc"%string eq_refl) as [e He]. discriminate He.
Qed.

(** ** The first and the last entry of an ordered map *)

Section Extreme.

Context {A : Type} (better : Z -> Z -> bool).

Hypothesis better_irrefl : forall a, better a a = false.

Hypothesis better_trans :
  forall a b c, better a b = true -> better c b = false -> better c a = false.

Lemma foldr_pick_None (l : list (Z * A)) :
  foldr (pick better) None l = None <-> l = [].
Proof.
  destruct l as [|kv l]; simpl; [tauto|].
  split; [|intros H; discriminate H].
  destruct (foldr (pick better) None l) as [kv'|]; simpl.
  - destruct (better kv.1 kv'.1); intros H; discriminate H.
  - intros H; discriminate H.
Qed.

Lemma foldr_pick_Some (l : list (Z * A)) (kv : Z * A) :
  foldr (pick better) None l = Some kv ->
  kv ∈ l /\ forall kv', kv' ∈ l -> better kv'.1 kv.1 = false.
Proof.
  revert kv. induction l as [|x l IH]; intros kv; simpl; [discriminate|].
  unfold pick at 1. destruct (foldr (pick better) None l) as [kv0|] eqn:E.
  - destruct (IH kv0 eq_refl) as [Hin Hbest].
    destruct (better x.1 kv0.1) eqn:Hb; intros [= <-].
    + split; [left|]. intros kv' [->|Hin']%elem_of_cons; [apply better_irrefl|].
      eapply better_trans; eauto.
    + split; [right; exact Hin|]. intros kv' [->|Hin']%elem_of_cons; auto.
  - intros [= <-]. apply foldr_pick_None in E. subst l.
    split; [left|]. intros kv' [->|Hin']%elem_of_cons; [apply better_irrefl|].
    inversion Hin'.
Qed.

Lemma extreme_None (m : gmap Z A) : extreme better m = None <-> m = ∅.
Proof.
  unfold extreme. rewrite foldr_pick_None. apply map_to_list_empty_iff.
Qed.

Lemma extreme_Some (m : gmap Z A) (k : Z) (v : A) :
  extreme better m = Some (k, v) ->
  m !! k = Some v /\ forall k' v', m !! k' = Some v' -> better k' k = false.
Proof.
  unfold extreme. intros [Hin Hbest]%foldr_pick_Some. split.
  - by apply elem_of_map_to_list in Hin.
  - intros k' v' Hk'. apply (Hbest (k', v')). by apply elem_of_map_to_list.
Qed.

End Extreme.

Lemma min_entry_None {A} (m : gmap Z A) : min_entry m = None <-> m = ∅.
Proof. apply extreme_None. Qed.

Lemma max_entry_None {A} (m : gmap Z A) : max_entry m = None <-> m = ∅.
Proof. apply extreme_None. Qed.

Lemma min_entry_Some {A} (m : gmap Z A) k v :
  min_entry m = Some (k, v) ->
  m !! k = Some v /\ forall k' v', m !! k' = Some v' -> k <= k'.
Proof.
  intros H. apply extreme_Some in H.
  - destruct H as [H1 H2]. split; [done|]. intros k' v' Hk'.
    specialize (H2 k' v' Hk'). apply Z.ltb_ge in H2. lia.
  - intros a. apply Z.ltb_irrefl.
  - intros a b c Hab Hcb. apply Z.ltb_lt in Hab. apply Z.ltb_ge in Hcb.
    apply Z.ltb_ge. lia.
Qed.

Lemma max_entry_Some {A} (m : gmap Z A) k v :
  max_entry m = Some (k, v) ->
  m !! k = Some v /\ forall k' v', m !! k' = Some v' -> k' <= k.
Proof.
  intros H. apply extreme_Some in H.
  - destruct H as [H1 H2]. split; [done|]. intros k' v' Hk'.
    specialize (H2 k' v' Hk'). rewrite Z.gtb_ltb in H2. apply Z.ltb_ge in H2. lia.
  - intros a. rewrite Z.gtb_ltb. apply Z.ltb_irrefl.
  - intros a b c Hab Hcb. rewrite Z.gtb_ltb in *. apply Z.ltb_lt in Hab.
    apply Z.ltb_ge in Hcb. apply Z.ltb_ge. lia.
Qed.

(** A key present and below (above) all others is the first (last) one. *)
Lemma min_entry_intro {A} (m : gmap Z A) k v :
  m !! k = Some v -> (forall k' v', m !! k' = Some v' -> k <= k') ->
  min_entry m = Some (k, v).
Proof.
  intros Hk Hmin. destruct (min_entry m) as [[k0 v0]|] eqn:E.
  - apply min_entry_Some in E as [H0 Hmin0].
    assert (k0 = k) as -> by (specialize (Hmin _ _ H0); specialize (Hmin0 _ _ Hk); lia).
    congruence.
  - apply min_entry_None in E. subst m. by rewrite lookup_empty in Hk.
Qed.

Lemma max_entry_intro {A} (m : gmap Z A) k v :
  m !! k = Some v -> (forall k' v', m !! k' = Some v' -> k' <= k) ->
  max_entry m = Some (k, v).
Proof.
  intros Hk Hmax. destruct (max_entry m) as [[k0 v0]|] eqn:E.
  - apply max_entry_Some in E as [H0 Hmax0].
    assert (k0 = k) as -> by (specialize (Hmax _ _ H0); specialize (Hmax0 _ _ Hk); lia).
    congruence.
  - apply max_entry_None in E. subst m. by rewrite lookup_empty in Hk.
Qed.

(** ** Well-formed books and the operations

    The public operations keep a well-formed book well-formed, and they
    return on it unless a [FillAndKill] order is added and something is left
    of it; the lemmas below lead to that, one function of [Orderbook.cpp] at
    a time. *)

(** *** Lists and queues *)

Lemma ids_static (q : list Order) : orderId_ <$> q = static_id <$> (static <$> q).
Proof. rewrite <- list_fmap_compose. reflexivity. Qed.

Lemma take_plus {A} (a b : nat) (l : list A) :
  take (a + b) l = take a l ++ take b (drop a l).
Proof.
  revert l. induction a as [|a IH]; intros l; simpl; [reflexivity|].
  destruct l as [|x l]; simpl.
  - by rewrite take_nil.
  - by rewrite IH.
Qed.

Lemma NoDup_take_drop {A} (k : nat) (l : list A) (x : A) :
  NoDup l -> (x ∈ take k l <-> x ∈ l /\ x ∉ drop k l).
Proof.
  intros Hnd. rewrite <- (take_drop k l) in Hnd at 1.
  apply NoDup_app in Hnd as (_ & Hdisj & _).
  split.
  - intros Hin. split; [|by apply Hdisj].
    rewrite <- (take_drop k l). apply elem_of_app. by left.
  - intros [Hin Hnot]. rewrite <- (take_drop k l) in Hin.
    apply elem_of_app in Hin as [|]; [done|contradiction].
Qed.

Lemma find_node_Some id q o :
  find_node id q = Some o -> o ∈ q /\ orderId_ o = id.
Proof.
  induction q as [|x q IH]; simpl; [discriminate|].
  destruct (decide (orderId_ x = id)) as [Heq|Hne].
  - intros [= <-]. split; [left|done].
  - intros H. destruct (IH H). split; [by right|done].
Qed.

Lemma find_node_elem id q :
  id ∈ orderId_ <$> q -> exists o, find_node id q = Some o.
Proof.
  induction q as [|x q IH]; simpl.
  - intros H. inversion H.
  - intros H. destruct (decide (orderId_ x = id)); [eauto|].
    apply elem_of_cons in H as [H|H]; [congruence | by apply IH].
Qed.

Lemma erase_node_subqueue id q : subqueue (erase_node id q) q.
Proof.
  unfold subqueue. induction q as [|x q IH]; simpl; [constructor|].
  destruct (decide (orderId_ x = id)).
  - by apply sublist_cons.
  - simpl. by apply sublist_skip.
Qed.

Lemma erase_node_ids id q (x : OrderId) :
  NoDup (orderId_ <$> q) -> id ∈ orderId_ <$> q ->
  (x ∈ [id] <-> x ∈ orderId_ <$> q /\ x ∉ orderId_ <$> erase_node id q).
Proof.
  induction q as [|o q IH]; simpl.
  - intros _ H. inversion H.
  - intros [Hnotin Hnd]%NoDup_cons Hin. destruct (decide (orderId_ o = id)) as [Heq|Hne].
    + subst id. rewrite list_elem_of_singleton, elem_of_cons. split.
      * intros ->. split; [by left|done].
      * intros [[->|Hx] Hnot]; [done|contradiction].
    + apply elem_of_cons in Hin as [Hin|Hin]; [congruence|].
      specialize (IH Hnd Hin). simpl. split.
      * intros Hx. apply IH in Hx as [Hx1 Hx2]. split; [by right|].
        intros [->|Hx3]%elem_of_cons; [|contradiction].
        apply Hnotin. exact Hx1.
      * intros [[->|Hx]%elem_of_cons Hnot].
        -- exfalso. apply Hnot. by left.
        -- apply IH. split; [done|]. intros Hx'. apply Hnot. by right.
Qed.

Lemma remove_ids_lookup ids orders (id : OrderId) :
  remove_ids ids orders !! id = if decide (id ∈ ids) then None else orders !! id.
Proof.
  unfold remove_ids. induction ids as [|x ids IH]; simpl.
  - destruct (decide (id ∈ [])) as [H|]; [inversion H|done].
  - rewrite lookup_delete. destruct (decide (x = id)) as [->|Hne].
    + destruct (decide (id ∈ id :: ids)) as [|Hn]; [done|]. exfalso. apply Hn. by left.
    + rewrite IH.
      destruct (decide (id ∈ ids)) as [Hin|Hnin];
        destruct (decide (id ∈ x :: ids)) as [Hin'|Hnin']; try done.
      * exfalso. apply Hnin'. by right.
      * apply elem_of_cons in Hin' as [->|]; [done|contradiction].
Qed.

(** *** Shrinking one level *)

Lemma side_map_set_side s s0 levels st :
  side_map s0 (set_side s levels st) = if decide (s0 = s) then levels else side_map s0 st.
Proof. destruct s, s0; reflexivity. Qed.

Lemma orders_set_side s levels st : orders_ (set_side s levels st) = orders_ st.
Proof. destruct s; reflexivity. Qed.

Lemma side_map_set_orders s o st : side_map s (set_orders o st) = side_map s st.
Proof. destruct s; reflexivity. Qed.

Lemma side_map_set_data s d st : side_map s (set_data d st) = side_map s st.
Proof. destruct s; reflexivity. Qed.

Lemma put_level_lookup p q levels p0 :
  put_level p q levels !! p0 =
  if decide (p = p0) then (if is_nil q then None else Some q) else levels !! p0.
Proof.
  unfold put_level. destruct (is_nil q).
  - rewrite lookup_delete. reflexivity.
  - rewrite lookup_insert. reflexivity.
Qed.

Lemma level_entry st s p q o :
  levels_ok st -> side_map s st !! p = Some q -> o ∈ q ->
  side_ o = s /\ price_ o = p /\ orders_ st !! orderId_ o = Some (mkOrderEntry s p).
Proof.
  intros Hl Hq Ho. destruct (Hl s p q Hq) as (_ & _ & Hall).
  rewrite Forall_forall in Hall. by apply Hall.
Qed.

Lemma level_entry_id st s p q id :
  levels_ok st -> side_map s st !! p = Some q -> id ∈ orderId_ <$> q ->
  orders_ st !! id = Some (mkOrderEntry s p).
Proof.
  intros Hl Hq (o & -> & Ho)%list_elem_of_fmap.
  by destruct (level_entry st s p q o Hl Hq Ho) as (_ & _ & ?).
Qed.

Lemma subqueue_elem q' q o' :
  subqueue q' q -> o' ∈ q' -> exists o, o ∈ q /\ static o = static o'.
Proof.
  intros Hsub Ho'. apply sublist_subseteq in Hsub.
  assert (static o' ∈ static <$> q) as Hin
    by (apply Hsub; by apply list_elem_of_fmap_2).
  apply list_elem_of_fmap in Hin as (o & Heq & Ho). eauto.
Qed.

Lemma subqueue_ids q' q : subqueue q' q -> (orderId_ <$> q') `sublist_of` (orderId_ <$> q).
Proof. intros H. rewrite !ids_static. by apply fmap_sublist. Qed.

Lemma subqueue_refl q : subqueue q q.
Proof. unfold subqueue. reflexivity. Qed.

Lemma subqueue_trans q1 q2 q3 : subqueue q1 q2 -> subqueue q2 q3 -> subqueue q1 q3.
Proof. unfold subqueue. intros H1 H2. by etrans. Qed.

Section Shrink.

Variables (st : Orderbook) (s : Side) (p : Price) (q q' : list Order) (removed : list OrderId).

Hypothesis Hwf : book_wf st.

Hypothesis Hq : side_map s st !! p = Some q.

Hypothesis Hsub : subqueue q' q.

Hypothesis Hremoved :
  forall id, id ∈ removed <-> id ∈ orderId_ <$> q /\ id ∉ orderId_ <$> q'.

Local Abbreviation st' := (shrunk st s p q' removed).

Lemma shrink_removed_entry id :
  id ∈ removed -> orders_ st !! id = Some (mkOrderEntry s p).
Proof.
  intros [Hin _]%Hremoved. destruct Hwf as [Hl _].
  by apply (level_entry_id st s p q id).
Qed.

Lemma shrink_kept_entry s0 p0 q0 o :
  side_map s0 st !! p0 = Some q0 -> o ∈ q0 ->
  (s0 = s -> p0 = p -> orderId_ o ∈ orderId_ <$> q') ->
  orders_ st' !! orderId_ o = Some (mkOrderEntry s0 p0).
Proof.
  intros Hq0 Ho Hkeep. destruct Hwf as [Hl _].
  destruct (level_entry st s0 p0 q0 o Hl Hq0 Ho) as (_ & _ & He).
  unfold shrunk. rewrite orders_set_side. simpl. rewrite remove_ids_lookup.
  destruct (decide (orderId_ o ∈ removed)) as [Hin|]; [|done].
  pose proof (shrink_removed_entry _ Hin) as He'.
  rewrite He in He'. injection He' as -> ->.
  apply Hremoved in Hin as [_ Hnot]. exfalso. by apply Hnot, Hkeep.
Qed.

Lemma shrink_levels_ok : levels_ok st'.
Proof.
  destruct Hwf as [Hl Hi]. intros s0 p0 q0 Hlk.
  unfold shrunk in Hlk. rewrite side_map_set_side, side_map_set_orders in Hlk.
  destruct (decide (s0 = s)) as [->|Hs].
  - rewrite put_level_lookup in Hlk. destruct (decide (p = p0)) as [<-|Hp].
    + destruct (is_nil q') eqn:Enil; [discriminate|].
      injection Hlk as <-.
      destruct (Hl s p q Hq) as (_ & Hnd & _).
      split; [by intros ->|]. split.
      * apply (sublist_NoDup _ (orderId_ <$> q)); [done|by apply subqueue_ids].
      * apply Forall_forall. intros o' Ho'.
        destruct (subqueue_elem _ _ _ Hsub Ho') as (o & Ho & Hst).
        destruct (level_entry st s p q o Hl Hq Ho) as (H1 & H2 & H3).
        injection Hst as Ht Hid Hsd Hpr.
        split; [congruence|]. split; [congruence|].
        rewrite <- Hid. apply (shrink_kept_entry s p q o Hq Ho).
        intros _ _. rewrite Hid. by apply list_elem_of_fmap_2.
    + destruct (Hl s p0 q0 Hlk) as (Hne & Hnd & Hall).
      split; [done|]. split; [done|].
      apply Forall_forall. intros o Ho.
      destruct (level_entry st s p0 q0 o Hl Hlk Ho) as (H1 & H2 & H3).
      split; [done|]. split; [done|].
      apply (shrink_kept_entry s p0 q0 o Hlk Ho). intros _ ?. congruence.
  - destruct (Hl s0 p0 q0 Hlk) as (Hne & Hnd & Hall).
    split; [done|]. split; [done|].
    apply Forall_forall. intros o Ho.
    destruct (level_entry st s0 p0 q0 o Hl Hlk Ho) as (H1 & H2 & H3).
    split; [done|]. split; [done|].
    apply (shrink_kept_entry s0 p0 q0 o Hlk Ho). intros ?. congruence.
Qed.

Lemma shrink_index_ok : index_ok st'.
Proof.
  destruct Hwf as [Hl Hi]. intros id e He.
  unfold shrunk in He. rewrite orders_set_side in He. simpl in He.
  rewrite remove_ids_lookup in He.
  destruct (decide (id ∈ removed)) as [|Hkept]; [discriminate|].
  destruct (Hi id e He) as (q0 & o & Hq0 & Hfind).
  unfold shrunk. rewrite side_map_set_side, side_map_set_orders.
  destruct (decide (entry_side_ e = s)) as [Hs|Hs]; [|by exists q0, o].
  rewrite put_level_lookup. destruct (decide (p = entry_price_ e)) as [Hp|Hp];
    [|rewrite <- Hs; by exists q0, o].
  rewrite Hs, <- Hp, Hq in Hq0. injection Hq0 as <-.
  destruct (find_node_Some _ _ _ Hfind) as [Ho Hid].
  assert (id ∈ orderId_ <$> q') as Hin'.
  { destruct (decide (id ∈ orderId_ <$> q')) as [|Hnot]; [done|].
    exfalso. apply Hkept, Hremoved. split; [|done].
    rewrite <- Hid. by apply list_elem_of_fmap_2. }
  destruct (find_node_elem _ _ Hin') as [o' Ho'].
  exists q', o'. split; [|done].
  destruct q'; [inversion Hin'|reflexivity].
Qed.

Lemma shrink_book_wf : book_wf st'.
Proof. split; [apply shrink_levels_ok | apply shrink_index_ok]. Qed.

Lemma shrink_shrinks : shrinks st st'.
Proof.
  intros s0 p0 q0 Hlk. unfold shrunk in Hlk.
  rewrite side_map_set_side, side_map_set_orders in Hlk.
  destruct (decide (s0 = s)) as [->|Hs].
  - rewrite put_level_lookup in Hlk. destruct (decide (p = p0)) as [<-|Hp].
    + destruct (is_nil q'); [discriminate|]. injection Hlk as <-. eauto.
    + exists q0. split; [done | apply subqueue_refl].
  - exists q0. split; [done | apply subqueue_refl].
Qed.

End Shrink.

(** *** The level data plays no part in well-formedness *)

Lemma book_wf_set_data d st : book_wf st -> book_wf (set_data d st).
Proof.
  intros [Hl Hi]. split.
  - intros s p q Hq. rewrite side_map_set_data in Hq. exact (Hl s p q Hq).
  - intros id e He. destruct (Hi id e He) as (q & o & Hq & Hf).
    exists q, o. by rewrite side_map_set_data.
Qed.

Lemma shrinks_refl st : shrinks st st.
Proof. intros s p q Hq. exists q. split; [done | apply subqueue_refl]. Qed.

Lemma shrinks_trans st1 st2 st3 : shrinks st1 st2 -> shrinks st2 st3 -> shrinks st1 st3.
Proof.
  intros H12 H23 s p q3 Hq3.
  destruct (H23 s p q3 Hq3) as (q2 & Hq2 & Hs2).
  destruct (H12 s p q2 Hq2) as (q1 & Hq1 & Hs1).
  exists q1. split; [done | by eapply subqueue_trans].
Qed.

Lemma shrinks_set_data d st st' : shrinks st st' -> shrinks st (set_data d st').
Proof. intros H s p q Hq. rewrite side_map_set_data in Hq. by apply H. Qed.

(** *** Cancelling *)

Lemma erase_from_level_put id p levels q :
  levels !! p = Some q ->
  erase_from_level id p levels = ret (put_level p (erase_node id q) levels).
Proof.
  intros Hq. unfold erase_from_level, at_. rewrite Hq. simpl.
  unfold put_level. by destruct (erase_node id q).
Qed.

Lemma CancelOrderInternal_live st id e :
  book_wf st -> orders_ st !! id = Some e ->
  exists q o,
    side_map (entry_side_ e) st !! entry_price_ e = Some q
    /\ find_node id q = Some o
    /\ CancelOrderInternal id st =
       ret (set_data (OnOrderCancelled o (data_ st))
              (set_side (entry_side_ e)
                 (put_level (entry_price_ e) (erase_node id q) (side_map (entry_side_ e) st))
                 (set_orders (remove_ids [id] (orders_ st)) st))).
Proof.
  intros [Hl Hi] He. destruct (Hi id e He) as (q & o & Hq & Hf).
  exists q, o. split; [done|]. split; [done|].
  destruct (find_node_Some _ _ _ Hf) as [Ho Hid].
  destruct (level_entry st _ _ q o Hl Hq Ho) as (Hs & Hp & _).
  unfold CancelOrderInternal, deref. rewrite He, Hq, Hf. simpl.
  unfold GetSide, GetPrice. rewrite Hs, Hp.
  destruct (entry_side_ e) eqn:Es; simpl in *.
  - rewrite (erase_from_level_put id _ _ q Hq). reflexivity.
  - rewrite (erase_from_level_put id _ _ q Hq). reflexivity.
Qed.

Lemma CancelOrderInternal_spec st id :
  book_wf st ->
  exists st', CancelOrderInternal id st = ret st'
              /\ book_wf st' /\ shrinks st st'
              /\ orders_ st' = delete id (orders_ st).
Proof.
  intros Hwf. destruct (orders_ st !! id) as [e|] eqn:He.
  - destruct (CancelOrderInternal_live st id e Hwf He) as (q & o & Hq & Hf & ->).
    destruct (find_node_Some _ _ _ Hf) as [Ho Hid].
    assert (forall x, x ∈ [id] <-> x ∈ orderId_ <$> q /\ x ∉ orderId_ <$> erase_node id q) as Hrem.
    { intros x. apply erase_node_ids.
      - destruct Hwf as [Hl _]. by destruct (Hl _ _ _ Hq) as (_ & ? & _).
      - rewrite <- Hid. by apply list_elem_of_fmap_2. }
    eexists. split; [reflexivity|]. split; [|split].
    + apply book_wf_set_data.
      apply (shrink_book_wf st _ _ q _ [id] Hwf Hq (erase_node_subqueue id q) Hrem).
    + apply shrinks_set_data.
      apply (shrink_shrinks st _ _ q _ [id]); [done | apply erase_node_subqueue].
    + simpl. rewrite orders_set_side. reflexivity.
  - exists st. unfold CancelOrderInternal. rewrite He.
    split; [reflexivity|]. split; [done|]. split; [apply shrinks_refl|].
    symmetry. by apply delete_id.
Qed.

Lemma CancelOrders_spec ids st :
  book_wf st ->
  exists st', CancelOrders ids st = ret st' /\ book_wf st' /\ shrinks st st'.
Proof.
  revert st. induction ids as [|id ids IH]; intros st Hwf; simpl.
  - exists st. split; [reflexivity|]. split; [done | apply shrinks_refl].
  - destruct (CancelOrderInternal_spec st id Hwf) as (st1 & -> & Hwf1 & Hs1 & _).
    destruct (IH st1 Hwf1) as (st2 & Hc & Hwf2 & Hs2). simpl.
    exists st2. split; [done|]. split; [done | by eapply shrinks_trans].
Qed.

(** *** The inner loop *)

Lemma Fill_min_l bid ask :
  Fill (Z.min (GetRemainingQuantity bid) (GetRemainingQuantity ask)) bid =
  ret (filled_by (Z.min (GetRemainingQuantity bid) (GetRemainingQuantity ask)) bid).
Proof.
  unfold Fill. destruct (Z.gtb_spec (Z.min (GetRemainingQuantity bid) (GetRemainingQuantity ask))
                           (GetRemainingQuantity bid)); [lia | reflexivity].
Qed.

Lemma Fill_min_r bid ask :
  Fill (Z.min (GetRemainingQuantity bid) (GetRemainingQuantity ask)) ask =
  ret (filled_by (Z.min (GetRemainingQuantity bid) (GetRemainingQuantity ask)) ask).
Proof.
  unfold Fill. destruct (Z.gtb_spec (Z.min (GetRemainingQuantity bid) (GetRemainingQuantity ask))
                           (GetRemainingQuantity ask)); [lia | reflexivity].
Qed.

Lemma static_filled_by quantity o : static (filled_by quantity o) = static o.
Proof. reflexivity. Qed.

Lemma one_head_filled bid ask :
  let quantity := Z.min (GetRemainingQuantity bid) (GetRemainingQuantity ask) in
  IsFilled (filled_by quantity bid) = false -> IsFilled (filled_by quantity ask) = true.
Proof.
  unfold IsFilled, GetRemainingQuantity, filled_by, wrap32; simpl. intros Hb.
  destruct (Z.min_spec (remainingQuantity_ bid) (remainingQuantity_ ask)) as [[_ E]|[_ E]];
    rewrite E in *.
  - rewrite Z.sub_diag in Hb. discriminate Hb.
  - rewrite Z.sub_diag. reflexivity.
Qed.

Lemma level_pops_refl s : level_pops s s.
Proof.
  exists 0%nat, 0%nat. split; [done|]. split; [done|].
  intros id. simpl. destruct (decide (id ∈ [])) as [H|]; [inversion H | done].
Qed.

Lemma level_pops_trans s1 s2 s3 : level_pops s1 s2 -> level_pops s2 s3 -> level_pops s1 s3.
Proof.
  intros (kb & ka & Hb & Ha & Ho) (kb' & ka' & Hb' & Ha' & Ho').
  exists (kb + kb')%nat, (ka + ka')%nat. split; [|split].
  - by rewrite Hb', Hb, drop_drop.
  - by rewrite Ha', Ha, drop_drop.
  - intros id. rewrite Ho', Ho. rewrite !take_plus.
    rewrite (ids_static (ls_bids s2)), (ids_static (ls_asks s2)), Hb, Ha.
    rewrite <- !fmap_drop, <- !ids_static, <- !fmap_take.
    repeat case_decide; try done; exfalso; rewrite ?elem_of_app in *; tauto.
Qed.

Lemma MatchLevel_spec fuel s :
  (length (ls_bids s) + length (ls_asks s) <= fuel)%nat ->
  exists s', MatchLevel fuel s = ret s'
             /\ (ls_bids s' = [] \/ ls_asks s' = [])
             /\ level_pops s s'.
Proof.
  revert s. induction fuel as [|fuel IH]; intros [bids asks orders data trades] Hlen;
    simpl in Hlen.
  - destruct bids; [|simpl in Hlen; lia].
    eexists. split; [reflexivity|]. split; [by left | apply level_pops_refl].
  - destruct bids as [|bid bids].
    { eexists. split; [reflexivity|]. split; [by left | apply level_pops_refl]. }
    destruct asks as [|ask asks].
    { eexists. split; [reflexivity|]. split; [by right | apply level_pops_refl]. }
    cbn [MatchLevel ls_bids ls_asks ls_orders ls_data ls_trades].
    rewrite Fill_min_l, Fill_min_r. unfold ret at 1 2. cbn [mbind M_bind].
    pose proof (one_head_filled bid ask) as Hone. cbv zeta in Hone.
    set (quantity := Z.min (GetRemainingQuantity bid) (GetRemainingQuantity ask)) in *.
    destruct (IsFilled (filled_by quantity bid)) eqn:Eb;
      destruct (IsFilled (filled_by quantity ask)) eqn:Ea;
      try (specialize (Hone eq_refl); discriminate Hone).
    all: cbv beta iota zeta.
    all: match goal with
         | |- exists s', MatchLevel _ ?s1 = _ /\ _ =>
             destruct (IH s1) as (s' & Hrun & Hnil & Hpops);
               [simpl in *; lia|];
               exists s'; split; [exact Hrun|]; split; [exact Hnil|];
               refine (level_pops_trans _ s1 _ _ Hpops)
         end.
    + exists 1%nat, 1%nat. split; [done|]. split; [done|]. intros id. simpl.
      rewrite !lookup_delete. unfold GetOrderId. simpl.
      repeat case_decide; try done; exfalso; set_solver.
    + exists 1%nat, 0%nat. split; [done|]. split; [done|]. intros id. simpl.
      rewrite !lookup_delete. unfold GetOrderId. simpl.
      repeat case_decide; try done; exfalso; set_solver.
    + exists 0%nat, 1%nat. split; [done|]. split; [done|]. intros id. simpl.
      rewrite !lookup_delete. unfold GetOrderId. simpl.
      repeat case_decide; try done; exfalso; set_solver.
Qed.

(** *** The outer loop *)

Lemma EraseEmptyLevels_bids bp ap s st :
  bids_ (EraseEmptyLevels bp ap s st) = put_level bp (ls_bids s) (bids_ st).
Proof.
  unfold EraseEmptyLevels, put_level.
  destruct (is_nil (ls_bids s)), (is_nil (ls_asks s)); simpl;
    rewrite ?delete_insert_eq; reflexivity.
Qed.

Lemma EraseEmptyLevels_asks bp ap s st :
  asks_ (EraseEmptyLevels bp ap s st) = put_level ap (ls_asks s) (asks_ st).
Proof.
  unfold EraseEmptyLevels, put_level.
  destruct (is_nil (ls_bids s)), (is_nil (ls_asks s)); simpl;
    rewrite ?delete_insert_eq; reflexivity.
Qed.

Lemma EraseEmptyLevels_orders bp ap s st :
  orders_ (EraseEmptyLevels bp ap s st) = ls_orders s.
Proof.
  unfold EraseEmptyLevels.
  destruct (is_nil (ls_bids s)), (is_nil (ls_asks s)); reflexivity.
Qed.

Lemma book_wf_ext st st' :
  bids_ st = bids_ st' -> asks_ st = asks_ st' -> orders_ st = orders_ st' ->
  book_wf st -> book_wf st'.
Proof.
  destruct st, st'; simpl. intros -> -> -> H. exact H.
Qed.

Lemma shrinks_ext st0 st st' :
  bids_ st = bids_ st' -> asks_ st = asks_ st' -> shrinks st0 st -> shrinks st0 st'.
Proof.
  destruct st, st'; simpl. intros -> -> H. exact H.
Qed.

Lemma put_level_size p q (levels : gmap Z (list Order)) :
  is_Some (levels !! p) ->
  (size (put_level p q levels) <= size levels)%nat
  /\ (q = [] -> (size (put_level p q levels) < size levels)%nat).
Proof.
  intros Hp. unfold put_level. destruct q as [|o q]; simpl.
  - rewrite map_size_delete_Some by done.
    assert (size levels <> 0%nat).
    { apply map_size_non_empty_iff. intros ->. destruct Hp as [? Hp].
      by rewrite lookup_empty in Hp. }
    split; [lia | intros _; lia].
  - rewrite map_size_insert_Some by done. split; [lia | discriminate].
Qed.

Lemma is_nil_true {A} (l : list A) : is_nil l = true <-> l = [].
Proof. destruct l; simpl; split; (done || discriminate). Qed.

Lemma pops_removed k (q q' : list Order) (id : Z) :
  NoDup (orderId_ <$> q) ->
  static <$> q' = drop k (static <$> q) ->
  (id ∈ take k (orderId_ <$> q) <-> id ∈ orderId_ <$> q /\ id ∉ orderId_ <$> q').
Proof.
  intros Hnd Hq'. rewrite (ids_static q'), Hq', <- fmap_drop, <- ids_static, fmap_drop.
  by apply NoDup_take_drop.
Qed.

Lemma pops_subqueue k (q q' : list Order) :
  static <$> q' = drop k (static <$> q) -> subqueue q' q.
Proof. unfold subqueue. intros ->. apply sublist_drop. Qed.

Lemma round_spec st bp bq ap aq trades s' :
  book_wf st ->
  bids_ st !! bp = Some bq ->
  asks_ st !! ap = Some aq ->
  level_pops (mkLevelState bq aq (orders_ st) (data_ st) trades) s' ->
  book_wf (EraseEmptyLevels bp ap s' st)
  /\ shrinks st (EraseEmptyLevels bp ap s' st).
Proof.
  intros Hwf Hbq Haq (kb & ka & Hb & Ha & Ho). simpl in Hb, Ha, Ho.
  pose proof Hwf as [Hl _].
  destruct (Hl Buy bp bq Hbq) as (_ & Hndb & _).
  destruct (Hl Sell ap aq Haq) as (_ & Hnda & _).
  set (rb := take kb (orderId_ <$> bq)). set (ra := take ka (orderId_ <$> aq)).
  set (stA := set_side Buy (put_level bp (ls_bids s') (side_map Buy st))
                (set_orders (remove_ids rb (orders_ st)) st)).
  assert (book_wf stA) as HwfA.
  { apply (shrink_book_wf st Buy bp bq (ls_bids s') rb Hwf Hbq (pops_subqueue _ _ _ Hb)).
    intros id. by apply pops_removed. }
  assert (shrinks st stA) as HsA.
  { apply (shrink_shrinks st Buy bp bq (ls_bids s') rb Hbq (pops_subqueue _ _ _ Hb)). }
  set (stB := set_side Sell (put_level ap (ls_asks s') (side_map Sell stA))
                (set_orders (remove_ids ra (orders_ stA)) stA)).
  assert (side_map Sell stA !! ap = Some aq) as HaqA by exact Haq.
  assert (book_wf stB) as HwfB.
  { apply (shrink_book_wf stA Sell ap aq (ls_asks s') ra HwfA HaqA (pops_subqueue _ _ _ Ha)).
    intros id. by apply pops_removed. }
  assert (shrinks stA stB) as HsB.
  { apply (shrink_shrinks stA Sell ap aq (ls_asks s') ra HaqA (pops_subqueue _ _ _ Ha)). }
  assert (bids_ stB = bids_ (EraseEmptyLevels bp ap s' st)) as E1
    by (rewrite EraseEmptyLevels_bids; reflexivity).
  assert (asks_ stB = asks_ (EraseEmptyLevels bp ap s' st)) as E2
    by (rewrite EraseEmptyLevels_asks; reflexivity).
  assert (orders_ stB = orders_ (EraseEmptyLevels bp ap s' st)) as E3.
  { rewrite EraseEmptyLevels_orders. apply map_eq. intros id.
    rewrite Ho. simpl. rewrite !remove_ids_lookup. fold rb ra.
    repeat case_decide; try done; exfalso; rewrite ?elem_of_app in *; tauto. }
  split.
  - exact (book_wf_ext stB _ E1 E2 E3 HwfB).
  - apply (shrinks_ext st stB _ E1 E2). by eapply shrinks_trans.
Qed.

Lemma begin_lookup_max {A} (m : gmap Z A) k v : max_entry m = Some (k, v) -> m !! k = Some v.
Proof. intros H. by apply max_entry_Some in H as [? _]. Qed.

Lemma begin_lookup_min {A} (m : gmap Z A) k v : min_entry m = Some (k, v) -> m !! k = Some v.
Proof. intros H. by apply min_entry_Some in H as [? _]. Qed.

Lemma MatchLoop_spec fuel st trades :
  book_wf st ->
  (size (bids_ st) + size (asks_ st) <= fuel)%nat ->
  exists trades' st',
    MatchLoop fuel st trades = ret (trades', st')
    /\ book_wf st' /\ shrinks st st' /\ uncrossed st'.
Proof.
  revert st trades. induction fuel as [|fuel IH]; intros st trades Hwf Hsize.
  all: destruct (bids_begin st) as [[bp bq]|] eqn:Eb;
       [destruct (asks_begin st) as [[ap aq]|] eqn:Ea|].
  all: try (exists trades, st; split;
            [destruct fuel; simpl; rewrite Eb, ?Ea; reflexivity|];
            split; [done|]; split; [apply shrinks_refl|];
            intros ? ? ? ? H1 H2; congruence).
  all: try (exists trades, st; split;
            [simpl; rewrite Eb, ?Ea; reflexivity|];
            split; [done|]; split; [apply shrinks_refl|];
            intros ? ? ? ? H1 H2; congruence).
  all: pose proof (begin_lookup_max _ _ _ Eb) as Hbq;
       pose proof (begin_lookup_min _ _ _ Ea) as Haq.
  all: destruct (bp <? ap) eqn:Elt.
  all: try (exists trades, st; split; [simpl; rewrite Eb, Ea, Elt; reflexivity|];
            split; [done|]; split; [apply shrinks_refl|];
            intros ? ? ? ? H1 H2;
            rewrite Eb in H1; rewrite Ea in H2;
            injection H1 as <- <-; injection H2 as <- <-; by apply Z.ltb_lt).
  - exfalso.
    assert (size (bids_ st) <> 0%nat); [|lia].
    apply map_size_non_empty_iff. intros E. rewrite E, lookup_empty in Hbq. discriminate.
  - destruct (MatchLevel_spec (length bq + length aq)
                (mkLevelState bq aq (orders_ st) (data_ st) trades)) as (s' & Hrun & Hnil & Hpops);
      [simpl; lia|].
    destruct (round_spec st bp bq ap aq trades s' Hwf Hbq Haq Hpops) as [Hwf1 Hs1].
    destruct (IH (EraseEmptyLevels bp ap s' st) (ls_trades s') Hwf1) as (tr & st' & Hloop & Hwf' & Hs' & Hunc).
    + rewrite EraseEmptyLevels_bids, EraseEmptyLevels_asks.
      destruct (put_level_size bp (ls_bids s') (bids_ st)) as [Hb1 Hb2]; [by eexists|].
      destruct (put_level_size ap (ls_asks s') (asks_ st)) as [Ha1 Ha2]; [by eexists|].
      destruct Hnil as [Hn|Hn]; [specialize (Hb2 Hn) | specialize (Ha2 Hn)]; lia.
    + exists tr, st'. split.
      * simpl. rewrite Eb, Ea, Elt, Hrun. exact Hloop.
      * split; [done|]. split; [by eapply shrinks_trans | done].
Qed.

(** *** Placing an order *)

Lemma orders_PlaceOrder o st :
  orders_ (PlaceOrder o st) = <[orderId_ o := mkOrderEntry (side_ o) (price_ o)]> (orders_ st).
Proof. unfold PlaceOrder, GetSide. destruct (side_ o); reflexivity. Qed.

Lemma side_map_PlaceOrder o st s :
  side_map s (PlaceOrder o st) =
  if decide (s = side_ o) then push_back_level o (side_map s st) else side_map s st.
Proof. unfold PlaceOrder, GetSide. destruct (side_ o), s; reflexivity. Qed.

Lemma lookup_PlaceOrder o st s p :
  side_map s (PlaceOrder o st) !! p =
  if decide (s = side_ o /\ p = price_ o)
  then Some (default [] (side_map s st !! p) ++ [o])
  else side_map s st !! p.
Proof.
  rewrite side_map_PlaceOrder. destruct (decide (s = side_ o)) as [->|Hs].
  - unfold push_back_level, GetPrice. rewrite lookup_insert.
    destruct (decide (price_ o = p)) as [<-|Hp].
    + rewrite decide_True by done. reflexivity.
    + rewrite decide_False; [done|]. intros [_ ->]. done.
  - rewrite decide_False; [done|]. intros [-> _]. done.
Qed.

Lemma PlaceOrder_elem o st s p q' o' :
  side_map s (PlaceOrder o st) !! p = Some q' -> o' ∈ q' ->
  o' = o \/ exists q, side_map s st !! p = Some q /\ o' ∈ q.
Proof.
  rewrite lookup_PlaceOrder. destruct (decide _) as [[-> ->]|].
  - intros [= <-] [Hin|Hin]%elem_of_app.
    + right. destruct (side_map (side_ o) st !! price_ o) as [q|]; simpl in Hin.
      * eauto.
      * inversion Hin.
    + left. by apply list_elem_of_singleton in Hin.
  - intros Hq Hin. right. eauto.
Qed.

Lemma PlaceOrder_wf o st :
  book_wf st -> orders_ st !! orderId_ o = None -> book_wf (PlaceOrder o st).
Proof.
  intros [Hl Hi] Hfresh.
  assert (forall s p q o1, side_map s st !! p = Some q -> o1 ∈ q ->
            orderId_ o1 <> orderId_ o) as Hother.
  { intros s p q o1 Hq Ho1 Heq.
    destruct (level_entry st s p q o1 Hl Hq Ho1) as (_ & _ & He). congruence. }
  split.
  - intros s p q' Hq'. rewrite lookup_PlaceOrder in Hq'.
    destruct (decide _) as [[-> ->]|Hne].
    + injection Hq' as <-.
      assert (exists q0, default [] (side_map (side_ o) st !! price_ o) = q0
                         /\ NoDup (orderId_ <$> q0)
                         /\ Forall (fun o1 => side_ o1 = side_ o /\ price_ o1 = price_ o
                                     /\ orders_ st !! orderId_ o1
                                        = Some (mkOrderEntry (side_ o) (price_ o))
                                     /\ orderId_ o1 <> orderId_ o) q0) as (q0 & -> & Hnd & Hall).
      { destruct (side_map (side_ o) st !! price_ o) as [q|] eqn:Eq; simpl.
        - exists q. split; [done|]. destruct (Hl _ _ _ Eq) as (_ & Hnd & _).
          split; [done|]. apply Forall_forall. intros o1 Ho1.
          destruct (level_entry st _ _ q o1 Hl Eq Ho1) as (? & ? & ?).
          repeat split; try done. by eapply Hother.
        - exists []. split; [done|]. split; [constructor | constructor]. }
      split; [by destruct q0|]. split.
      * rewrite fmap_app. apply NoDup_app. split; [done|]. split; [|apply NoDup_singleton].
        intros x (o1 & -> & Ho1)%list_elem_of_fmap. rewrite Forall_forall in Hall.
        destruct (Hall o1 Ho1) as (_ & _ & _ & Hne). simpl.
        intros Hx%list_elem_of_singleton. done.
      * rewrite orders_PlaceOrder. apply Forall_app. split.
        -- eapply Forall_impl; [exact Hall|]. intros o1 (? & ? & ? & ?).
           split; [done|]. split; [done|]. by rewrite lookup_insert_ne.
        -- apply Forall_singleton. split; [done|]. split; [done|]. apply lookup_insert_eq.
    + destruct (Hl s p q' Hq') as (Hnil & Hnd & Hall).
      split; [done|]. split; [done|]. apply Forall_forall. intros o1 Ho1.
      destruct (level_entry st s p q' o1 Hl Hq' Ho1) as (? & ? & ?).
      split; [done|]. split; [done|].
      rewrite orders_PlaceOrder, lookup_insert_ne; [done|].
      intros Heq. by eapply (Hother s p q' o1).
  - intros id e He. rewrite orders_PlaceOrder in He. rewrite lookup_PlaceOrder.
    apply lookup_insert_Some in He as [[<- <-]|[Hne He]]; simpl.
    + rewrite decide_True by done.
      destruct (find_node_elem (orderId_ o)
                  (default [] (side_map (side_ o) st !! price_ o) ++ [o])) as [o' Ho'].
      { rewrite fmap_app. apply elem_of_app. right. by left. }
      eauto.
    + destruct (Hi id e He) as (q & o1 & Hq & Hf).
      destruct (decide _) as [[Hs Hp]|]; [|eauto].
      rewrite Hq. simpl.
      destruct (find_node_elem id (q ++ [o])) as [o' Ho'].
      { rewrite fmap_app. apply elem_of_app. left.
        destruct (find_node_Some _ _ _ Hf) as [? <-]. by apply list_elem_of_fmap_2. }
      eauto.
Qed.

(** *** Both forms of "the book does not cross" *)

Lemma apart_uncrossed st : apart st <-> uncrossed st.
Proof.
  split.
  - intros Hap bp bq ap aq Hb Ha.
    apply (Hap bp bq ap aq); [by apply begin_lookup_max in Hb | by apply begin_lookup_min in Ha].
  - intros Hun pb qb pa qa Hb Ha.
    destruct (bids_begin st) as [[bp bq]|] eqn:Eb.
    2: { apply max_entry_None in Eb. rewrite Eb, lookup_empty in Hb. discriminate. }
    destruct (asks_begin st) as [[ap aq]|] eqn:Ea.
    2: { apply min_entry_None in Ea. rewrite Ea, lookup_empty in Ha. discriminate. }
    specialize (Hun bp bq ap aq Eb Ea).
    apply max_entry_Some in Eb as [_ Hmax]. apply min_entry_Some in Ea as [_ Hmin].
    specialize (Hmax _ _ Hb). specialize (Hmin _ _ Ha). lia.
Qed.

Lemma shrinks_apart st st' : shrinks st st' -> apart st -> apart st'.
Proof.
  intros Hs Hap pb qb pa qa Hb Ha.
  destruct (Hs Buy pb qb Hb) as (qb0 & Hb0 & _).
  destruct (Hs Sell pa qa Ha) as (qa0 & Ha0 & _).
  by eapply Hap.
Qed.

Lemma shrinks_no_FillAndKill st st' :
  shrinks st st' -> no_FillAndKill st -> no_FillAndKill st'.
Proof.
  intros Hs Hno s p q' o' Hq' Ho'.
  destruct (Hs s p q' Hq') as (q & Hq & Hsub).
  destruct (subqueue_elem _ _ _ Hsub Ho') as (o & Ho & Hst).
  injection Hst as <- _ _ _. by eapply Hno.
Qed.

(** *** The orders of type [FillAndKill] at the end of [MatchOrders] *)

Lemma top_lookup s st p q : top s st = Some (p, q) -> side_map s st !! p = Some q.
Proof. destruct s; simpl; [apply begin_lookup_max | apply begin_lookup_min]. Qed.

Lemma top_None s st : top s st = None -> side_map s st = ∅.
Proof. destruct s; simpl; [apply max_entry_None | apply min_entry_None]. Qed.

Lemma top_intro s st st0 p q q0 :
  top s st0 = Some (p, q0) -> shrinks st0 st -> side_map s st !! p = Some q ->
  top s st = Some (p, q).
Proof.
  intros Ht Hs Hq. destruct s; simpl in *.
  - apply max_entry_intro; [done|]. intros k' v' Hk'.
    destruct (Hs Buy k' v' Hk') as (v0 & Hv0 & _).
    apply max_entry_Some in Ht as [_ Hmax]. by eapply Hmax.
  - apply min_entry_intro; [done|]. intros k' v' Hk'.
    destruct (Hs Sell k' v' Hk') as (v0 & Hv0 & _).
    apply min_entry_Some in Ht as [_ Hmin]. by eapply Hmin.
Qed.

Lemma subqueue_singleton q' o o' :
  subqueue q' [o] -> o' ∈ q' -> q' = [o'].
Proof.
  intros Hsub Ho'. apply sublist_length in Hsub. rewrite !length_fmap in Hsub.
  destruct q' as [|x [|y l]]; simpl in Hsub.
  - inversion Ho'.
  - apply list_elem_of_singleton in Ho'. by subst.
  - lia.
Qed.

Lemma shrinks_on_top st st' :
  shrinks st st' -> FillAndKill_on_top st -> FillAndKill_on_top st'.
Proof.
  intros Hs Htop s p q' o' Hq' Ho' Hfak.
  destruct (Hs s p q' Hq') as (q & Hq & Hsub).
  destruct (subqueue_elem _ _ _ Hsub Ho') as (o & Ho & Hst).
  assert (orderType_ o = FillAndKill) as Hfak0 by (injection Hst as -> _ _ _; done).
  destruct (Htop s p q o Hq Ho Hfak0) as [-> Ht].
  assert (q' = [o']) as -> by (by eapply subqueue_singleton).
  split; [done|]. by eapply top_intro.
Qed.

Lemma CancelOrder_holding_true id st : CancelOrder_holding true id st = throw Deadlock.
Proof. reflexivity. Qed.

Lemma CancelOrder_holding_false id st : CancelOrder_holding false id st = CancelOrder id st.
Proof. reflexivity. Qed.

(** The tail of [MatchOrders] on one side: the head of the best level is
    not of type [FillAndKill] and nothing happens, or it is and the call of
    [CancelOrder] does not return. *)
Lemma CancelFillAndKillHead_cases s st :
  book_wf st ->
  (CancelFillAndKillHead (top s st) st = ret st
   /\ forall p o q, top s st = Some (p, o :: q) -> orderType_ o <> FillAndKill)
  \/ (CancelFillAndKillHead (top s st) st = throw Deadlock
      /\ exists p o q, top s st = Some (p, o :: q) /\ orderType_ o = FillAndKill).
Proof.
  intros Hwf. destruct (top s st) as [[p q]|] eqn:Et.
  - pose proof (top_lookup _ _ _ _ Et) as Hq.
    pose proof Hwf as [Hl _]. destruct (Hl s p q Hq) as (Hnil & _ & _).
    destruct q as [|o q1]; [done|]. simpl.
    destruct (decide (GetOrderType o = FillAndKill)) as [Hfak|Hfak].
    + right. split; [apply CancelOrder_holding_true|]. by exists p, o, q1.
    + left. split; [reflexivity|]. by intros ? ? ? [= _ <- _].
  - left. split; [reflexivity|]. by intros.
Qed.

(** [MatchOrders] runs its loop to the end; then it returns what the loop
    left, when neither best level begins with an order of type
    [FillAndKill], and does not return when one does. *)
Lemma MatchOrders_cases st :
  book_wf st ->
  exists trades st1,
    MatchLoop (S (size (bids_ st) + size (asks_ st))) st [] = ret (trades, st1)
    /\ book_wf st1 /\ shrinks st st1 /\ uncrossed st1
    /\ ((MatchOrders st = ret (trades, st1)
         /\ forall s p o q, top s st1 = Some (p, o :: q) -> orderType_ o <> FillAndKill)
        \/ (MatchOrders st = throw Deadlock
            /\ exists s p o q, top s st1 = Some (p, o :: q) /\ orderType_ o = FillAndKill)).
Proof.
  intros Hwf.
  destruct (MatchLoop_spec (S (size (bids_ st) + size (asks_ st))) st [] Hwf)
    as (tr & st1 & Hloop & Hwf1 & Hs1 & Hun1); [lia|].
  exists tr, st1. split; [done|]. split; [done|]. split; [done|]. split; [done|].
  unfold MatchOrders. rewrite Hloop. unfold ret. cbn [mbind M_bind].
  change (bids_begin st1) with (top Buy st1).
  destruct (CancelFillAndKillHead_cases Buy st1 Hwf1) as [[-> Hb]|[-> Hb]].
  - unfold ret. cbn [mbind M_bind]. change (asks_begin st1) with (top Sell st1).
    destruct (CancelFillAndKillHead_cases Sell st1 Hwf1) as [[-> Ha]|[-> Ha]].
    + left. split; [reflexivity|]. intros [|]; [apply Hb | apply Ha].
    + right. split; [reflexivity|]. destruct Ha as (p & o & q & Ha). by exists Sell, p, o, q.
  - right. split; [reflexivity|]. destruct Hb as (p & o & q & Hb). by exists Buy, p, o, q.
Qed.

Lemma MatchOrders_ret st trades st' :
  book_wf st -> FillAndKill_on_top st ->
  MatchOrders st = ret (trades, st') ->
  book_wf st' /\ shrinks st st' /\ uncrossed st' /\ no_FillAndKill st'.
Proof.
  intros Hwf Htop Hm.
  destruct (MatchOrders_cases st Hwf)
    as (tr & st1 & _ & Hwf1 & Hs1 & Hun1 & [[Hm1 Hheads]|[Hm1 _]]);
    rewrite Hm1 in Hm; [|discriminate Hm].
  injection Hm as <- <-. split; [done|]. split; [done|]. split; [done|].
  intros s p q o Hq Ho Hfak.
  destruct (shrinks_on_top _ _ Hs1 Htop s p q o Hq Ho Hfak) as [-> Ht].
  by apply (Hheads s p o [] Ht).
Qed.

Lemma MatchOrders_total st :
  book_wf st -> no_FillAndKill st ->
  exists trades st',
    MatchOrders st = ret (trades, st')
    /\ book_wf st' /\ shrinks st st' /\ uncrossed st' /\ no_FillAndKill st'.
Proof.
  intros Hwf Hno.
  destruct (MatchOrders_cases st Hwf)
    as (tr & st1 & _ & Hwf1 & Hs1 & Hun1 & [[Hm1 _]|[_ (s & p & o & q & Ht & Hfak)]]).
  - exists tr, st1. split; [done|]. split; [done|]. split; [done|]. split; [done|].
    by apply (shrinks_no_FillAndKill st).
  - exfalso. apply top_lookup in Ht.
    by apply (shrinks_no_FillAndKill st st1 Hs1 Hno s p (o :: q) o Ht ltac:(by left)).
Qed.

(** *** The invariant holds on every reachable book *)

Lemma book_inv_empty : book_inv empty_book.
Proof.
  split; [split|split].
  - intros s p q Hq. destruct s; simpl in Hq; rewrite lookup_empty in Hq; discriminate.
  - intros id e He. simpl in He. rewrite lookup_empty in He. discriminate.
  - intros bp bq ap aq Hb. discriminate Hb.
  - intros s p q o Hq. destruct s; simpl in Hq; rewrite lookup_empty in Hq; discriminate.
Qed.

Lemma book_inv_shrinks st st' :
  book_wf st' -> shrinks st st' -> book_inv st -> book_inv st'.
Proof.
  intros Hwf Hs (_ & Hun & Hno). split; [done|]. split.
  - apply apart_uncrossed. apply (shrinks_apart st st' Hs). by apply apart_uncrossed.
  - by apply (shrinks_no_FillAndKill st st').
Qed.

Lemma ConvertMarket_spec o st :
  exists r, ConvertMarket o st = ret r
            /\ forall o', r = Some o' ->
                 orderId_ o' = orderId_ o
                 /\ (orderType_ o' = FillAndKill -> o' = o).
Proof.
  unfold ConvertMarket. destruct (decide (GetOrderType o = Market)) as [Hm|Hm].
  - assert (forall price, ToGoodTillCancel price o =
              ret (mkOrder GoodTillCancel (orderId_ o) (side_ o) price (quantity_ o)
                     (initialQuantity_ o) (remainingQuantity_ o))) as Hgtc.
    { intros price. unfold ToGoodTillCancel. by rewrite decide_False by (by intros ?). }
    destruct (GetSide o); [destruct (asks_rbegin st) as [[w ?]|] | destruct (bids_rbegin st) as [[w ?]|]].
    all: try (rewrite Hgtc; eexists; split; [reflexivity|]; intros o' [= <-]; simpl;
              split; [done | discriminate]).
    all: try (destruct (asks_rbegin st) as [[? ?]|]).
    all: eexists; (split; [reflexivity|]); intros o' Ho'; discriminate Ho'.
  - eexists. split; [reflexivity|]. intros o' [= <-]. done.
Qed.

Lemma CanMatch_Buy st p :
  CanMatch st Buy p = true ->
  exists bestAsk asks, asks_begin st = Some (bestAsk, asks) /\ bestAsk <= p.
Proof.
  unfold CanMatch. destruct (asks_begin st) as [[a q]|]; [|discriminate].
  intros H. exists a, q. split; [done|]. apply Z.geb_le in H. lia.
Qed.

Lemma CanMatch_Sell st p :
  CanMatch st Sell p = true ->
  exists bestBid bids, bids_begin st = Some (bestBid, bids) /\ p <= bestBid.
Proof.
  unfold CanMatch. destruct (bids_begin st) as [[b q]|]; [|discriminate].
  intros H. exists b, q. split; [done|]. by apply Z.leb_le in H.
Qed.

(** A crossing order opens a new level, which is the best of its side. *)
Lemma PlaceOrder_crossing_top o st :
  apart st -> CanMatch st (side_ o) (price_ o) = true ->
  side_map (side_ o) (PlaceOrder o st) !! price_ o = Some [o]
  /\ top (side_ o) (PlaceOrder o st) = Some (price_ o, [o]).
Proof.
  intros Hap Hcan.
  assert (side_map (side_ o) st !! price_ o = None) as Hnone.
  { destruct (side_map (side_ o) st !! price_ o) as [q|] eqn:Eq; [exfalso|done].
    destruct (side_ o); simpl in Eq.
    - apply CanMatch_Buy in Hcan as (a & qa & Ha & Hle).
      apply begin_lookup_min in Ha. specialize (Hap _ _ _ _ Eq Ha). lia.
    - apply CanMatch_Sell in Hcan as (b & qb & Hb & Hle).
      apply begin_lookup_max in Hb. specialize (Hap _ _ _ _ Hb Eq). lia. }
  assert (side_map (side_ o) (PlaceOrder o st) !! price_ o = Some [o]) as Hlk.
  { rewrite lookup_PlaceOrder, decide_True by done. by rewrite Hnone. }
  split; [done|].
  assert (forall k v, side_map (side_ o) (PlaceOrder o st) !! k = Some v ->
            k = price_ o \/ side_map (side_ o) st !! k = Some v) as Hkeys.
  { intros k v. rewrite lookup_PlaceOrder. destruct (decide _) as [[_ ->]|]; auto. }
  destruct (side_ o) eqn:Es; simpl in *.
  - apply CanMatch_Buy in Hcan as (a & qa & Ha & Hle). apply begin_lookup_min in Ha.
    apply max_entry_intro; [done|]. intros k v Hk.
    destruct (Hkeys k v Hk) as [->|Hold]; [lia|].
    specialize (Hap _ _ _ _ Hold Ha). lia.
  - apply CanMatch_Sell in Hcan as (b & qb & Hb & Hle). apply begin_lookup_max in Hb.
    apply min_entry_intro; [done|]. intros k v Hk.
    destruct (Hkeys k v Hk) as [->|Hold]; [lia|].
    specialize (Hap _ _ _ _ Hb Hold). lia.
Qed.

Lemma PlaceOrder_on_top o st :
  apart st -> no_FillAndKill st ->
  (orderType_ o = FillAndKill -> CanMatch st (side_ o) (price_ o) = true) ->
  FillAndKill_on_top (PlaceOrder o st).
Proof.
  intros Hap Hno Hgate s p q x Hq Hx Hfak.
  pose proof Hq as Hq0. rewrite lookup_PlaceOrder in Hq0.
  destruct (decide _) as [[-> ->]|Hne].
  - destruct (PlaceOrder_elem o st _ _ q x Hq Hx) as [->|(q1 & Hq1 & Hx1)].
    + destruct (PlaceOrder_crossing_top o st Hap (Hgate Hfak)) as [Hlk Ht].
      rewrite Hlk in Hq. injection Hq as <-. done.
    + exfalso. by eapply Hno.
  - exfalso. by eapply Hno.
Qed.

(** [AddOrder] turns the order away, or places it, rewritten when it is a
    market order, and runs [MatchOrders]. *)
Lemma AddOrder_placed o st :
  book_inv st ->
  AddOrder o st = ret ([], st)
  \/ exists o',
       orders_ st !! orderId_ o = None
       /\ ConvertMarket o st = ret (Some o')
       /\ AddOrder o st = MatchOrders (PlaceOrder o' st)
       /\ book_wf (PlaceOrder o' st)
       /\ FillAndKill_on_top (PlaceOrder o' st)
       /\ (orderType_ o <> FillAndKill -> no_FillAndKill (PlaceOrder o' st)).
Proof.
  intros Hinv. pose proof Hinv as (Hwf & Hun & Hno). unfold AddOrder.
  destruct (decide (is_Some (orders_ st !! GetOrderId o))) as [|Hfresh]; [by left|].
  destruct (ConvertMarket_spec o st) as (r & Hconv & Hr). rewrite Hconv.
  unfold ret. cbn [mbind M_bind].
  destruct r as [o'|]; [|by left].
  destruct (Hr o' eq_refl) as [Hid Hsame].
  destruct (bool_decide (GetOrderType o' = FillAndKill)
            && negb (CanMatch st (GetSide o') (GetPrice o'))) eqn:Efak; [by left|].
  destruct (bool_decide (GetOrderType o' = FillOrKill)
            && negb (CanFullyFill st (GetSide o') (GetPrice o') (GetInitialQuantity o')));
    [by left|].
  right. exists o'. split; [apply eq_None_not_Some; exact Hfresh|].
  split; [reflexivity|]. split; [reflexivity|]. split; [|split].
  - apply PlaceOrder_wf; [done|]. rewrite Hid. apply eq_None_not_Some. exact Hfresh.
  - apply PlaceOrder_on_top; [by apply apart_uncrossed | done |].
    intros Hfak. apply andb_false_iff in Efak as [Hb|Hc].
    + apply bool_decide_eq_false in Hb. done.
    + by apply negb_false_iff in Hc.
  - intros Htype s p q x Hq Hx.
    destruct (PlaceOrder_elem o' st s p q x Hq Hx) as [->|(q0 & Hq0 & Hx0)];
      [|by eapply Hno].
    intros Hfak. apply Htype. by rewrite <- (Hsame Hfak).
Qed.

(** When [AddOrder] returns, the invariant holds of the book it leaves. *)
Lemma AddOrder_inv o st trades st' :
  book_inv st -> AddOrder o st = ret (trades, st') -> book_inv st'.
Proof.
  intros Hinv Hadd.
  destruct (AddOrder_placed o st Hinv) as [Hrej|(o' & _ & _ & Hm & Hwf1 & Htop1 & _)].
  - rewrite Hrej in Hadd. by injection Hadd as _ <-.
  - rewrite Hm in Hadd.
    destruct (MatchOrders_ret _ _ _ Hwf1 Htop1 Hadd) as (Hwf' & _ & Hun' & Hno').
    split; [done|]. split; done.
Qed.

(** [AddOrder] returns for every order that is not of type [FillAndKill]. *)
Lemma AddOrder_total o st :
  book_inv st -> GetOrderType o <> FillAndKill ->
  exists trades st', AddOrder o st = ret (trades, st') /\ book_inv st'.
Proof.
  intros Hinv Htype.
  destruct (AddOrder_placed o st Hinv) as [Hrej|(o' & _ & _ & Hm & Hwf1 & _ & Hno1)].
  - by exists [], st.
  - destruct (MatchOrders_total _ Hwf1 (Hno1 Htype)) as (tr & st' & Hm' & Hwf' & _ & Hun' & Hno').
    exists tr, st'. rewrite Hm. split; [done|]. split; [done|]. split; done.
Qed.

(** [AddOrder] returns, or it does not return; it raises nothing. *)
Lemma AddOrder_outcome o st :
  book_inv st ->
  (exists trades st', AddOrder o st = ret (trades, st')) \/ AddOrder o st = throw Deadlock.
Proof.
  intros Hinv.
  destruct (AddOrder_placed o st Hinv) as [Hrej|(o' & _ & _ & Hm & Hwf1 & _ & _)].
  - left. by exists [], st.
  - rewrite Hm. destruct (MatchOrders_cases _ Hwf1) as (tr & st1 & _ & _ & _ & _ & [[H _]|[H _]]).
    + left. by exists tr, st1.
    + by right.
Qed.

Lemma CancelOrder_spec id st :
  book_inv st -> exists st', CancelOrder id st = ret st' /\ book_inv st'.
Proof.
  intros Hinv. destruct (CancelOrderInternal_spec st id (proj1 Hinv)) as (st' & Hc & Hwf & Hs & _).
  exists st'. split; [done|]. by eapply book_inv_shrinks.
Qed.

Lemma CancelOrders_inv ids st :
  book_inv st -> exists st', CancelOrders ids st = ret st' /\ book_inv st'.
Proof.
  intros Hinv. destruct (CancelOrders_spec ids st (proj1 Hinv)) as (st' & Hc & Hwf & Hs).
  exists st'. split; [done|]. by eapply book_inv_shrinks.
Qed.

Lemma deref_live st id e :
  book_wf st -> orders_ st !! id = Some e ->
  exists q o, side_map (entry_side_ e) st !! entry_price_ e = Some q
              /\ o ∈ q /\ orderId_ o = id /\ deref st id e = ret o.
Proof.
  intros [_ Hi] He. destruct (Hi id e He) as (q & o & Hq & Hf).
  destruct (find_node_Some _ _ _ Hf) as [Ho Hid].
  exists q, o. unfold deref. rewrite Hq, Hf. done.
Qed.

(** [ModifyOrder] returns: the order it adds has the type of an order that
    rests, which is not [FillAndKill]. *)
Lemma ModifyOrder_inv m st :
  book_inv st ->
  exists trades st', ModifyOrder m st = ret (trades, st') /\ book_inv st'.
Proof.
  intros Hinv. unfold ModifyOrder.
  destruct (orders_ st !! mod_orderId_ m) as [e|] eqn:He; [|by exists [], st].
  destruct (deref_live st _ e (proj1 Hinv) He) as (q & o & Hq & Ho & _ & ->).
  unfold ret. cbn [mbind M_bind].
  destruct (CancelOrder_spec (mod_orderId_ m) st Hinv) as (st1 & -> & Hinv1).
  unfold ret. cbn [mbind M_bind].
  apply AddOrder_total; [done|]. simpl.
  destruct Hinv as (_ & _ & Hno). by eapply Hno.
Qed.

Lemma exec_inv c st trades st' :
  book_inv st -> exec c st = ret (trades, st') -> book_inv st'.
Proof.
  intros Hinv. destruct c as [o|id|m|ids]; simpl.
  - by apply AddOrder_inv.
  - destruct (CancelOrder_spec id st Hinv) as (st1 & -> & Hinv1). by intros [= _ <-].
  - destruct (ModifyOrder_inv m st Hinv) as (tr & st1 & -> & Hinv1). by intros [= _ <-].
  - destruct (CancelOrders_inv ids st Hinv) as (st1 & -> & Hinv1). by intros [= _ <-].
Qed.

(** A public operation returns, or it does not return; it raises nothing.
    Only [AddOrder] of an order of type [FillAndKill] can fail to return. *)
Lemma exec_outcome c st :
  book_inv st ->
  (exists trades st', exec c st = ret (trades, st'))
  \/ (exec c st = throw Deadlock
      /\ exists o, c = DoAddOrder o /\ GetOrderType o = FillAndKill).
Proof.
  intros Hinv. destruct c as [o|id|m|ids]; simpl.
  - destruct (decide (GetOrderType o = FillAndKill)) as [Hfak|Hfak].
    + destruct (AddOrder_outcome o st Hinv) as [H|H]; [by left|]. right. split; [done|].
      by exists o.
    + destruct (AddOrder_total o st Hinv Hfak) as (tr & st' & H & _). left. by exists tr, st'.
  - destruct (CancelOrder_spec id st Hinv) as (st' & -> & _). left. by exists [], st'.
  - destruct (ModifyOrder_inv m st Hinv) as (tr & st' & H & _). left. by exists tr, st'.
  - destruct (CancelOrders_inv ids st Hinv) as (st' & -> & _). left. by exists [], st'.
Qed.

Lemma reachable_inv st : reachable st -> book_inv st.
Proof.
  induction 1 as [|c st trades st' _ IH Hexec]; [apply book_inv_empty|].
  by eapply exec_inv.
Qed.

(** ** The best bid stays below the best ask *)

Lemma two_sided_book_reachable : reachable two_sided_book.
Proof.
  eapply (reachable_exec (DoAddOrder (NewOrder GoodTillCancel 2 Sell 101 7))).
  - eapply (reachable_exec (DoAddOrder (NewOrder GoodTillCancel 1 Buy 99 5))).
    + exact reachable_empty.
    + vm_compute. reflexivity.
  - vm_compute. reflexivity.
Defined.

(** C4.  When a public operation on a book reached from the empty book
    returns, the best bid price of the book it leaves is strictly below the
    best ask price whenever both sides are non-empty; what is more, every
    bid price is below every ask price.  The operation returns, or it does
    not return, which only [AddOrder] of an order of type [FillAndKill]
    can do; no operation raises an exception. *)
Theorem best_bid_below_best_ask (st : Orderbook) (c : Command) :
  reachable st ->
  (forall trades st',
      exec c st = ret (trades, st') ->
      (forall bidPrice bids askPrice asks,
          bids_begin st' = Some (bidPrice, bids) ->
          asks_begin st' = Some (askPrice, asks) ->
          bidPrice < askPrice)
      /\ (forall bidPrice bids askPrice asks,
            bids_ st' !! bidPrice = Some bids ->
            asks_ st' !! askPrice = Some asks ->
            bidPrice < askPrice))
  /\ ((exists trades st', exec c st = ret (trades, st'))
      \/ (exec c st = throw Deadlock
          /\ exists o, c = DoAddOrder o /\ GetOrderType o = FillAndKill)).
Proof.
  intros Hreach. apply reachable_inv in Hreach. split.
  - intros trades st' Hexec.
    destruct (exec_inv c st trades st' Hreach Hexec) as (_ & Hun & _).
    split; [exact Hun|]. by apply apart_uncrossed.
  - by apply exec_outcome.
Qed.

Lemma best_bid_below_best_ask_witness :
  (forall trades st',
      exec (DoAddOrder (NewOrder GoodTillCancel 3 Buy 101 4)) two_sided_book
      = ret (trades, st') ->
      (forall bidPrice bids askPrice asks,
          bids_begin st' = Some (bidPrice, bids) ->
          asks_begin st' = Some (askPrice, asks) ->
          bidPrice < askPrice)
      /\ (forall bidPrice bids askPrice asks,
            bids_ st' !! bidPrice = Some bids ->
            asks_ st' !! askPrice = Some asks ->
            bidPrice < askPrice))
  /\ ((exists trades st',
         exec (DoAddOrder (NewOrder GoodTillCancel 3 Buy 101 4)) two_sided_book
         = ret (trades, st'))
      \/ (exec (DoAddOrder (NewOrder GoodTillCancel 3 Buy 101 4)) two_sided_book
          = throw Deadlock
          /\ exists o, DoAddOrder (NewOrder GoodTillCancel 3 Buy 101 4) = DoAddOrder o
                       /\ GetOrderType o = FillAndKill)).
Proof.
  exact (best_bid_below_best_ask two_sided_book
           (DoAddOrder (NewOrder GoodTillCancel 3 Buy 101 4)) two_sided_book_reachable).
Defined.

(** ** Orders of type [FillAndKill] *)

(** C6.  What the code does with an order of type [FillAndKill].  One that
    does not cross is turned away with no trades and the book as it was.
    When [AddOrder] returns on a book reached from the empty book, no order
    of type [FillAndKill] rests on either side.  But [AddOrder] does not
    return when something is left of a crossing order of that type: on the
    book with a bid for 5 at 99 and an ask for 7 at 101, the bid of type
    [FillAndKill] for 9 at 101 trades 7, rests with 2 as the head of the
    best bid level, and the call of [CancelOrder] that is to remove it asks
    for the mutex that [AddOrder] holds.  [CancelOrderInternal], which is
    what [CancelOrders] calls under its lock, removes the order and leaves
    no order of that type. *)
Theorem FillAndKill_residual_is_never_cancelled :
  (forall st o,
      GetOrderType o = FillAndKill ->
      CanMatch st (GetSide o) (GetPrice o) = false ->
      AddOrder o st = ret ([], st))
  /\ (forall st o trades st',
        reachable st ->
        AddOrder o st = ret (trades, st') ->
        forall s p q o', side_map s st' !! p = Some q -> o' ∈ q ->
                         orderType_ o' <> FillAndKill)
  /\ AddOrder (NewOrder FillAndKill 3 Buy 101 9) two_sided_book = throw Deadlock
  /\ (exists st1 st2,
        MatchLoop
          (S (size (bids_ (PlaceOrder (NewOrder FillAndKill 3 Buy 101 9) two_sided_book))
              + size (asks_ (PlaceOrder (NewOrder FillAndKill 3 Buy 101 9) two_sided_book))))
          (PlaceOrder (NewOrder FillAndKill 3 Buy 101 9) two_sided_book) []
        = ret ([mkTrade (mkTradeInfo 3 101 7) (mkTradeInfo 2 101 7)], st1)
        /\ bids_begin st1 = Some (101, [mkOrder FillAndKill 3 Buy 101 9 9 2])
        /\ CancelFillAndKillHead (bids_begin st1) st1 = throw Deadlock
        /\ CancelOrderInternal 3 st1 = ret st2
        /\ no_FillAndKill st2).
Proof.
  split; [|split; [|split]].
  - intros st o Hfak Hcan. unfold AddOrder.
    destruct (decide (is_Some (orders_ st !! GetOrderId o))); [reflexivity|].
    unfold ConvertMarket. rewrite decide_False by (rewrite Hfak; discriminate).
    simpl. rewrite Hcan. rewrite bool_decide_eq_true_2 by done. reflexivity.
  - intros st o trades st' Hreach Hadd. apply reachable_inv in Hreach.
    by destruct (AddOrder_inv o st trades st' Hreach Hadd) as (_ & _ & Hno).
  - vm_compute. reflexivity.
  - eexists _, _. split; [vm_compute; reflexivity|]. split; [vm_compute; reflexivity|].
    split; [vm_compute; reflexivity|]. split; [vm_compute; reflexivity|].
    intros s p q o Hq Ho. apply elem_of_map_to_list in Hq.
    destruct s; vm_compute in Hq; inversion Hq as [|? ? ? Hq']; subst;
      try (by inversion Hq').
    apply list_elem_of_singleton in Ho. by subst.
Qed.

Lemma FillAndKill_residual_is_never_cancelled_witness :
  AddOrder (NewOrder FillAndKill 3 Buy 100 4) two_sided_book = ret ([], two_sided_book)
  /\ exists st',
       AddOrder (NewOrder FillAndKill 3 Buy 101 7) two_sided_book
       = ret ([mkTrade (mkTradeInfo 3 101 7) (mkTradeInfo 2 101 7)], st')
       /\ forall s p q o', side_map s st' !! p = Some q -> o' ∈ q ->
                           orderType_ o' <> FillAndKill.
Proof.
  split.
  - apply (proj1 FillAndKill_residual_is_never_cancelled two_sided_book
             (NewOrder FillAndKill 3 Buy 100 4)).
    + reflexivity.
    + vm_compute. reflexivity.
  - eexists. split; [vm_compute; reflexivity|].
    apply (proj1 (proj2 FillAndKill_residual_is_never_cancelled) two_sided_book
             (NewOrder FillAndKill 3 Buy 101 7)
             [mkTrade (mkTradeInfo 3 101 7) (mkTradeInfo 2 101 7)] _
             two_sided_book_reachable).
    vm_compute. reflexivity.
Defined.

(** ** Modifying an order *)

(** C7.  For an id that is live in a book reached from the empty book, the
    order with that id rests in the queue its index entry names, and
    [ModifyOrder] is the cancel of the id followed by the add of a fresh
    order with the same id, the type of that resting order and the new side,
    price and quantity.  For an id that is not live, [ModifyOrder] returns no
    trades and the book as it was. *)
Theorem ModifyOrder_is_cancel_then_add :
  (forall st id side price quantity e,
      reachable st ->
      orders_ st !! id = Some e ->
      exists q existing,
        side_map (entry_side_ e) st !! entry_price_ e = Some q
        /\ existing ∈ q
        /\ GetOrderId existing = id
        /\ ModifyOrder (NewOrderModify id side price quantity) st =
           CancelThenAdd id side price quantity (GetOrderType existing) st)
  /\ (forall st id side price quantity,
        orders_ st !! id = None ->
        ModifyOrder (NewOrderModify id side price quantity) st = ret ([], st)).
Proof.
  split.
  - intros st id side price quantity e Hreach He.
    apply reachable_inv in Hreach. destruct Hreach as [Hwf _].
    destruct (deref_live st id e Hwf He) as (q & existing & Hq & Hin & Hid & Hderef).
    exists q, existing. split; [done|]. split; [done|]. split; [done|].
    unfold ModifyOrder, CancelThenAdd. simpl. rewrite He, Hderef. reflexivity.
  - intros st id side price quantity He. unfold ModifyOrder. simpl. by rewrite He.
Qed.

Lemma ModifyOrder_is_cancel_then_add_witness :
  (exists q existing,
      side_map Buy two_sided_book !! 99 = Some q
      /\ existing ∈ q
      /\ GetOrderId existing = 1
      /\ ModifyOrder (NewOrderModify 1 Sell 102 3) two_sided_book =
         CancelThenAdd 1 Sell 102 3 (GetOrderType existing) two_sided_book)
  /\ ModifyOrder (NewOrderModify 8 Sell 102 3) two_sided_book = ret ([], two_sided_book).
Proof.
  split.
  - exact (proj1 ModifyOrder_is_cancel_then_add two_sided_book 1 Sell 102 3
             (mkOrderEntry Buy 99) two_sided_book_reachable eq_refl).
  - exact (proj2 ModifyOrder_is_cancel_then_add two_sided_book 8 Sell 102 3 eq_refl).
Defined.

(** ** Market orders *)

(** C3.  With a non-empty opposite side, adding a market order is adding the
    same order rewritten as [GoodTillCancel] at the worst opposite price: the
    rewritten order is the one that is placed, and matching runs after that.
    With an empty opposite side the market order yields no trades and the
    book stays as it was. *)
Theorem Market_order_priced_at_worst_opposite :
  (forall st o,
      GetOrderType o = Market ->
      side_map (opposite (GetSide o)) st <> ∅ ->
      exists worst,
        worst_opposite_price (GetSide o) st worst
        /\ ConvertMarket o st = ret (Some (as_GoodTillCancel worst o))
        /\ AddOrder o st = AddOrder (as_GoodTillCancel worst o) st
        /\ (orders_ st !! GetOrderId o = None ->
            AddOrder o st = MatchOrders (PlaceOrder (as_GoodTillCancel worst o) st)))
  /\ (forall st o,
        GetOrderType o = Market ->
        side_map (opposite (GetSide o)) st = ∅ ->
        AddOrder o st = ret ([], st)).
Proof.
  split.
  - intros st o Hm Hne.
    assert (forall price, ToGoodTillCancel price o = ret (as_GoodTillCancel price o)) as Hgtc.
    { intros price. unfold ToGoodTillCancel. by rewrite decide_False by (by intros ?). }
    assert (exists worst q,
               match GetSide o with Buy => asks_rbegin st | Sell => bids_rbegin st end
               = Some (worst, q)
               /\ worst_opposite_price (GetSide o) st worst) as (worst & q & Hw & Hworst).
    { destruct (GetSide o); simpl in *.
      - destruct (asks_rbegin st) as [[w q]|] eqn:E.
        + exists w, q. split; [done|]. apply max_entry_Some in E as [H1 H2].
          split; [by eexists | exact H2].
        + apply max_entry_None in E. contradiction.
      - destruct (bids_rbegin st) as [[w q]|] eqn:E.
        + exists w, q. split; [done|]. apply min_entry_Some in E as [H1 H2].
          split; [by eexists | exact H2].
        + apply min_entry_None in E. contradiction. }
    assert (ConvertMarket o st = ret (Some (as_GoodTillCancel worst o))) as Hconv.
    { unfold ConvertMarket. rewrite decide_True by done.
      destruct (GetSide o); rewrite Hw.
      - rewrite Hgtc. reflexivity.
      - destruct (asks_rbegin st) as [[? ?]|]; rewrite Hgtc; reflexivity. }
    assert (ConvertMarket (as_GoodTillCancel worst o) st
            = ret (Some (as_GoodTillCancel worst o))) as Hconv'.
    { unfold ConvertMarket. by rewrite decide_False by discriminate. }
    exists worst. split; [done|]. split; [done|]. split.
    + unfold AddOrder. rewrite Hconv, Hconv'. reflexivity.
    + intros Hfresh. unfold AddOrder.
      rewrite decide_False by (rewrite Hfresh; by intros [? ?]).
      rewrite Hconv. simpl. reflexivity.
  - intros st o Hm Hempty. unfold AddOrder.
    destruct (decide (is_Some (orders_ st !! GetOrderId o))); [reflexivity|].
    unfold ConvertMarket. rewrite decide_True by done.
    destruct (GetSide o); simpl in Hempty.
    + unfold asks_rbegin. rewrite Hempty. reflexivity.
    + unfold bids_rbegin. rewrite Hempty.
      destruct (asks_rbegin st) as [[? ?]|]; reflexivity.
Qed.

Lemma Market_order_priced_at_worst_opposite_witness :
  (exists worst,
      worst_opposite_price Buy two_sided_book worst
      /\ ConvertMarket (NewMarketOrder 3 Buy 4) two_sided_book
         = ret (Some (as_GoodTillCancel worst (NewMarketOrder 3 Buy 4)))
      /\ AddOrder (NewMarketOrder 3 Buy 4) two_sided_book
         = AddOrder (as_GoodTillCancel worst (NewMarketOrder 3 Buy 4)) two_sided_book
      /\ (orders_ two_sided_book !! 3 = None ->
          AddOrder (NewMarketOrder 3 Buy 4) two_sided_book
          = MatchOrders (PlaceOrder (as_GoodTillCancel worst (NewMarketOrder 3 Buy 4))
                           two_sided_book)))
  /\ AddOrder (NewMarketOrder 3 Sell 4) empty_book = ret ([], empty_book).
Proof.
  split.
  - apply (proj1 Market_order_priced_at_worst_opposite two_sided_book (NewMarketOrder 3 Buy 4)).
    + reflexivity.
    + vm_compute. discriminate.
  - apply (proj2 Market_order_priced_at_worst_opposite empty_book (NewMarketOrder 3 Sell 4)).
    + reflexivity.
    + reflexivity.
Defined.

(** ** The trades of the matching loop *)

(** One round of the inner loop, written out. *)
Lemma MatchLevel_round fuel bid bids ask asks orders data trades :
  let quantity := Z.min (GetRemainingQuantity bid) (GetRemainingQuantity ask) in
  let bid' := filled_by quantity bid in
  let ask' := filled_by quantity ask in
  MatchLevel (S fuel) (mkLevelState (bid :: bids) (ask :: asks) orders data trades) =
  MatchLevel fuel
    (mkLevelState
       (if IsFilled bid' then bids else bid' :: bids)
       (if IsFilled ask' then asks else ask' :: asks)
       (let orders := if IsFilled bid' then delete (orderId_ bid) orders else orders in
        if IsFilled ask' then delete (orderId_ ask) orders else orders)
       (OnOrderMatched (price_ ask) quantity (IsFilled ask')
          (OnOrderMatched (price_ bid) quantity (IsFilled bid') data))
       (trades ++ [mkTrade (mkTradeInfo (orderId_ bid) (price_ bid) quantity)
                           (mkTradeInfo (orderId_ ask) (price_ ask) quantity)])).
Proof.
  intros quantity bid' ask'.
  cbn [MatchLevel ls_bids ls_asks ls_orders ls_data ls_trades].
  rewrite Fill_min_l, Fill_min_r. unfold ret at 1 2. cbn [mbind M_bind].
  fold quantity. fold bid' ask'.
  destruct (IsFilled bid'), (IsFilled ask'); reflexivity.
Qed.

Lemma leg_of_subqueue q' q leg : subqueue q' q -> leg_of q' leg -> leg_of q leg.
Proof.
  intros Hsub (o' & Ho' & Hid & Hp).
  destruct (subqueue_elem _ _ _ Hsub Ho') as (o & Ho & Hst).
  injection Hst as _ Hid' _ Hp'. exists o. unfold GetOrderId, GetPrice in *.
  split; [done|]. split; congruence.
Qed.

Lemma leg_of_head q o o' leg :
  orderId_ o' = orderId_ o -> price_ o' = price_ o ->
  leg_of (if IsFilled o' then q else o' :: q) leg -> leg_of (o :: q) leg.
Proof.
  intros Hid Hp (x & Hx & Hxid & Hxp). unfold GetOrderId, GetPrice in *.
  destruct (IsFilled o').
  - exists x. split; [by right | done].
  - apply elem_of_cons in Hx as [->|Hx].
    + exists o. unfold GetOrderId, GetPrice. split; [by left|]. split; congruence.
    + exists x. split; [by right | done].
Qed.

Lemma MatchLevel_trades fuel s s' :
  MatchLevel fuel s = ret s' ->
  exists new, ls_trades s' = ls_trades s ++ new
              /\ Forall (trade_between (ls_bids s) (ls_asks s)) new.
Proof.
  revert s. induction fuel as [|fuel IH]; intros [bids asks orders data trades] Hrun.
  all: destruct bids as [|bid bids];
    [injection Hrun as <-; exists []; split; [by rewrite app_nil_r | constructor]|].
  all: destruct asks as [|ask asks];
    [injection Hrun as <-; exists []; split; [by rewrite app_nil_r | constructor]|].
  - discriminate Hrun.
  - rewrite MatchLevel_round in Hrun. apply IH in Hrun as (new & Htr & Hall).
    cbn [ls_trades ls_bids ls_asks] in *.
    eexists (_ :: new). split; [rewrite Htr, <- app_assoc; reflexivity|].
    constructor.
    + split; [reflexivity|]. split.
      * exists bid. split; [by left | done].
      * exists ask. split; [by left | done].
    + eapply Forall_impl; [exact Hall|]. intros t (Hq & Hb & Ha).
      split; [done|]. split; eapply leg_of_head; try eassumption; reflexivity.
Qed.

Lemma MatchLoop_trades fuel st0 st trades trades' st' :
  book_wf st -> shrinks st0 st ->
  MatchLoop fuel st trades = ret (trades', st') ->
  exists new, trades' = trades ++ new /\ Forall (trade_of_book st0) new.
Proof.
  revert st trades. induction fuel as [|fuel IH]; intros st trades Hwf Hs Hrun.
  all: simpl in Hrun.
  all: destruct (bids_begin st) as [[bp bq]|] eqn:Eb;
    [|injection Hrun as <- <-; exists []; split; [by rewrite app_nil_r | constructor]].
  all: destruct (asks_begin st) as [[ap aq]|] eqn:Ea;
    [|injection Hrun as <- <-; exists []; split; [by rewrite app_nil_r | constructor]].
  all: destruct (bp <? ap);
    [injection Hrun as <- <-; exists []; split; [by rewrite app_nil_r | constructor]|].
  - discriminate Hrun.
  - pose proof (begin_lookup_max _ _ _ Eb) as Hbq.
    pose proof (begin_lookup_min _ _ _ Ea) as Haq.
    destruct (MatchLevel_spec (length bq + length aq)
                (mkLevelState bq aq (orders_ st) (data_ st) trades))
      as (s' & Hlevel & _ & Hpops); [simpl; lia|].
    rewrite Hlevel in Hrun. simpl in Hrun.
    destruct (round_spec st bp bq ap aq trades s' Hwf Hbq Haq Hpops) as [Hwf1 Hs1].
    destruct (IH _ _ Hwf1 (shrinks_trans _ _ _ Hs Hs1) Hrun) as (new & -> & Hall).
    destruct (MatchLevel_trades _ _ _ Hlevel) as (new1 & -> & Hall1).
    cbn [ls_trades ls_bids ls_asks] in *.
    exists (new1 ++ new). split; [by rewrite app_assoc|].
    apply Forall_app. split; [|done].
    destruct (Hs Buy bp bq Hbq) as (bq0 & Hbq0 & Hsubb).
    destruct (Hs Sell ap aq Haq) as (aq0 & Haq0 & Hsuba).
    eapply Forall_impl; [exact Hall1|]. intros t (Hq & Hb & Ha).
    exists bp, bq0, ap, aq0. split; [done|]. split; [done|].
    split; [done|]. split; by eapply leg_of_subqueue.
Qed.

Lemma MatchOrders_trades st trades st' :
  book_wf st -> MatchOrders st = ret (trades, st') ->
  Forall (trade_of_book st) trades.
Proof.
  intros Hwf Hrun. unfold MatchOrders in Hrun.
  destruct (MatchLoop (S (size (bids_ st) + size (asks_ st))) st []) as [e|[tr st1]] eqn:El;
    [discriminate Hrun|].
  destruct (MatchLoop_trades _ st st [] tr st1 Hwf (shrinks_refl st) El) as (new & -> & Hall).
  cbn [mbind M_bind] in Hrun.
  destruct (CancelFillAndKillHead (bids_begin st1) st1) as [e|st2]; [discriminate Hrun|].
  cbn [mbind M_bind] in Hrun.
  destruct (CancelFillAndKillHead (asks_begin st2) st2) as [e|st3]; [discriminate Hrun|].
  cbn [mbind M_bind] in Hrun. injection Hrun as <- _. exact Hall.
Qed.

(** C5.  A round of the inner loop with head orders [bid] and [ask] appends
    exactly one trade; its quantity is the minimum of the two remaining
    quantities, and each leg carries the id and the price of its own order.
    Over a whole run of [MatchOrders] on a well-formed book, both legs of
    every trade have the same quantity, and each names an order resting on
    its side of the book together with the price of that order.  The two
    prices of a trade can differ: a bid at 101 against an ask at 100 trades
    at 101 on the bid leg and at 100 on the ask leg. *)
Theorem trade_legs_carry_own_price_and_min_quantity :
  (forall fuel s bid bids ask asks,
      ls_bids s = bid :: bids ->
      ls_asks s = ask :: asks ->
      exists s1 t,
        MatchLevel (S fuel) s = MatchLevel fuel s1
        /\ ls_trades s1 = ls_trades s ++ [t]
        /\ bidTrade_ t = mkTradeInfo (GetOrderId bid) (GetPrice bid)
                           (Z.min (GetRemainingQuantity bid) (GetRemainingQuantity ask))
        /\ askTrade_ t = mkTradeInfo (GetOrderId ask) (GetPrice ask)
                           (Z.min (GetRemainingQuantity bid) (GetRemainingQuantity ask)))
  /\ (forall st trades st',
        book_wf st ->
        MatchOrders st = ret (trades, st') ->
        forall t, t ∈ trades ->
          ti_quantity_ (bidTrade_ t) = ti_quantity_ (askTrade_ t)
          /\ (exists p q o, bids_ st !! p = Some q /\ o ∈ q
                            /\ GetOrderId o = ti_orderId_ (bidTrade_ t)
                            /\ GetPrice o = ti_price_ (bidTrade_ t))
          /\ (exists p q o, asks_ st !! p = Some q /\ o ∈ q
                            /\ GetOrderId o = ti_orderId_ (askTrade_ t)
                            /\ GetPrice o = ti_price_ (askTrade_ t)))
  /\ (exists st',
        AddOrder (NewOrder GoodTillCancel 2 Buy 101 3) ask_at_100
        = ret ([mkTrade (mkTradeInfo 2 101 3) (mkTradeInfo 1 100 3)], st')).
Proof.
  split; [|split].
  - intros fuel [bids0 asks0 orders data trades] bid bids ask asks Hb Ha.
    simpl in Hb, Ha. subst bids0 asks0.
    eexists _, _. split; [apply MatchLevel_round|].
    cbn [ls_trades bidTrade_ askTrade_]. split; [reflexivity|]. split; reflexivity.
  - intros st trades st' Hwf Hrun t Ht.
    pose proof (MatchOrders_trades st trades st' Hwf Hrun) as Hall.
    rewrite Forall_forall in Hall.
    destruct (Hall t Ht) as (bp & bq & ap & aq & Hbq & Haq & Hq & (b & Hb & Hbid & Hbp)
                             & (a & Hain & Haid & Hap)).
    split; [done|]. split; [by exists bp, bq, b | by exists ap, aq, a].
  - eexists. vm_compute. reflexivity.
Qed.

Lemma trade_legs_carry_own_price_and_min_quantity_witness :
  (exists s1 t,
      MatchLevel 1 (mkLevelState [NewOrder GoodTillCancel 2 Buy 101 5]
                      [NewOrder GoodTillCancel 1 Sell 100 3] ∅ ∅ [])
      = MatchLevel 0 s1
      /\ ls_trades s1 = [] ++ [t]
      /\ bidTrade_ t = mkTradeInfo 2 101 (Z.min 5 3)
      /\ askTrade_ t = mkTradeInfo 1 100 (Z.min 5 3))
  /\ forall trades st',
       MatchOrders (PlaceOrder (NewOrder GoodTillCancel 3 Buy 101 4) two_sided_book)
       = ret (trades, st') ->
       forall t, t ∈ trades ->
         ti_quantity_ (bidTrade_ t) = ti_quantity_ (askTrade_ t)
         /\ (exists p q o,
                bids_ (PlaceOrder (NewOrder GoodTillCancel 3 Buy 101 4) two_sided_book) !! p
                = Some q /\ o ∈ q
                /\ GetOrderId o = ti_orderId_ (bidTrade_ t)
                /\ GetPrice o = ti_price_ (bidTrade_ t))
         /\ (exists p q o,
                asks_ (PlaceOrder (NewOrder GoodTillCancel 3 Buy 101 4) two_sided_book) !! p
                = Some q /\ o ∈ q
                /\ GetOrderId o = ti_orderId_ (askTrade_ t)
                /\ GetPrice o = ti_price_ (askTrade_ t)).
Proof.
  split.
  - exact (proj1 trade_legs_carry_own_price_and_min_quantity 0%nat
             (mkLevelState [NewOrder GoodTillCancel 2 Buy 101 5]
                [NewOrder GoodTillCancel 1 Sell 100 3] ∅ ∅ [])
             _ _ _ _ eq_refl eq_refl).
  - intros trades st'.
    apply (proj1 (proj2 trade_legs_carry_own_price_and_min_quantity)).
    apply PlaceOrder_wf.
    + exact (proj1 (reachable_inv _ two_sided_book_reachable)).
    + reflexivity.
Defined.

(** ** Orders of quantity zero *)

Lemma PlaceOrder_apart o st :
  apart st -> CanMatch st (side_ o) (price_ o) = false -> apart (PlaceOrder o st).
Proof.
  intros Hap Hcan pb qb pa qa Hb Ha.
  change (side_map Buy (PlaceOrder o st) !! pb = Some qb) in Hb.
  change (side_map Sell (PlaceOrder o st) !! pa = Some qa) in Ha.
  rewrite lookup_PlaceOrder in Hb, Ha. unfold CanMatch in Hcan.
  destruct (side_ o) eqn:Es.
  - rewrite decide_False in Ha by (by intros [? _]). simpl in Ha.
    destruct (decide _) as [[_ ->]|_]; [|by eapply Hap].
    destruct (asks_begin st) as [[a qa0]|] eqn:Ea.
    + apply min_entry_Some in Ea as [_ Hmin]. specialize (Hmin _ _ Ha).
      destruct (Z.geb_spec (price_ o) a); [discriminate | lia].
    + apply min_entry_None in Ea. rewrite Ea, lookup_empty in Ha. discriminate.
  - rewrite decide_False in Hb by (by intros [? _]). simpl in Hb.
    destruct (decide _) as [[_ ->]|_]; [|by eapply Hap].
    destruct (bids_begin st) as [[b qb0]|] eqn:Eb.
    + apply max_entry_Some in Eb as [_ Hmax]. specialize (Hmax _ _ Hb).
      apply Z.leb_gt in Hcan. lia.
    + apply max_entry_None in Eb. rewrite Eb, lookup_empty in Hb. discriminate.
Qed.

(** On a book that does not cross and holds no [FillAndKill] order,
    [MatchOrders] does nothing. *)
Lemma MatchOrders_idle st :
  book_wf st -> uncrossed st -> no_FillAndKill st -> MatchOrders st = ret ([], st).
Proof.
  intros Hwf Hun Hno.
  assert (MatchLoop (S (size (bids_ st) + size (asks_ st))) st [] = ret ([], st)) as Hloop.
  { simpl. destruct (bids_begin st) as [[bp bq]|] eqn:Eb; [|reflexivity].
    destruct (asks_begin st) as [[ap aq]|] eqn:Ea; [|reflexivity].
    specialize (Hun _ _ _ _ Eb Ea). apply Z.ltb_lt in Hun. by rewrite Hun. }
  assert (forall s, CancelFillAndKillHead (top s st) st = ret st) as Htail.
  { intros s. destruct (top s st) as [[p q]|] eqn:Et; [|reflexivity].
    apply top_lookup in Et. pose proof Hwf as [Hl _].
    destruct (Hl s p q Et) as (Hnil & _ & _). destruct q as [|o q]; [done|]. simpl.
    rewrite decide_False; [reflexivity|]. eapply Hno; [exact Et | by left]. }
  unfold MatchOrders. rewrite Hloop. unfold ret. cbn [mbind M_bind].
  change (bids_begin st) with (top Buy st). rewrite (Htail Buy).
  unfold ret. cbn [mbind M_bind].
  change (asks_begin st) with (top Sell st). rewrite (Htail Sell). reflexivity.
Qed.

(** ** The fill-or-kill predicate *)

Lemma reachable_sum_nonneg side limit best levels :
  Forall (fun '(_, d) => 0 <= LevelData.quantity_ d) levels ->
  0 <= reachable_sum side limit best levels.
Proof.
  induction 1 as [|[p d] rest Hd _ IH]; simpl; [lia|].
  destruct (reachable_level side limit best p); lia.
Qed.

Lemma reachable_sum_none side limit best levels :
  has_reachable side limit best levels = false ->
  reachable_sum side limit best levels = 0.
Proof.
  induction levels as [|[p d] rest IH]; simpl; [done|].
  intros [H1 H2]%orb_false_iff. rewrite H1, IH by done. lia.
Qed.

Lemma walk_skips side limit best p :
  ((true && (is_buy side && (best >? p))) || (is_sell side && (best <? p)))
  || ((is_buy side && (p >? limit)) || (is_sell side && (p <? limit)))
  = negb (reachable_level side limit best p).
Proof.
  unfold reachable_level. destruct side; simpl.
  - rewrite !orb_false_r.
    destruct (Z.gtb_spec best p), (Z.gtb_spec p limit), (Z.leb_spec best p),
      (Z.leb_spec p limit); simpl; try reflexivity; lia.
  - destruct (Z.ltb_spec best p), (Z.ltb_spec p limit), (Z.leb_spec limit p),
      (Z.leb_spec p best); simpl; try reflexivity; lia.
Qed.

Lemma CanFullyFill_walk_spec side limit best levels quantity :
  Forall (fun '(_, d) => 0 <= LevelData.quantity_ d) levels ->
  valid_quantity quantity ->
  CanFullyFill_walk side limit best quantity levels =
  has_reachable side limit best levels
  && (quantity <=? reachable_sum side limit best levels).
Proof.
  intros Hall. revert quantity.
  induction Hall as [|[p d] rest Hd Hrest IH]; intros quantity Hq; [reflexivity|].
  cbn [CanFullyFill_walk has_reachable existsb reachable_sum].
  pose proof (walk_skips side limit best p) as Hskip.
  pose proof (reachable_sum_nonneg side limit best rest Hrest) as Hnn.
  set (c1 := (true && (is_buy side && (best >? p))) || (is_sell side && (best <? p))) in *.
  set (c2 := (is_buy side && (p >? limit)) || (is_sell side && (p <? limit))) in *.
  assert (CanFullyFill_walk side limit best quantity rest
          = has_reachable side limit best rest
            && (quantity <=? reachable_sum side limit best rest)) as IH' by (by apply IH).
  destruct (reachable_level side limit best p) eqn:Er; cbn [negb orb] in Hskip |- *.
  - apply orb_false_iff in Hskip as [-> ->].
    destruct (Z.leb_spec quantity (LevelData.quantity_ d)) as [Hle|Hgt].
    + symmetry. apply Z.leb_le. lia.
    + rewrite IH.
      2: { unfold valid_quantity, wrap32, UINT32_MOD in *.
           rewrite Z.mod_small; lia. }
      unfold wrap32, UINT32_MOD. unfold valid_quantity, UINT32_MOD in Hq.
      rewrite Z.mod_small by lia.
      destruct (has_reachable side limit best rest) eqn:Eh; cbn [andb].
      * destruct (Z.leb_spec (quantity - LevelData.quantity_ d)
                    (reachable_sum side limit best rest)),
          (Z.leb_spec quantity
             (LevelData.quantity_ d + reachable_sum side limit best rest));
          try reflexivity; lia.
      * rewrite (reachable_sum_none _ _ _ _ Eh). symmetry. apply Z.leb_gt. lia.
  - destruct c1; [exact IH'|]. simpl in Hskip. rewrite Hskip. exact IH'.
Qed.

(** The walk does not depend on the order in which the unordered map is
    iterated. *)
Lemma reachable_sum_perm side limit best l1 l2 :
  l1 ≡ₚ l2 -> reachable_sum side limit best l1 = reachable_sum side limit best l2.
Proof.
  induction 1 as [|[p d] l1 l2 _ IH|[p1 d1] [p2 d2] l|l1 l2 l3 _ IH1 _ IH2]; simpl; lia.
Qed.

Lemma has_reachable_perm side limit best l1 l2 :
  l1 ≡ₚ l2 -> has_reachable side limit best l1 = has_reachable side limit best l2.
Proof.
  unfold has_reachable.
  induction 1 as [|[p d] l1 l2 _ IH|[p1 d1] [p2 d2] l|l1 l2 l3 _ IH1 _ IH2]; simpl.
  - reflexivity.
  - by rewrite IH.
  - by rewrite !orb_assoc, (orb_comm (reachable_level side limit best p2)).
  - congruence.
Qed.

Lemma CanFullyFill_walk_any_order side limit best quantity l1 l2 :
  l1 ≡ₚ l2 ->
  Forall (fun '(_, d) => 0 <= LevelData.quantity_ d) l1 ->
  valid_quantity quantity ->
  CanFullyFill_walk side limit best quantity l1 = CanFullyFill_walk side limit best quantity l2.
Proof.
  intros Hp Hall Hq.
  assert (Forall (fun '(_, d) => 0 <= LevelData.quantity_ d) l2) as Hall2
    by (by rewrite <- Hp).
  rewrite !CanFullyFill_walk_spec by done.
  by rewrite (reachable_sum_perm _ _ _ _ _ Hp), (has_reachable_perm _ _ _ _ _ Hp).
Qed.

Lemma data_valid_levels data :
  data_valid data ->
  Forall (fun '(_, d) => 0 <= LevelData.quantity_ d) (map_to_list data).
Proof.
  intros Hv. apply Forall_forall. intros [p d] Hin%elem_of_map_to_list.
  by destruct (Hv p d Hin).
Qed.

Lemma CanMatch_best side st price :
  CanMatch st side price = true ->
  exists best q, best_opposite side st = Some (best, q).
Proof.
  destruct side; intros H.
  - apply CanMatch_Buy in H as (b & q & H & _). by exists b, q.
  - apply CanMatch_Sell in H as (b & q & H & _). by exists b, q.
Qed.

(** C2, as the code has it.  [CanFullyFill] is false when [CanMatch] is
    false.  Otherwise, with [best] the best opposite price, it is true
    exactly when [data_] holds at least one reachable price and the sum of
    the quantities of the reachable prices is at least [quantity]; for a
    positive [quantity] this is the same as the sum being at least
    [quantity].  A [FillOrKill] order for which the predicate is false is
    turned away by [AddOrder] with no trades and the book as it was. *)
Theorem CanFullyFill_sums_reachable_levels :
  (forall st side price quantity,
      data_valid (data_ st) ->
      valid_quantity quantity ->
      (CanMatch st side price = false -> CanFullyFill st side price quantity = false)
      /\ (CanMatch st side price = true ->
          exists best q,
            best_opposite side st = Some (best, q)
            /\ CanFullyFill st side price quantity =
               has_reachable side price best (map_to_list (data_ st))
               && (quantity <=? reachable_sum side price best (map_to_list (data_ st)))
            /\ (0 < quantity ->
                (CanFullyFill st side price quantity = true
                 <-> quantity <= reachable_sum side price best (map_to_list (data_ st))))))
  /\ (forall st o,
        GetOrderType o = FillOrKill ->
        CanFullyFill st (GetSide o) (GetPrice o) (GetInitialQuantity o) = false ->
        AddOrder o st = ret ([], st)).
Proof.
  split.
  - intros st side price quantity Hv Hq. split.
    + intros Hcan. unfold CanFullyFill. by rewrite Hcan.
    + intros Hcan. destruct (CanMatch_best side st price Hcan) as (best & q & Hbest).
      exists best, q. split; [done|].
      assert (CanFullyFill st side price quantity =
              has_reachable side price best (map_to_list (data_ st))
              && (quantity <=? reachable_sum side price best (map_to_list (data_ st)))) as Heq.
      { unfold CanFullyFill. rewrite Hcan. simpl.
        unfold best_opposite in Hbest. rewrite Hbest.
        apply CanFullyFill_walk_spec; [by apply data_valid_levels | done]. }
      split; [exact Heq|].
      intros Hpos. rewrite Heq, andb_true_iff, Z.leb_le. split; [tauto|].
      intros Hle. split; [|done].
      destruct (has_reachable side price best (map_to_list (data_ st))) eqn:Eh; [done|].
      rewrite (reachable_sum_none _ _ _ _ Eh) in Hle. lia.
  - intros st o Hfok Hcan. unfold AddOrder.
    destruct (decide (is_Some (orders_ st !! GetOrderId o))); [reflexivity|].
    unfold ConvertMarket. rewrite decide_False by (rewrite Hfok; discriminate).
    simpl. rewrite Hcan.
    rewrite (bool_decide_eq_false_2 (GetOrderType o = FillAndKill))
      by (rewrite Hfok; discriminate).
    rewrite bool_decide_eq_true_2 by done. reflexivity.
Qed.

Lemma ask_without_level_data_reachable : reachable ask_without_level_data.
Proof.
  eapply (reachable_exec (DoAddOrder (NewOrder GoodTillCancel 2 Sell 100 10))).
  - eapply (reachable_exec (DoAddOrder (NewOrder GoodTillCancel 1 Buy 100 5))).
    + exact reachable_empty.
    + vm_compute. reflexivity.
  - vm_compute. reflexivity.
Defined.

Lemma CanFullyFill_sums_reachable_levels_witness :
  (exists best q,
      best_opposite Buy two_sided_book = Some (best, q)
      /\ CanFullyFill two_sided_book Buy 101 7 =
         has_reachable Buy 101 best (map_to_list (data_ two_sided_book))
         && (7 <=? reachable_sum Buy 101 best (map_to_list (data_ two_sided_book)))
      /\ (0 < 7 ->
          (CanFullyFill two_sided_book Buy 101 7 = true
           <-> 7 <= reachable_sum Buy 101 best (map_to_list (data_ two_sided_book)))))
  /\ AddOrder (NewOrder FillOrKill 3 Buy 101 8) two_sided_book = ret ([], two_sided_book).
Proof.
  split.
  - apply (proj1 CanFullyFill_sums_reachable_levels two_sided_book Buy 101 7).
    + intros p d Hd. vm_compute in Hd.
      destruct (decide (p = 99)) as [->|H99].
      * vm_compute in Hd. injection Hd as <-. vm_compute. split; [discriminate | reflexivity].
      * destruct (decide (p = 101)) as [->|H101].
        -- vm_compute in Hd. injection Hd as <-. vm_compute. split; [discriminate | reflexivity].
        -- exfalso. revert Hd. change (({[99 := LevelData.mk 5 1; 101 := LevelData.mk 7 1]}
                                   : gmap Z LevelData.t) !! p = Some d -> False).
           rewrite lookup_insert_ne by done. rewrite lookup_singleton_ne by done. discriminate.
    + vm_compute. split; [discriminate | reflexivity].
    + vm_compute. reflexivity.
  - apply (proj2 CanFullyFill_sums_reachable_levels two_sided_book (NewOrder FillOrKill 3 Buy 101 8)).
    + reflexivity.
    + vm_compute. reflexivity.
Defined.

(** C2, as stated, fails for the quantity zero on a book whose [data_] has no
    reachable price: the opposite side can be matched, the sum over the
    reachable prices is zero and so at least the quantity, yet the predicate
    is false, and the order is turned away. *)
Lemma CanFullyFill_false_at_quantity_zero :
  CanMatch ask_without_level_data Buy 100 = true
  /\ best_opposite Buy ask_without_level_data
     = Some (100, [mkOrder GoodTillCancel 2 Sell 100 10 10 5])
  /\ 0 <= reachable_sum Buy 100 100 (map_to_list (data_ ask_without_level_data))
  /\ CanFullyFill ask_without_level_data Buy 100 0 = false
  /\ AddOrder (NewOrder FillOrKill 3 Buy 100 0) ask_without_level_data
     = ret ([], ask_without_level_data).
Proof.
  repeat split; vm_compute; (reflexivity || discriminate).
Qed.

(** *** [data_] only ever holds 32-bit quantities *)

Lemma wrap32_valid z : valid_quantity (wrap32 z).
Proof. unfold valid_quantity, wrap32, UINT32_MOD. apply Z.mod_pos_bound. lia. Qed.

Lemma data_valid_delete p data : data_valid data -> data_valid (delete p data).
Proof.
  intros Hv p' d Hd. apply lookup_delete_Some in Hd as [_ Hd]. by eapply Hv.
Qed.

Lemma UpdateLevelData_valid price quantity action data :
  data_valid data -> data_valid (UpdateLevelData price quantity action data).
Proof.
  intros Hv. unfold UpdateLevelData.
  destruct (_ =? 0); [by apply data_valid_delete|].
  intros p d Hd. apply lookup_insert_Some in Hd as [[_ <-]|[_ Hd]]; [|by eapply Hv].
  destruct action; apply wrap32_valid.
Qed.

Lemma MatchLevel_data_valid fuel s s' :
  data_valid (ls_data s) -> MatchLevel fuel s = ret s' -> data_valid (ls_data s').
Proof.
  revert s. induction fuel as [|fuel IH]; intros [bids asks orders data trades] Hv Hrun.
  all: destruct bids as [|bid bids]; [by injection Hrun as <-|].
  all: destruct asks as [|ask asks]; [by injection Hrun as <-|].
  - discriminate Hrun.
  - rewrite MatchLevel_round in Hrun. apply IH in Hrun; [done|].
    cbn [ls_data]. unfold OnOrderMatched. by do 2 apply UpdateLevelData_valid.
Qed.

Lemma EraseEmptyLevels_data_valid bp ap s st :
  data_valid (ls_data s) -> data_valid (data_ (EraseEmptyLevels bp ap s st)).
Proof.
  intros Hv. unfold EraseEmptyLevels.
  destruct (is_nil (ls_bids s)), (is_nil (ls_asks s)); simpl;
    repeat apply data_valid_delete; done.
Qed.

Lemma MatchLoop_data_valid fuel st trades trades' st' :
  data_valid (data_ st) -> MatchLoop fuel st trades = ret (trades', st') ->
  data_valid (data_ st').
Proof.
  revert st trades. induction fuel as [|fuel IH]; intros st trades Hv Hrun.
  all: simpl in Hrun.
  all: destruct (bids_begin st) as [[bp bq]|]; [|by injection Hrun as _ <-].
  all: destruct (asks_begin st) as [[ap aq]|]; [|by injection Hrun as _ <-].
  all: destruct (bp <? ap); [by injection Hrun as _ <-|].
  - discriminate Hrun.
  - destruct (MatchLevel (length bq + length aq)
                (mkLevelState bq aq (orders_ st) (data_ st) trades)) as [e|s'] eqn:El;
      [discriminate Hrun|].
    cbn [mbind M_bind] in Hrun. apply IH in Hrun; [done|].
    apply EraseEmptyLevels_data_valid.
    exact (MatchLevel_data_valid _ (mkLevelState bq aq (orders_ st) (data_ st) trades) _ Hv El).
Qed.

Lemma CancelOrderInternal_data_valid id st st' :
  data_valid (data_ st) -> CancelOrderInternal id st = ret st' -> data_valid (data_ st').
Proof.
  intros Hv. unfold CancelOrderInternal.
  destruct (orders_ st !! id) as [e|]; [|by intros [= <-]].
  destruct (deref st id e) as [err|o]; [discriminate|]. cbn [mbind M_bind].
  destruct (GetSide o).
  - destruct (erase_from_level _ _ _) as [err|b]; [discriminate|].
    cbn [mbind M_bind]. intros [= <-]. simpl. by apply UpdateLevelData_valid.
  - destruct (erase_from_level _ _ _) as [err|a]; [discriminate|].
    cbn [mbind M_bind]. intros [= <-]. simpl. by apply UpdateLevelData_valid.
Qed.

Lemma CancelOrders_data_valid ids st st' :
  data_valid (data_ st) -> CancelOrders ids st = ret st' -> data_valid (data_ st').
Proof.
  revert st. induction ids as [|id ids IH]; intros st Hv; simpl; [by intros [= <-]|].
  destruct (CancelOrderInternal id st) as [e|st1] eqn:Ec; [discriminate|].
  cbn [mbind M_bind]. apply IH. by eapply CancelOrderInternal_data_valid.
Qed.

Lemma CancelFillAndKillHead_data_valid t st st' :
  data_valid (data_ st) -> CancelFillAndKillHead t st = ret st' -> data_valid (data_ st').
Proof.
  intros Hv. unfold CancelFillAndKillHead.
  destruct t as [[p [|o q]]|]; [discriminate| |by intros [= <-]].
  destruct (decide _); [by rewrite CancelOrder_holding_true | by intros [= <-]].
Qed.

Lemma MatchOrders_data_valid st trades st' :
  data_valid (data_ st) -> MatchOrders st = ret (trades, st') -> data_valid (data_ st').
Proof.
  intros Hv. unfold MatchOrders.
  destruct (MatchLoop _ st []) as [e|[tr st1]] eqn:El; [discriminate|].
  cbn [mbind M_bind].
  destruct (CancelFillAndKillHead (bids_begin st1) st1) as [e|st2] eqn:E2; [discriminate|].
  cbn [mbind M_bind].
  destruct (CancelFillAndKillHead (asks_begin st2) st2) as [e|st3] eqn:E3; [discriminate|].
  cbn [mbind M_bind]. intros [= _ <-].
  eapply CancelFillAndKillHead_data_valid; [|exact E3].
  eapply CancelFillAndKillHead_data_valid; [|exact E2].
  by eapply MatchLoop_data_valid.
Qed.

Lemma data_PlaceOrder o st : data_ (PlaceOrder o st) = OnOrderAdded o (data_ st).
Proof. unfold PlaceOrder. destruct (GetSide o); reflexivity. Qed.

Lemma AddOrder_data_valid o st trades st' :
  data_valid (data_ st) -> AddOrder o st = ret (trades, st') -> data_valid (data_ st').
Proof.
  intros Hv. unfold AddOrder.
  destruct (decide _); [by intros [= _ <-]|].
  destruct (ConvertMarket o st) as [e|[o'|]]; [discriminate| |by intros [= _ <-]].
  cbn [mbind M_bind].
  destruct (_ && _); [by intros [= _ <-]|].
  destruct (_ && _); [by intros [= _ <-]|].
  apply MatchOrders_data_valid.
  rewrite data_PlaceOrder. by apply UpdateLevelData_valid.
Qed.

Lemma exec_data_valid c st trades st' :
  data_valid (data_ st) -> exec c st = ret (trades, st') -> data_valid (data_ st').
Proof.
  intros Hv. destruct c as [o|id|m|ids]; simpl.
  - by apply AddOrder_data_valid.
  - unfold CancelOrder. destruct (CancelOrderInternal id st) as [e|st1] eqn:Ec; [discriminate|].
    cbn [mbind M_bind]. intros [= _ <-]. by eapply CancelOrderInternal_data_valid.
  - unfold ModifyOrder. destruct (orders_ st !! mod_orderId_ m); [|by intros [= _ <-]].
    destruct (deref _ _ _); [discriminate|]. cbn [mbind M_bind].
    unfold CancelOrder. destruct (CancelOrderInternal _ st) as [e|st1] eqn:Ec; [discriminate|].
    cbn [mbind M_bind]. apply AddOrder_data_valid. by eapply CancelOrderInternal_data_valid.
  - destruct (CancelOrders ids st) as [e|st1] eqn:Ec; [discriminate|].
    cbn [mbind M_bind]. intros [= _ <-]. by eapply CancelOrders_data_valid.
Qed.

Lemma reachable_data_valid st : reachable st -> data_valid (data_ st).
Proof.
  induction 1 as [|c st trades st' _ IH Hexec].
  - intros p d Hd. simpl in Hd. rewrite lookup_empty in Hd. discriminate.
  - by eapply exec_data_valid.
Qed.

(** ** The level data after a cross at one price *)

(** C1.  A resting bid for 5 at price 100 and an incoming ask for 10 at the
    same price: the loop fills the bid, finds the bid level empty and erases
    [data_[100]], although 5 units of the ask stay at that price.  The book
    is reached by two calls of [AddOrder] and its level data is not accurate.
    What follows from it: a fill-or-kill bid for 5 at 100, which the resting
    ask could fill, is turned away; and cancelling the ask leaves an entry
    of [data_] at 100 with no order at that price. *)
Theorem level_data_erased_under_resting_ask :
  run_adds [NewOrder GoodTillCancel 1 Buy 100 5;
            NewOrder GoodTillCancel 2 Sell 100 10] empty_book
  = ret ([mkTrade (mkTradeInfo 1 100 5) (mkTradeInfo 2 100 5)], ask_without_level_data)
  /\ reachable ask_without_level_data
  /\ asks_ ask_without_level_data !! 100 = Some [mkOrder GoodTillCancel 2 Sell 100 10 10 5]
  /\ data_ ask_without_level_data !! 100 = None
  /\ ~ level_data_accurate ask_without_level_data
  /\ AddOrder (NewOrder FillOrKill 3 Buy 100 5) ask_without_level_data
     = ret ([], ask_without_level_data)
  /\ exists st', CancelOrder 2 ask_without_level_data = ret st'
                 /\ bids_ st' = ∅ /\ asks_ st' = ∅
                 /\ is_Some (data_ st' !! 100).
Proof.
  split; [vm_compute; reflexivity|].
  split; [exact ask_without_level_data_reachable|].
  split; [vm_compute; reflexivity|].
  split; [vm_compute; reflexivity|].
  split.
  { intros H.
    destruct (H Sell 100 [mkOrder GoodTillCancel 2 Sell 100 10 10 5]) as (d & Hd & _).
    - vm_compute. reflexivity.
    - vm_compute in Hd. discriminate Hd. }
  split; [vm_compute; reflexivity|].
  eexists. split; [vm_compute; reflexivity|].
  split; [vm_compute; reflexivity|]. split; [vm_compute; reflexivity|].
  vm_compute. eexists. reflexivity.
Qed.

(** * Further properties of the engine *)

(** ** Filling an order *)

(** X1.  For an order whose quantities are 32-bit values with the remaining
    quantity at most the initial one, [Fill] raises a logic error exactly
    when asked for more than the remaining quantity; otherwise the remaining
    quantity goes down and the filled quantity up by the amount, nothing else
    changes, and the order is filled exactly when the amount was all that
    remained. *)
Theorem Fill_takes_from_remaining (o : Order) (quantity : Quantity) :
  0 <= GetRemainingQuantity o <= GetInitialQuantity o ->
  GetInitialQuantity o < UINT32_MOD ->
  0 <= quantity ->
  (GetRemainingQuantity o < quantity -> exists what, Fill quantity o = throw (LogicError what))
  /\ (quantity <= GetRemainingQuantity o ->
      exists o', Fill quantity o = ret o'
                 /\ GetRemainingQuantity o' = GetRemainingQuantity o - quantity
                 /\ GetFilledQuantity o' = GetFilledQuantity o + quantity
                 /\ GetInitialQuantity o' = GetInitialQuantity o
                 /\ static o' = static o
                 /\ (IsFilled o' = true <-> quantity = GetRemainingQuantity o)).
Proof.
  unfold Fill, GetFilledQuantity, IsFilled.
  unfold GetRemainingQuantity, GetInitialQuantity, wrap32, UINT32_MOD.
  intros Hr Hi Hq. split.
  - intros Hgt. destruct (Z.gtb_spec quantity (remainingQuantity_ o));
      [eexists; reflexivity | lia].
  - intros Hle. destruct (Z.gtb_spec quantity (remainingQuantity_ o)); [lia|].
    eexists. split; [reflexivity|]. simpl.
    rewrite (Z.mod_small (remainingQuantity_ o - quantity)) by lia.
    rewrite !Z.mod_small by lia.
    repeat split; lia.
Qed.

Lemma Fill_takes_from_remaining_witness :
  (exists what, Fill 6 (NewOrder GoodTillCancel 1 Buy 100 5) = throw (LogicError what))
  /\ exists o', Fill 2 (NewOrder GoodTillCancel 1 Buy 100 5) = ret o'
                /\ GetRemainingQuantity o' = 5 - 2.
Proof.
  split.
  - apply (proj1 (Fill_takes_from_remaining (NewOrder GoodTillCancel 1 Buy 100 5) 6
                    ltac:(simpl; lia) ltac:(vm_compute; reflexivity) ltac:(lia))).
    simpl. lia.
  - destruct (proj2 (Fill_takes_from_remaining (NewOrder GoodTillCancel 1 Buy 100 5) 2
                       ltac:(simpl; lia) ltac:(vm_compute; reflexivity) ltac:(lia)))
      as (o' & H1 & H2 & _); [simpl; lia|].
    exists o'. split; [exact H1 | exact H2].
Defined.

(** ** Cancelling *)

Lemma filter_all {A} (P : A -> Prop) `{!forall x, Decision (P x)} (l : list A) :
  Forall P l -> filter P l = l.
Proof.
  induction 1 as [|x l Hx _ IH]; [reflexivity|].
  rewrite filter_cons_True by done. by rewrite IH.
Qed.

Lemma erase_node_filter id q :
  NoDup (orderId_ <$> q) ->
  erase_node id q = filter (fun o => orderId_ o <> id) q.
Proof.
  induction q as [|o q IH]; [reflexivity|]. simpl.
  intros [Hnotin Hnd]%NoDup_cons. destruct (decide (orderId_ o = id)) as [Heq|Hne].
  - rewrite filter_cons_False by (intros H; by apply H).
    symmetry. apply filter_all. apply Forall_forall. intros x Hx Hxid.
    apply Hnotin. rewrite Heq, <- Hxid. by apply list_elem_of_fmap_2.
  - rewrite filter_cons_True by done. by rewrite IH.
Qed.

(** In a well-formed book the orders with a given id are in the queue its
    index entry names, and nowhere when the id is not indexed. *)
Lemma no_such_id_elsewhere st id s p :
  book_wf st ->
  (forall e, orders_ st !! id = Some e -> mkOrderEntry s p <> e) ->
  filter (fun o => orderId_ o <> id) (queue_at s p st) = queue_at s p st.
Proof.
  intros [Hl _] Hother. apply filter_all. apply Forall_forall. intros o Ho Hid.
  unfold queue_at in Ho. destruct (side_map s st !! p) as [q|] eqn:Eq; [|inversion Ho].
  simpl in Ho. destruct (level_entry st s p q o Hl Eq Ho) as (_ & _ & He).
  rewrite Hid in He. by apply (Hother _ He).
Qed.

Lemma CancelOrderInternal_queues st id st' :
  book_wf st -> CancelOrderInternal id st = ret st' ->
  forall s p, queue_at s p st' = filter (fun o => orderId_ o <> id) (queue_at s p st).
Proof.
  intros Hwf Hc s p. destruct (orders_ st !! id) as [e|] eqn:He.
  - destruct (CancelOrderInternal_live st id e Hwf He) as (q & o & Hq & Hf & Heq).
    rewrite Heq in Hc. injection Hc as <-.
    unfold queue_at at 1. rewrite side_map_set_data, side_map_set_side, side_map_set_orders.
    destruct (decide (s = entry_side_ e)) as [->|Hs].
    + rewrite put_level_lookup. destruct (decide (entry_price_ e = p)) as [<-|Hp].
      * unfold queue_at. rewrite Hq. simpl.
        destruct Hwf as [Hl _]. destruct (Hl _ _ _ Hq) as (_ & Hnd & _).
        rewrite <- (erase_node_filter id q Hnd).
        by destruct (erase_node id q).
      * symmetry. apply no_such_id_elsewhere; [done|].
        intros e' He'. rewrite He in He'. injection He' as <-.
        destruct e as [es ep]. simpl in *. congruence.
    + symmetry. apply no_such_id_elsewhere; [done|].
      intros e' He'. rewrite He in He'. injection He' as <-.
      destruct e as [es ep]. simpl in *. congruence.
  - unfold CancelOrderInternal in Hc. rewrite He in Hc. injection Hc as <-.
    symmetry. apply no_such_id_elsewhere; [done|]. intros e He'. congruence.
Qed.

(** X2.  On a book reached from the empty book, [CancelOrder] completes and
    removes the order with the given id and nothing else: every queue keeps
    its other orders in their sequence, the id leaves the index, and [Size]
    goes down by one when the id was live and stays when it was not. *)
Theorem CancelOrder_removes_that_order_only (st : Orderbook) (id : OrderId) :
  reachable st ->
  exists st',
    CancelOrder id st = ret st'
    /\ (forall s p, queue_at s p st' = filter (fun o => orderId_ o <> id) (queue_at s p st))
    /\ orders_ st' = delete id (orders_ st)
    /\ Size st' = (if orders_ st !! id is Some _ then pred (Size st) else Size st).
Proof.
  intros Hreach. apply reachable_inv in Hreach. destruct Hreach as [Hwf _].
  destruct (CancelOrderInternal_spec st id Hwf) as (st' & Hc & _ & _ & Ho).
  exists st'. split; [exact Hc|]. split; [by apply CancelOrderInternal_queues|].
  split; [exact Ho|]. unfold Size. rewrite Ho, map_size_delete.
  by destruct (orders_ st !! id).
Qed.

Lemma CancelOrder_removes_that_order_only_witness :
  exists st',
    CancelOrder 1 two_sided_book = ret st'
    /\ (forall s p, queue_at s p st'
                    = filter (fun o => orderId_ o <> 1) (queue_at s p two_sided_book))
    /\ orders_ st' = delete 1 (orders_ two_sided_book)
    /\ Size st' = (if orders_ two_sided_book !! 1 is Some _ then pred (Size two_sided_book)
                   else Size two_sided_book).
Proof.
  exact (CancelOrder_removes_that_order_only two_sided_book 1 two_sided_book_reachable).
Defined.

(** X3.  Cancelling twice is cancelling once: on a book reached from the
    empty book the second [CancelOrder] of the same id returns the book the
    first one left. *)
Theorem CancelOrder_twice_is_once (st : Orderbook) (id : OrderId) :
  reachable st ->
  exists st', CancelOrder id st = ret st' /\ CancelOrder id st' = ret st'.
Proof.
  intros Hreach. apply reachable_inv in Hreach. destruct Hreach as [Hwf _].
  destruct (CancelOrderInternal_spec st id Hwf) as (st' & Hc & _ & _ & Ho).
  exists st'. split; [exact Hc|].
  unfold CancelOrder, CancelOrderInternal. by rewrite Ho, lookup_delete_eq.
Qed.

Lemma CancelOrder_twice_is_once_witness :
  exists st', CancelOrder 2 two_sided_book = ret st' /\ CancelOrder 2 st' = ret st'.
Proof. exact (CancelOrder_twice_is_once two_sided_book 2 two_sided_book_reachable). Defined.

(** ** The id index and the resting orders *)

Lemma elem_of_resting_orders st o :
  o ∈ resting_orders st <-> exists s p q, side_map s st !! p = Some q /\ o ∈ q.
Proof.
  unfold resting_orders. rewrite elem_of_app, !list_elem_of_bind. split.
  - intros [([p q] & Ho & Hpq%elem_of_map_to_list)|([p q] & Ho & Hpq%elem_of_map_to_list)].
    + by exists Buy, p, q.
    + by exists Sell, p, q.
  - intros (s & p & q & Hq & Ho). destruct s; [left|right]; exists (p, q);
      (split; [done | by apply elem_of_map_to_list]).
Qed.

Lemma NoDup_fmap_eq {A B} (f : A -> B) (l : list A) x y :
  NoDup (f <$> l) -> x ∈ l -> y ∈ l -> f x = f y -> x = y.
Proof.
  induction l as [|a l IH]; simpl; [intros _ H; inversion H|].
  intros [Hnotin Hnd]%NoDup_cons [->|Hx]%elem_of_cons [->|Hy]%elem_of_cons Heq; try done.
  - exfalso. apply Hnotin. rewrite Heq. by apply list_elem_of_fmap_2.
  - exfalso. apply Hnotin. rewrite <- Heq. by apply list_elem_of_fmap_2.
  - by apply IH.
Qed.

Lemma same_id_same_order st s1 p1 q1 o1 s2 p2 q2 o2 :
  book_wf st ->
  side_map s1 st !! p1 = Some q1 -> o1 ∈ q1 ->
  side_map s2 st !! p2 = Some q2 -> o2 ∈ q2 ->
  orderId_ o1 = orderId_ o2 -> o1 = o2.
Proof.
  intros [Hl _] Hq1 Ho1 Hq2 Ho2 Hid.
  destruct (level_entry st _ _ _ _ Hl Hq1 Ho1) as (_ & _ & He1).
  destruct (level_entry st _ _ _ _ Hl Hq2 Ho2) as (_ & _ & He2).
  rewrite Hid, He2 in He1. injection He1 as -> ->.
  rewrite Hq1 in Hq2. injection Hq2 as ->.
  destruct (Hl _ _ _ Hq1) as (_ & Hnd & _). by eapply NoDup_fmap_eq.
Qed.

Lemma NoDup_side_orders st s :
  book_wf st -> NoDup (map_to_list (side_map s st) ≫= snd).
Proof.
  intros Hwf. pose proof Hwf as [Hl _]. apply NoDup_bind.
  - intros [p1 q1] [p2 q2] o H1%elem_of_map_to_list H2%elem_of_map_to_list Ho1 Ho2.
    simpl in *.
    destruct (level_entry st _ _ _ _ Hl H1 Ho1) as (_ & Hp1 & _).
    destruct (level_entry st _ _ _ _ Hl H2 Ho2) as (_ & Hp2 & _).
    assert (p1 = p2) as -> by congruence. congruence.
  - intros [p q] Hpq%elem_of_map_to_list. simpl.
    destruct (Hl _ _ _ Hpq) as (_ & Hnd & _). by apply NoDup_fmap_1 in Hnd.
  - apply NoDup_map_to_list.
Qed.

Lemma NoDup_resting_ids st :
  book_wf st -> NoDup (orderId_ <$> resting_orders st).
Proof.
  intros Hwf. apply NoDup_fmap_2_strong.
  - intros x y (s1 & p1 & q1 & Hq1 & Hx)%elem_of_resting_orders
      (s2 & p2 & q2 & Hq2 & Hy)%elem_of_resting_orders Hid.
    by eapply (same_id_same_order st s1 p1 q1 x s2 p2 q2 y).
  - unfold resting_orders. apply NoDup_app. split; [|split].
    + apply (NoDup_side_orders st Buy Hwf).
    + intros o ([p1 q1] & Ho1 & H1%elem_of_map_to_list)%list_elem_of_bind
        ([p2 q2] & Ho2 & H2%elem_of_map_to_list)%list_elem_of_bind.
      destruct Hwf as [Hl _]. simpl in *.
      destruct (level_entry st Buy _ _ _ Hl H1 Ho1) as (Hs1 & _).
      destruct (level_entry st Sell _ _ _ Hl H2 Ho2) as (Hs2 & _). congruence.
    + apply (NoDup_side_orders st Sell Hwf).
Qed.

Lemma resting_ids_indexed st id :
  book_wf st -> (id ∈ orderId_ <$> resting_orders st <-> is_Some (orders_ st !! id)).
Proof.
  intros [Hl Hi]. rewrite list_elem_of_fmap. split.
  - intros (o & -> & (s & p & q & Hq & Ho)%elem_of_resting_orders).
    destruct (level_entry st s p q o Hl Hq Ho) as (_ & _ & He). by eexists.
  - intros [e He]. destruct (Hi id e He) as (q & o & Hq & Hf).
    destruct (find_node_Some _ _ _ Hf) as [Ho Hid].
    exists o. split; [done|]. apply elem_of_resting_orders. eauto.
Qed.

(** X4.  On a book reached from the empty book the id index and the queues
    agree: [Size] is the number of orders resting on the two sides, no two
    resting orders share an id, and an id is in the index exactly when an
    order with that id rests. *)
Theorem Size_counts_resting_orders (st : Orderbook) :
  reachable st ->
  Size st = length (resting_orders st)
  /\ NoDup (orderId_ <$> resting_orders st)
  /\ (forall id, is_Some (orders_ st !! id) <-> id ∈ orderId_ <$> resting_orders st).
Proof.
  intros Hreach. apply reachable_inv in Hreach. destruct Hreach as [Hwf _].
  pose proof (NoDup_resting_ids st Hwf) as Hnd.
  split; [|split; [done | intros id; symmetry; by apply resting_ids_indexed]].
  unfold Size. rewrite <- length_map_to_list.
  rewrite <- (length_fmap fst), <- (length_fmap orderId_ (resting_orders st)).
  apply Permutation_length. apply NoDup_Permutation.
  - apply NoDup_fst_map_to_list.
  - done.
  - intros id. rewrite (resting_ids_indexed st id Hwf). rewrite list_elem_of_fmap. split.
    + intros ([k e] & -> & Hke%elem_of_map_to_list). by eexists.
    + intros [e He]. exists (id, e). split; [done | by apply elem_of_map_to_list].
Qed.

Lemma Size_counts_resting_orders_witness :
  Size two_sided_book = length (resting_orders two_sided_book)
  /\ NoDup (orderId_ <$> resting_orders two_sided_book)
  /\ (forall id, is_Some (orders_ two_sided_book !! id)
                 <-> id ∈ orderId_ <$> resting_orders two_sided_book).
Proof. exact (Size_counts_resting_orders two_sided_book two_sided_book_reachable). Defined.

(** ** What [AddOrder] does to the queues *)

Lemma ConvertMarket_cases o st :
  exists r, ConvertMarket o st = ret r
            /\ forall o', r = Some o' ->
                 (orderType_ o <> Market /\ o' = o)
                 \/ (orderType_ o = Market
                     /\ exists worst, o' = as_GoodTillCancel worst o
                                      /\ worst_opposite_price (side_ o) st worst).
Proof.
  unfold ConvertMarket. destruct (decide (GetOrderType o = Market)) as [Hm|Hm].
  - assert (forall price, ToGoodTillCancel price o = ret (as_GoodTillCancel price o)) as Hgtc.
    { intros price. unfold ToGoodTillCancel. by rewrite decide_False by (by intros ?). }
    unfold GetSide. destruct (side_ o) eqn:Es.
    + destruct (asks_rbegin st) as [[w q]|] eqn:Ew.
      * rewrite Hgtc. eexists. split; [reflexivity|]. intros o' [= <-]. right.
        split; [done|]. exists w. split; [done|].
        apply max_entry_Some in Ew as [H1 H2]. split; [by eexists | exact H2].
      * eexists. split; [reflexivity|]. intros o' Ho'. discriminate Ho'.
    + destruct (bids_rbegin st) as [[w q]|] eqn:Ew.
      * exists (Some (as_GoodTillCancel w o)). split.
        { destruct (asks_rbegin st) as [[? ?]|]; rewrite Hgtc; reflexivity. }
        intros o' [= <-]. right. split; [done|]. exists w. split; [done|].
        apply min_entry_Some in Ew as [H1 H2]. split; [by eexists | exact H2].
      * exists None. split.
        { destruct (asks_rbegin st) as [[? ?]|]; reflexivity. }
        intros o' Ho'. discriminate Ho'.
  - eexists. split; [reflexivity|]. intros o' [= <-]. by left.
Qed.

(** [AddOrder] either leaves the book alone and returns no trade, or places
    the order (converted if it was a market order) and runs [MatchOrders],
    after which levels have only disappeared or lost orders. *)
Lemma AddOrder_cases o st trades st' :
  book_inv st -> AddOrder o st = ret (trades, st') ->
  (trades = [] /\ st' = st)
  \/ exists o',
       orders_ st !! orderId_ o = None
       /\ ConvertMarket o st = ret (Some o')
       /\ MatchOrders (PlaceOrder o' st) = ret (trades, st')
       /\ book_wf (PlaceOrder o' st)
       /\ shrinks (PlaceOrder o' st) st'
       /\ book_inv st'.
Proof.
  intros Hinv Hadd. pose proof Hinv as (Hwf & Hun & Hno). unfold AddOrder in Hadd.
  destruct (decide (is_Some (orders_ st !! GetOrderId o))) as [|Hfresh];
    [left; by injection Hadd as <- <-|].
  destruct (ConvertMarket_spec o st) as (r & Hconv & Hr). rewrite Hconv in Hadd.
  cbn [mbind M_bind] in Hadd. unfold ret in Hadd. cbn [mbind M_bind] in Hadd.
  destruct r as [o'|]; [|left; by injection Hadd as <- <-].
  destruct (Hr o' eq_refl) as [Hid Hsame].
  destruct (bool_decide (GetOrderType o' = FillAndKill)
            && negb (CanMatch st (GetSide o') (GetPrice o'))) eqn:Efak;
    [left; by injection Hadd as <- <-|].
  destruct (bool_decide (GetOrderType o' = FillOrKill)
            && negb (CanFullyFill st (GetSide o') (GetPrice o') (GetInitialQuantity o')));
    [left; by injection Hadd as <- <-|].
  apply eq_None_not_Some in Hfresh. unfold GetOrderId in Hfresh.
  assert (book_wf (PlaceOrder o' st)) as Hwf1
    by (apply PlaceOrder_wf; [done | by rewrite Hid]).
  assert (FillAndKill_on_top (PlaceOrder o' st)) as Htop1.
  { apply PlaceOrder_on_top; [by apply apart_uncrossed | done |].
    intros Hfak. apply andb_false_iff in Efak as [Hb|Hc].
    - apply bool_decide_eq_false in Hb. done.
    - by apply negb_false_iff in Hc. }
  destruct (MatchOrders_ret _ _ _ Hwf1 Htop1 Hadd) as (Hwf' & Hs & Hun' & Hno').
  right. exists o'. split; [done|]. split; [done|]. split; [done|].
  split; [done|]. split; [done|]. exact (conj Hwf' (conj Hun' Hno')).
Qed.

(** X5.  [AddOrder] keeps the time priority of the orders that rest: when
    it returns on a book reached from the empty book, every queue it leaves
    holds a subsequence of the orders the queue held before (same ids,
    sides, prices and types, in the same sequence), followed at most by the
    added order itself, at the tail of the queue of its own side and price.
    It returns for every order that is not of type [FillAndKill]. *)
Theorem AddOrder_keeps_time_priority (st : Orderbook) (o : Order) :
  reachable st ->
  (GetOrderType o <> FillAndKill -> exists trades st', AddOrder o st = ret (trades, st'))
  /\ forall trades st',
       AddOrder o st = ret (trades, st') ->
       forall s p q', side_map s st' !! p = Some q' ->
         exists tail,
           subqueue q' (queue_at s p st ++ tail)
           /\ (tail = []
               \/ exists o', tail = [o'] /\ GetOrderId o' = GetOrderId o
                             /\ GetSide o' = s /\ GetPrice o' = p).
Proof.
  intros Hreach. apply reachable_inv in Hreach. split.
  { intros Htype. destruct (AddOrder_total o st Hreach Htype) as (trades & st' & Hadd & _).
    by exists trades, st'. }
  intros trades st' Hadd s p q' Hq'.
  destruct (AddOrder_cases o st trades st' Hreach Hadd)
    as [[_ ->]|(o' & Hfresh & Hconv & _ & _ & Hs & _)].
  - exists []. split; [|by left]. rewrite app_nil_r. unfold queue_at. rewrite Hq'.
    apply subqueue_refl.
  - destruct (Hs s p q' Hq') as (q & Hq & Hsub). rewrite lookup_PlaceOrder in Hq.
    destruct (decide _) as [[-> ->]|_].
    + injection Hq as <-. exists [o']. split; [exact Hsub|]. right.
      exists o'. split; [done|]. split; [|done].
      destruct (ConvertMarket_spec o st) as (r & Hconv' & Hr).
      rewrite Hconv in Hconv'. injection Hconv' as <-.
      by destruct (Hr o' eq_refl).
    + exists []. split; [|by left]. rewrite app_nil_r. unfold queue_at. by rewrite Hq.
Qed.

Lemma AddOrder_keeps_time_priority_witness :
  (GetOrderType (NewOrder GoodTillCancel 3 Buy 101 4) <> FillAndKill ->
   exists trades st',
     AddOrder (NewOrder GoodTillCancel 3 Buy 101 4) two_sided_book = ret (trades, st'))
  /\ forall trades st',
       AddOrder (NewOrder GoodTillCancel 3 Buy 101 4) two_sided_book = ret (trades, st') ->
       forall s p q', side_map s st' !! p = Some q' ->
         exists tail,
           subqueue q' (queue_at s p two_sided_book ++ tail)
           /\ (tail = []
               \/ exists o', tail = [o']
                             /\ GetOrderId o' = GetOrderId (NewOrder GoodTillCancel 3 Buy 101 4)
                             /\ GetSide o' = s /\ GetPrice o' = p).
Proof.
  exact (AddOrder_keeps_time_priority two_sided_book (NewOrder GoodTillCancel 3 Buy 101 4)
           two_sided_book_reachable).
Defined.

(** ** Market orders never rest *)

Lemma shrinks_no_type t st st' : shrinks st st' -> no_type t st -> no_type t st'.
Proof.
  intros Hs Hno s p q' o' Hq' Ho'.
  destruct (Hs s p q' Hq') as (q & Hq & Hsub).
  destruct (subqueue_elem _ _ _ Hsub Ho') as (o & Ho & Hst).
  injection Hst as <- _ _ _. by eapply Hno.
Qed.

Lemma AddOrder_no_Market o st trades st' :
  book_inv st -> no_type Market st -> AddOrder o st = ret (trades, st') ->
  no_type Market st'.
Proof.
  intros Hinv Hno Hadd.
  destruct (AddOrder_cases o st trades st' Hinv Hadd)
    as [[_ ->]|(o' & _ & Hconv & _ & _ & Hs & _)]; [done|].
  apply (shrinks_no_type Market _ _ Hs).
  intros s p q x Hq Hx.
  destruct (PlaceOrder_elem o' st s p q x Hq Hx) as [->|(q0 & Hq0 & Hx0)]; [|by eapply Hno].
  destruct (ConvertMarket_cases o st) as (r & Hconv' & Hr).
  rewrite Hconv in Hconv'. injection Hconv' as <-.
  destruct (Hr o' eq_refl) as [[Hm ->]|(_ & w & -> & _)]; [done | discriminate].
Qed.

Lemma exec_no_Market c st trades st' :
  book_inv st -> no_type Market st -> exec c st = ret (trades, st') ->
  no_type Market st'.
Proof.
  intros Hinv Hno. destruct c as [o|id|m|ids]; simpl.
  - by apply AddOrder_no_Market.
  - destruct (CancelOrderInternal_spec st id (proj1 Hinv)) as (st1 & Hc & _ & Hs & _).
    unfold CancelOrder. rewrite Hc. cbn [mbind M_bind]. intros [= _ <-].
    by apply (shrinks_no_type Market st).
  - unfold ModifyOrder. destruct (orders_ st !! mod_orderId_ m) as [e|] eqn:He;
      [|by intros [= _ <-]].
    destruct (deref_live st _ e (proj1 Hinv) He) as (q & o & _ & _ & _ & ->).
    cbn [mbind M_bind].
    destruct (CancelOrderInternal_spec st (mod_orderId_ m) (proj1 Hinv))
      as (st1 & Hc & Hwf1 & Hs & _).
    unfold CancelOrder. rewrite Hc. cbn [mbind M_bind].
    apply AddOrder_no_Market.
    + by apply (book_inv_shrinks st).
    + by apply (shrinks_no_type Market st).
  - destruct (CancelOrders_spec ids st (proj1 Hinv)) as (st1 & Hc & _ & Hs).
    rewrite Hc. cbn [mbind M_bind]. intros [= _ <-].
    by apply (shrinks_no_type Market st).
Qed.

(** X6.  No order of type [Market] ever rests: on every book reached from
    the empty book, no resting order has that type. *)
Theorem Market_orders_never_rest (st : Orderbook) :
  reachable st ->
  forall o, o ∈ resting_orders st -> GetOrderType o <> Market.
Proof.
  intros Hreach.
  assert (no_type Market st) as Hno.
  { induction Hreach as [|c st trades st' Hreach IH Hexec].
    - intros s p q o Hq. destruct s; simpl in Hq; rewrite lookup_empty in Hq; discriminate.
    - by apply (exec_no_Market c st trades st' (reachable_inv st Hreach) IH). }
  intros o (s & p & q & Hq & Ho)%elem_of_resting_orders. by eapply Hno.
Qed.

Lemma Market_orders_never_rest_witness :
  NewOrder GoodTillCancel 1 Buy 99 5 ∈ resting_orders two_sided_book
  /\ GetOrderType (NewOrder GoodTillCancel 1 Buy 99 5) <> Market.
Proof.
  assert (NewOrder GoodTillCancel 1 Buy 99 5 ∈ resting_orders two_sided_book) as Hin
    by (vm_compute; by left).
  split; [exact Hin|].
  exact (Market_orders_never_rest two_sided_book two_sided_book_reachable _ Hin).
Defined.

(** X7.  A market order sweeps: when a market order with a fresh id has been
    added to a book reached from the empty book, either nothing of it rests
    or the side it trades against is empty. *)
Theorem Market_order_sweeps_opposite_side (st : Orderbook) (o : Order) :
  reachable st ->
  GetOrderType o = Market ->
  orders_ st !! GetOrderId o = None ->
  exists trades st',
    AddOrder o st = ret (trades, st')
    /\ (orders_ st' !! GetOrderId o = None \/ side_map (opposite (GetSide o)) st' = ∅).
Proof.
  intros Hreach Hm Hfresh. apply reachable_inv in Hreach.
  destruct (AddOrder_total o st Hreach) as (trades & st' & Hadd & _);
    [by rewrite Hm|].
  exists trades, st'. split; [exact Hadd|].
  destruct (AddOrder_cases o st trades st' Hreach Hadd)
    as [[_ ->]|(o' & _ & Hconv & _ & Hwf1 & Hs & Hinv')]; [by left|].
  destruct (orders_ st' !! GetOrderId o) as [e|] eqn:He; [right | by left].
  destruct (ConvertMarket_cases o st) as (r & Hconv' & Hr).
  rewrite Hconv in Hconv'. injection Hconv' as <-.
  destruct (Hr o' eq_refl) as [[Hnm _]|(_ & w & -> & Hw1 & Hw2)]; [done|].
  destruct Hinv' as (Hwf' & Hun' & _). apply apart_uncrossed in Hun'.
  (* the order that rests under the id is the converted order, at the worst price *)
  destruct (deref_live st' _ e Hwf' He) as (q' & x & Hq' & Hx & Hxid & _).
  destruct (Hs _ _ _ Hq') as (q & Hq & Hsub).
  destruct (subqueue_elem _ _ _ Hsub Hx) as (y & Hy & Hst).
  assert (y = as_GoodTillCancel w o) as ->.
  { destruct (PlaceOrder_elem _ st _ _ q y Hq Hy) as [->|(q0 & Hq0 & Hy0)]; [done|].
    exfalso. destruct Hreach as [[Hl _] _].
    destruct (level_entry st _ _ q0 y Hl Hq0 Hy0) as (_ & _ & Hey).
    injection Hst as _ Hid _ _. unfold GetOrderId in *. congruence. }
  destruct Hwf1 as [Hl1 _].
  destruct (level_entry _ _ _ q _ Hl1 Hq Hy) as (Hsd & Hpr & _). simpl in Hsd, Hpr.
  apply map_empty. intros pa.
  destruct (side_map (opposite (GetSide o)) st' !! pa) as [qa|] eqn:Hqa; [exfalso|done].
  destruct (Hs _ _ _ Hqa) as (qa0 & Hqa0 & _).
  rewrite lookup_PlaceOrder in Hqa0.
  rewrite decide_False in Hqa0 by (simpl; unfold GetSide; destruct (side_ o); by intros [? _]).
  specialize (Hw2 _ _ Hqa0). unfold GetSide in *.
  destruct (side_ o) eqn:Es; simpl in *; rewrite <- Hsd, <- Hpr in *.
  - specialize (Hun' _ _ _ _ Hq' Hqa). lia.
  - specialize (Hun' _ _ _ _ Hqa Hq'). lia.
Qed.

Lemma Market_order_sweeps_opposite_side_witness :
  exists trades st',
    AddOrder (NewMarketOrder 3 Buy 9) two_sided_book = ret (trades, st')
    /\ (orders_ st' !! GetOrderId (NewMarketOrder 3 Buy 9) = None
        \/ side_map (opposite (GetSide (NewMarketOrder 3 Buy 9))) st' = ∅).
Proof.
  exact (Market_order_sweeps_opposite_side two_sided_book (NewMarketOrder 3 Buy 9)
           two_sided_book_reachable eq_refl eq_refl).
Defined.

(** ** The trades of an added order *)

Lemma MatchLoop_crossing_trades fuel st0 st trades trades' st' :
  book_wf st -> shrinks st0 st ->
  MatchLoop fuel st trades = ret (trades', st') ->
  exists new, trades' = trades ++ new /\ Forall (crossing_trade_of_book st0) new.
Proof.
  revert st trades. induction fuel as [|fuel IH]; intros st trades Hwf Hs Hrun.
  all: simpl in Hrun.
  all: destruct (bids_begin st) as [[bp bq]|] eqn:Eb;
    [|injection Hrun as <- <-; exists []; split; [by rewrite app_nil_r | constructor]].
  all: destruct (asks_begin st) as [[ap aq]|] eqn:Ea;
    [|injection Hrun as <- <-; exists []; split; [by rewrite app_nil_r | constructor]].
  all: destruct (bp <? ap) eqn:Elt;
    [injection Hrun as <- <-; exists []; split; [by rewrite app_nil_r | constructor]|].
  - discriminate Hrun.
  - apply Z.ltb_ge in Elt.
    pose proof (begin_lookup_max _ _ _ Eb) as Hbq.
    pose proof (begin_lookup_min _ _ _ Ea) as Haq.
    destruct (MatchLevel_spec (length bq + length aq)
                (mkLevelState bq aq (orders_ st) (data_ st) trades))
      as (s' & Hlevel & _ & Hpops); [simpl; lia|].
    rewrite Hlevel in Hrun. simpl in Hrun.
    destruct (round_spec st bp bq ap aq trades s' Hwf Hbq Haq Hpops) as [Hwf1 Hs1].
    destruct (IH _ _ Hwf1 (shrinks_trans _ _ _ Hs Hs1) Hrun) as (new & -> & Hall).
    destruct (MatchLevel_trades _ _ _ Hlevel) as (new1 & -> & Hall1).
    cbn [ls_trades ls_bids ls_asks] in *.
    exists (new1 ++ new). split; [by rewrite app_assoc|].
    apply Forall_app. split; [|done].
    destruct (Hs Buy bp bq Hbq) as (bq0 & Hbq0 & Hsubb).
    destruct (Hs Sell ap aq Haq) as (aq0 & Haq0 & Hsuba).
    eapply Forall_impl; [exact Hall1|]. intros t (Hq & Hb & Ha).
    exists bp, bq0, ap, aq0. split; [done|]. split; [done|]. split; [done|].
    split; [done|]. split; by eapply leg_of_subqueue.
Qed.

Lemma MatchOrders_crossing_trades st trades st' :
  book_wf st -> MatchOrders st = ret (trades, st') ->
  Forall (crossing_trade_of_book st) trades.
Proof.
  intros Hwf Hrun. unfold MatchOrders in Hrun.
  destruct (MatchLoop (S (size (bids_ st) + size (asks_ st))) st []) as [e|[tr st1]] eqn:El;
    [discriminate Hrun|].
  destruct (MatchLoop_crossing_trades _ st st [] tr st1 Hwf (shrinks_refl st) El)
    as (new & -> & Hall).
  cbn [mbind M_bind] in Hrun.
  destruct (CancelFillAndKillHead (bids_begin st1) st1) as [e|st2]; [discriminate Hrun|].
  cbn [mbind M_bind] in Hrun.
  destruct (CancelFillAndKillHead (asks_begin st2) st2) as [e|st3]; [discriminate Hrun|].
  cbn [mbind M_bind] in Hrun. injection Hrun as <- _. exact Hall.
Qed.

(** X8.  Every trade [AddOrder] returns on a book reached from the empty
    book is a trade of the added order: the leg on the order's own side
    carries its id, the other leg carries the id and the price of an order
    that rested on the opposite side before the call, the two legs have the
    same quantity, and the price of the ask leg is at most the price of the
    bid leg.  [AddOrder] returns for every order that is not of type
    [FillAndKill]. *)
Theorem AddOrder_trades_are_with_the_added_order (st : Orderbook) (o : Order) :
  reachable st ->
  (GetOrderType o <> FillAndKill -> exists trades st', AddOrder o st = ret (trades, st'))
  /\ forall trades st',
       AddOrder o st = ret (trades, st') ->
       Forall (fun t =>
         ti_orderId_ (leg (GetSide o) t) = GetOrderId o
         /\ (exists r, r ∈ resting_orders st
                       /\ GetSide r = opposite (GetSide o)
                       /\ GetOrderId r = ti_orderId_ (leg (opposite (GetSide o)) t)
                       /\ GetPrice r = ti_price_ (leg (opposite (GetSide o)) t))
         /\ ti_quantity_ (bidTrade_ t) = ti_quantity_ (askTrade_ t)
         /\ ti_price_ (askTrade_ t) <= ti_price_ (bidTrade_ t)) trades.
Proof.
  intros Hreach. apply reachable_inv in Hreach. split.
  { intros Htype. destruct (AddOrder_total o st Hreach Htype) as (trades & st' & Hadd & _).
    by exists trades, st'. }
  intros trades st' Hadd.
  destruct (AddOrder_cases o st trades st' Hreach Hadd)
    as [[-> _]|(o' & Hfresh & Hconv & Hm & Hwf1 & _ & _)]; [constructor|].
  destruct (ConvertMarket_cases o st) as (r & Hconv' & Hr).
  rewrite Hconv in Hconv'. injection Hconv' as <-.
  assert (orderId_ o' = orderId_ o /\ side_ o' = side_ o) as [Hid Hside].
  { destruct (Hr o' eq_refl) as [[_ ->]|(_ & w & -> & _)]; done. }
  destruct Hreach as (Hwf & Hun & _). apply apart_uncrossed in Hun.
  eapply Forall_impl; [exact (MatchOrders_crossing_trades _ _ _ Hwf1 Hm)|].
  intros t (bp & bq & ap & aq & Hbq & Haq & Hle & Hq & (b & Hb & Hbid & Hbpr) & (a & Ha & Haid & Hapr)).
  destruct Hwf1 as [Hl1 _]. destruct Hwf as [Hl _].
  destruct (level_entry _ Buy bp bq b Hl1 Hbq Hb) as (Hbs & Hbp & _).
  destruct (level_entry _ Sell ap aq a Hl1 Haq Ha) as (Has & Hap & _).
  unfold GetOrderId, GetPrice, GetSide in *.
  destruct (PlaceOrder_elem o' st Buy bp bq b Hbq Hb) as [->|(bq0 & Hbq0 & Hb0)];
    destruct (PlaceOrder_elem o' st Sell ap aq a Haq Ha) as [->|(aq0 & Haq0 & Ha0)].
  - congruence.
  - rewrite <- Hside, Hbs. simpl. split; [congruence|]. split; [|split; [done | lia]].
    exists a. split; [apply elem_of_resting_orders; by exists Sell, ap, aq0 | done].
  - rewrite <- Hside, Has. simpl. split; [congruence|]. split; [|split; [done | lia]].
    exists b. split; [apply elem_of_resting_orders; by exists Buy, bp, bq0 | done].
  - specialize (Hun bp bq0 ap aq0 Hbq0 Haq0). lia.
Qed.

Lemma AddOrder_trades_are_with_the_added_order_witness :
  (GetOrderType (NewOrder GoodTillCancel 3 Buy 101 4) <> FillAndKill ->
   exists trades st',
     AddOrder (NewOrder GoodTillCancel 3 Buy 101 4) two_sided_book = ret (trades, st'))
  /\ forall trades st',
       AddOrder (NewOrder GoodTillCancel 3 Buy 101 4) two_sided_book = ret (trades, st') ->
       Forall (fun t =>
         ti_orderId_ (leg (GetSide (NewOrder GoodTillCancel 3 Buy 101 4)) t)
           = GetOrderId (NewOrder GoodTillCancel 3 Buy 101 4)
         /\ (exists r, r ∈ resting_orders two_sided_book
                       /\ GetSide r = opposite (GetSide (NewOrder GoodTillCancel 3 Buy 101 4))
                       /\ GetOrderId r
                          = ti_orderId_ (leg (opposite (GetSide (NewOrder GoodTillCancel 3 Buy 101 4))) t)
                       /\ GetPrice r
                          = ti_price_ (leg (opposite (GetSide (NewOrder GoodTillCancel 3 Buy 101 4))) t))
         /\ ti_quantity_ (bidTrade_ t) = ti_quantity_ (askTrade_ t)
         /\ ti_price_ (askTrade_ t) <= ti_price_ (bidTrade_ t)) trades.
Proof.
  exact (AddOrder_trades_are_with_the_added_order two_sided_book
           (NewOrder GoodTillCancel 3 Buy 101 4) two_sided_book_reachable).
Defined.

(** ** The snapshot *)

#[local] Instance key_le_total {A} : Total (@key_le A).
Proof. intros x y. unfold key_le. lia. Qed.

#[local] Instance key_le_trans {A} : Transitive (@key_le A).
Proof. intros x y z. unfold key_le. lia. Qed.

#[local] Instance key_ge_total {A} : Total (@key_ge A).
Proof. intros x y. unfold key_ge. lia. Qed.

#[local] Instance key_ge_trans {A} : Transitive (@key_ge A).
Proof. intros x y z. unfold key_ge. lia. Qed.

Lemma StronglySorted_mono {A} (R1 R2 : relation A) (l : list A) :
  (forall x y, R1 x y -> R2 x y) -> StronglySorted R1 l -> StronglySorted R2 l.
Proof.
  intros Himpl. induction 1 as [|x l Hl IH Hx]; constructor; [done|].
  eapply Forall_impl; [exact Hx|]. intros y. apply Himpl.
Qed.

Lemma StronglySorted_distinct {A} (R : relation (Z * A)) (l : list (Z * A)) :
  StronglySorted R l -> NoDup (l.*1) ->
  StronglySorted (fun x y => R x y /\ x.1 <> y.1) l.
Proof.
  induction 1 as [|x l Hl IH Hx]; intros Hnd; [constructor|].
  apply NoDup_cons in Hnd as [Hnotin Hnd]. constructor; [by apply IH|].
  rewrite Forall_forall in *. intros y Hy. split; [by apply Hx|].
  intros Heq. apply Hnotin. rewrite Heq. by apply list_elem_of_fmap_2.
Qed.

Lemma elem_of_iterate_less {A} (m : gmap Z A) k v :
  (k, v) ∈ iterate_less m <-> m !! k = Some v.
Proof.
  unfold iterate_less. rewrite merge_sort_Permutation. apply elem_of_map_to_list.
Qed.

Lemma elem_of_iterate_greater {A} (m : gmap Z A) k v :
  (k, v) ∈ iterate_greater m <-> m !! k = Some v.
Proof.
  unfold iterate_greater. rewrite merge_sort_Permutation. apply elem_of_map_to_list.
Qed.

Lemma iterate_less_ascending {A} (m : gmap Z A) :
  StronglySorted (fun x y => x.1 < y.1) (iterate_less m).
Proof.
  eapply StronglySorted_mono; last first.
  - apply (StronglySorted_distinct key_le).
    + apply StronglySorted_merge_sort; apply _.
    + unfold iterate_less. rewrite merge_sort_Permutation. apply NoDup_fst_map_to_list.
  - intros x y [Hle Hne]. unfold key_le in Hle. simpl. lia.
Qed.

Lemma iterate_greater_descending {A} (m : gmap Z A) :
  StronglySorted (fun x y => y.1 < x.1) (iterate_greater m).
Proof.
  eapply StronglySorted_mono; last first.
  - apply (StronglySorted_distinct key_ge).
    + apply StronglySorted_merge_sort; apply _.
    + unfold iterate_greater. rewrite merge_sort_Permutation. apply NoDup_fst_map_to_list.
  - intros x y [Hle Hne]. unfold key_ge in Hle. simpl. lia.
Qed.

Lemma iterate_nil {A} (R : relation (Z * A)) `{!forall x y, Decision (R x y)} (m : gmap Z A) :
  merge_sort R (map_to_list m) = [] -> m = ∅.
Proof.
  intros E. apply map_to_list_empty_iff. apply Permutation_nil_r.
  rewrite <- E. symmetry. apply merge_sort_Permutation.
Qed.

(** The iteration of a map begins at [begin()]. *)
Lemma head_iterate_less {A} (m : gmap Z A) : head (iterate_less m) = min_entry m.
Proof.
  pose proof (iterate_less_ascending m) as Hs.
  pose proof (fun k v => elem_of_iterate_less m k v) as Hin.
  destruct (iterate_less m) as [|[k v] l] eqn:E; simpl.
  - apply iterate_nil in E. subst m. symmetry. by apply min_entry_None.
  - symmetry. apply min_entry_intro.
    + apply Hin. by left.
    + intros k' v' Hk'. apply Hin in Hk'. apply StronglySorted_inv in Hs as [_ Hall].
      apply elem_of_cons in Hk' as [[= -> ->]|Hk']; [lia|].
      rewrite Forall_forall in Hall. specialize (Hall _ Hk'). simpl in Hall. lia.
Qed.

Lemma head_iterate_greater {A} (m : gmap Z A) : head (iterate_greater m) = max_entry m.
Proof.
  pose proof (iterate_greater_descending m) as Hs.
  pose proof (fun k v => elem_of_iterate_greater m k v) as Hin.
  destruct (iterate_greater m) as [|[k v] l] eqn:E; simpl.
  - apply iterate_nil in E. subst m. symmetry. by apply max_entry_None.
  - symmetry. apply max_entry_intro.
    + apply Hin. by left.
    + intros k' v' Hk'. apply Hin in Hk'. apply StronglySorted_inv in Hs as [_ Hall].
      apply elem_of_cons in Hk' as [[= -> ->]|Hk']; [lia|].
      rewrite Forall_forall in Hall. specialize (Hall _ Hk'). simpl in Hall. lia.
Qed.

(** [std::accumulate] in [Quantity] gives the sum modulo [2^32]. *)
Lemma accumulate_wraps a (q : list Order) :
  foldl (fun runningSum order => wrap32 (runningSum + GetRemainingQuantity order)) (wrap32 a) q
  = wrap32 (a + sum_remaining q).
Proof.
  revert a. induction q as [|o q IH]; intros a; simpl.
  - by rewrite Z.add_0_r.
  - rewrite IH. unfold wrap32. rewrite <- Z.add_assoc.
    apply Z.add_mod_idemp_l. unfold UINT32_MOD. lia.
Qed.

Lemma CreateLevelInfos_sum price (orders : list Order) :
  CreateLevelInfos price orders = mkLevelInfo price (wrap32 (sum_remaining orders)).
Proof.
  unfold CreateLevelInfos. f_equal. change 0 with (wrap32 0) at 1.
  by rewrite accumulate_wraps.
Qed.

Lemma StronglySorted_fmap {A B} (R : relation B) (f : A -> B) (l : list A) :
  StronglySorted (fun x y => R (f x) (f y)) l -> StronglySorted R (f <$> l).
Proof.
  induction 1 as [|x l Hl IH Hx]; simpl; constructor; [done|].
  by apply Forall_fmap.
Qed.

(** X9.  The snapshot lists the bid levels from the highest price down and
    the ask levels from the lowest price up, with no price twice; a level
    info is in the snapshot of a side exactly when the side has a level at
    that price, and its quantity is the sum of the remaining quantities of
    the queue, modulo [2^32]. *)
Theorem GetOrderInfos_lists_levels_in_price_order (st : Orderbook) :
  StronglySorted (fun a b => li_price_ b < li_price_ a) (GetBids (GetOrderInfos st))
  /\ StronglySorted (fun a b => li_price_ a < li_price_ b) (GetAsks (GetOrderInfos st))
  /\ (forall i, i ∈ GetBids (GetOrderInfos st) <->
        exists q, bids_ st !! li_price_ i = Some q
                  /\ li_quantity_ i = wrap32 (sum_remaining q))
  /\ (forall i, i ∈ GetAsks (GetOrderInfos st) <->
        exists q, asks_ st !! li_price_ i = Some q
                  /\ li_quantity_ i = wrap32 (sum_remaining q))
  /\ length (GetBids (GetOrderInfos st)) = size (bids_ st)
  /\ length (GetAsks (GetOrderInfos st)) = size (asks_ st).
Proof.
  unfold GetBids, GetAsks, GetOrderInfos. simpl. repeat split.
  - apply StronglySorted_fmap. eapply StronglySorted_mono; [|apply iterate_greater_descending].
    intros [p1 q1] [p2 q2]. by rewrite !CreateLevelInfos_sum.
  - apply StronglySorted_fmap. eapply StronglySorted_mono; [|apply iterate_less_ascending].
    intros [p1 q1] [p2 q2]. by rewrite !CreateLevelInfos_sum.
  - intros ([p q] & -> & Hpq)%list_elem_of_fmap. rewrite CreateLevelInfos_sum. simpl.
    exists q. split; [by apply elem_of_iterate_greater | done].
  - intros (q & Hq & Hsum). apply list_elem_of_fmap. exists (li_price_ i, q).
    split; [|by apply elem_of_iterate_greater].
    rewrite CreateLevelInfos_sum. destruct i; simpl in *. by rewrite Hsum.
  - intros ([p q] & -> & Hpq)%list_elem_of_fmap. rewrite CreateLevelInfos_sum. simpl.
    exists q. split; [by apply elem_of_iterate_less | done].
  - intros (q & Hq & Hsum). apply list_elem_of_fmap. exists (li_price_ i, q).
    split; [|by apply elem_of_iterate_less].
    rewrite CreateLevelInfos_sum. destruct i; simpl in *. by rewrite Hsum.
  - rewrite length_fmap. unfold iterate_greater. rewrite merge_sort_Permutation.
    apply length_map_to_list.
  - rewrite length_fmap. unfold iterate_less. rewrite merge_sort_Permutation.
    apply length_map_to_list.
Qed.

(** X10.  The snapshot of a book reached from the empty book is not crossed:
    every bid level it lists is priced below every ask level it lists; and
    its first bid and first ask level are the levels [MatchOrders] reads as
    the best bid and the best ask. *)
Theorem GetOrderInfos_snapshot_is_uncrossed (st : Orderbook) :
  reachable st ->
  (forall b a, b ∈ GetBids (GetOrderInfos st) -> a ∈ GetAsks (GetOrderInfos st) ->
     li_price_ b < li_price_ a)
  /\ head (GetBids (GetOrderInfos st))
     = (fun '(price, orders) => CreateLevelInfos price orders) <$> bids_begin st
  /\ head (GetAsks (GetOrderInfos st))
     = (fun '(price, orders) => CreateLevelInfos price orders) <$> asks_begin st.
Proof.
  intros (_ & Hun & _)%reachable_inv. apply apart_uncrossed in Hun.
  unfold GetBids, GetAsks, GetOrderInfos. simpl. split; [|split].
  - intros b a ([pb qb] & -> & Hb)%list_elem_of_fmap ([pa qa] & -> & Ha)%list_elem_of_fmap.
    rewrite !CreateLevelInfos_sum. simpl.
    apply elem_of_iterate_greater in Hb. apply elem_of_iterate_less in Ha.
    by eapply Hun.
  - unfold bids_begin. rewrite <- head_iterate_greater.
    by destruct (iterate_greater (bids_ st)).
  - unfold asks_begin. rewrite <- head_iterate_less.
    by destruct (iterate_less (asks_ st)).
Qed.

Lemma GetOrderInfos_snapshot_is_uncrossed_witness :
  (forall b a, b ∈ GetBids (GetOrderInfos two_sided_book) ->
               a ∈ GetAsks (GetOrderInfos two_sided_book) ->
     li_price_ b < li_price_ a)
  /\ head (GetBids (GetOrderInfos two_sided_book))
     = (fun '(price, orders) => CreateLevelInfos price orders) <$> bids_begin two_sided_book
  /\ head (GetAsks (GetOrderInfos two_sided_book))
     = (fun '(price, orders) => CreateLevelInfos price orders) <$> asks_begin two_sided_book.
Proof.
  exact (GetOrderInfos_snapshot_is_uncrossed two_sided_book two_sided_book_reachable).
Defined.

(** ** Pruning the good-for-day orders *)

Lemma filter_agree {A} (P Q : A -> Prop) `{!forall x, Decision (P x)}
    `{!forall x, Decision (Q x)} (l : list A) :
  Forall (fun x => P x <-> Q x) l -> filter P l = filter Q l.
Proof.
  induction 1 as [|x l Hx _ IH]; [reflexivity|].
  destruct (decide (P x)) as [HP|HP].
  - rewrite !filter_cons_True by tauto. by rewrite IH.
  - rewrite !filter_cons_False by tauto. exact IH.
Qed.

Lemma CancelOrders_queues ids st st' :
  book_wf st -> CancelOrders ids st = ret st' ->
  forall s p, queue_at s p st' = filter (fun o => orderId_ o ∉ ids) (queue_at s p st).
Proof.
  revert st. induction ids as [|id ids IH]; intros st Hwf Hc s p; simpl in Hc.
  - injection Hc as <-. symmetry. apply filter_all. apply Forall_forall. intros o _. apply not_elem_of_nil.
  - destruct (CancelOrderInternal_spec st id Hwf) as (st1 & Hc1 & Hwf1 & _).
    rewrite Hc1 in Hc. cbn [mbind M_bind] in Hc.
    rewrite (IH st1 Hwf1 Hc s p), (CancelOrderInternal_queues st id st1 Hwf Hc1 s p).
    rewrite list_filter_filter. apply list_filter_iff. intros o.
    rewrite not_elem_of_cons. tauto.
Qed.

Lemma CollectGoodForDay_spec st entries acc :
  book_wf st ->
  (forall id e, (id, e) ∈ entries -> orders_ st !! id = Some e) ->
  exists ids,
    CollectGoodForDay st entries acc = ret (acc ++ ids)
    /\ forall id, id ∈ ids <->
         exists e o, (id, e) ∈ entries /\ deref st id e = ret o
                     /\ orderType_ o = GoodForDay.
Proof.
  intros Hwf. revert acc. induction entries as [|[id e] rest IH]; intros acc Hlive.
  - exists []. split; [simpl; by rewrite app_nil_r|]. intros id. split.
    + by intros ?%elem_of_nil.
    + by intros (e & o & ?%elem_of_nil & _).
  - destruct (deref_live st id e Hwf (Hlive id e ltac:(by left)))
      as (q & o & _ & _ & Hid & Hd).
    assert (forall id e, (id, e) ∈ rest -> orders_ st !! id = Some e) as Hrest
      by (intros ? ? ?; apply Hlive; by right).
    cbn [CollectGoodForDay]. rewrite Hd. unfold ret at 1. cbn [mbind M_bind].
    unfold GetOrderType, GetOrderId.
    destruct (decide (orderType_ o <> GoodForDay)) as [Hne|Heq].
    + destruct (IH acc Hrest) as (ids & -> & Hids). exists ids. split; [done|].
      intros x. rewrite Hids. split.
      * intros (e' & o' & Hin & Hd' & Ht). exists e', o'. split; [by right | done].
      * intros (e' & o' & [[= -> ->]|Hin]%elem_of_cons & Hd' & Ht).
        -- rewrite Hd in Hd'. injection Hd' as ->. done.
        -- by exists e', o'.
    + apply dec_stable in Heq.
      destruct (IH (acc ++ [orderId_ o]) Hrest) as (ids & -> & Hids).
      exists (orderId_ o :: ids). split; [by rewrite <- app_assoc|].
      intros x. rewrite elem_of_cons, Hids. split.
      * intros [->|(e' & o' & Hin & Hd' & Ht)].
        -- exists e, o. rewrite Hid. split; [by left | done].
        -- exists e', o'. split; [by right | done].
      * intros (e' & o' & [[= -> ->]|Hin]%elem_of_cons & Hd' & Ht).
        -- left. congruence.
        -- right. by exists e', o'.
Qed.

Lemma book_with_GoodForDay_reachable : reachable book_with_GoodForDay.
Proof.
  eapply (reachable_exec (DoAddOrder (NewOrder GoodTillCancel 2 Sell 101 7))).
  - eapply (reachable_exec (DoAddOrder (NewOrder GoodForDay 1 Buy 99 5))).
    + exact reachable_empty.
    + vm_compute. reflexivity.
  - vm_compute. reflexivity.
Defined.

(** X11.  A cycle of [PruneGoodForDayOrders] on a book reached from the
    empty book, whatever the sequence in which the scan visits [orders_]:
    it completes, every queue keeps exactly its orders that are not of type
    [GoodForDay], in their sequence, so that no order of that type rests
    afterwards, and the book it leaves is again one reached from the empty
    book. *)
Theorem PruneGoodForDayOrders_removes_the_GoodForDay_orders
    (st : Orderbook) (entries : list (Z * OrderEntry)) :
  reachable st ->
  entries ≡ₚ map_to_list (orders_ st) ->
  exists st',
    PruneGoodForDayOrders_cycle entries st = ret st'
    /\ (forall s p, queue_at s p st'
                    = filter (fun o => GetOrderType o <> GoodForDay) (queue_at s p st))
    /\ (forall o, o ∈ resting_orders st' -> GetOrderType o <> GoodForDay)
    /\ reachable st'.
Proof.
  intros Hreach Hperm. pose proof (reachable_inv st Hreach) as [Hwf _].
  assert (forall id e, (id, e) ∈ entries <-> orders_ st !! id = Some e) as Hentries.
  { intros id e. rewrite Hperm. apply elem_of_map_to_list. }
  destruct (CollectGoodForDay_spec st entries [] Hwf) as (ids & Hcollect & Hids).
  { intros id e. apply Hentries. }
  destruct (CancelOrders_spec ids st Hwf) as (st' & Hc & _ & _).
  assert (PruneGoodForDayOrders_cycle entries st = ret st') as Hrun.
  { unfold PruneGoodForDayOrders_cycle. rewrite Hcollect. unfold ret at 1.
    cbn [mbind M_bind]. exact Hc. }
  assert (forall s p, queue_at s p st'
            = filter (fun o => GetOrderType o <> GoodForDay) (queue_at s p st)) as Hqueues.
  { intros s p. rewrite (CancelOrders_queues ids st st' Hwf Hc s p).
    apply filter_agree. apply Forall_forall. intros o Ho. unfold queue_at in Ho.
    destruct (side_map s st !! p) as [q|] eqn:Hq; [|by apply elem_of_nil in Ho].
    simpl in Ho. destruct Hwf as [Hl Hi].
    destruct (level_entry st s p q o Hl Hq Ho) as (_ & _ & He).
    destruct (deref_live st _ _ (conj Hl Hi) He) as (q1 & o1 & Hq1 & Ho1 & Hid1 & Hd).
    simpl in Hq1. assert (o1 = o) as ->
      by exact (same_id_same_order st _ _ q1 o1 s p q o (conj Hl Hi) Hq1 Ho1 Hq Ho Hid1).
    unfold GetOrderType. rewrite Hids. split.
    - intros Hnot Ht. apply Hnot. eexists _, o. split; [by apply Hentries|]. done.
    - intros Ht (e' & o' & Hin & Hd' & Ht'). apply Hentries in Hin.
      rewrite He in Hin. injection Hin as <-. rewrite Hd in Hd'. injection Hd' as <-. done. }
  exists st'. split; [exact Hrun|]. split; [exact Hqueues|]. split.
  - intros o (s & p & q & Hq & Ho)%elem_of_resting_orders.
    specialize (Hqueues s p). unfold queue_at at 1 in Hqueues. rewrite Hq in Hqueues.
    simpl in Hqueues. rewrite Hqueues in Ho. by apply list_elem_of_filter in Ho as [? _].
  - apply (reachable_exec (DoCancelOrders ids) st [] st' Hreach). simpl. by rewrite Hc.
Qed.

Lemma PruneGoodForDayOrders_removes_the_GoodForDay_orders_witness :
  exists st',
    PruneGoodForDayOrders_cycle (map_to_list (orders_ book_with_GoodForDay))
      book_with_GoodForDay = ret st'
    /\ (forall s p, queue_at s p st'
                    = filter (fun o => GetOrderType o <> GoodForDay)
                        (queue_at s p book_with_GoodForDay))
    /\ (forall o, o ∈ resting_orders st' -> GetOrderType o <> GoodForDay)
    /\ reachable st'.
Proof.
  apply (PruneGoodForDayOrders_removes_the_GoodForDay_orders book_with_GoodForDay
           (map_to_list (orders_ book_with_GoodForDay)) book_with_GoodForDay_reachable).
  reflexivity.
Defined.

(** ** [data_] only ever holds entries that count an order *)

Lemma data_counted_delete p data : data_counted data -> data_counted (delete p data).
Proof.
  intros Hv p' d Hd. apply lookup_delete_Some in Hd as [_ Hd]. by eapply Hv.
Qed.

Lemma UpdateLevelData_counted price quantity action data :
  data_counted data -> data_counted (UpdateLevelData price quantity action data).
Proof.
  intros Hv. unfold UpdateLevelData.
  destruct (_ =? 0) eqn:Ez; [by apply data_counted_delete|].
  intros p d Hd. apply lookup_insert_Some in Hd as [[_ <-]|[_ Hd]]; [|by eapply Hv].
  apply Z.eqb_neq in Ez. cbn [LevelData.count_].
  pose proof (wrap32_valid (LevelData.count_ (default (LevelData.mk 0 0) (data !! price)) +
            match action with
            | LevelData.Remove => -1
            | LevelData.Add => 1
            | LevelData.Match => 0
            end)) as Hr.
  unfold valid_quantity in Hr. lia.
Qed.

Lemma MatchLevel_data_counted fuel s s' :
  data_counted (ls_data s) -> MatchLevel fuel s = ret s' -> data_counted (ls_data s').
Proof.
  revert s. induction fuel as [|fuel IH]; intros [bids asks orders data trades] Hv Hrun.
  all: destruct bids as [|bid bids]; [by injection Hrun as <-|].
  all: destruct asks as [|ask asks]; [by injection Hrun as <-|].
  - discriminate Hrun.
  - rewrite MatchLevel_round in Hrun. apply IH in Hrun; [done|].
    cbn [ls_data]. unfold OnOrderMatched. by do 2 apply UpdateLevelData_counted.
Qed.

Lemma EraseEmptyLevels_data_counted bp ap s st :
  data_counted (ls_data s) -> data_counted (data_ (EraseEmptyLevels bp ap s st)).
Proof.
  intros Hv. unfold EraseEmptyLevels.
  destruct (is_nil (ls_bids s)), (is_nil (ls_asks s)); simpl;
    repeat apply data_counted_delete; done.
Qed.

Lemma MatchLoop_data_counted fuel st trades trades' st' :
  data_counted (data_ st) -> MatchLoop fuel st trades = ret (trades', st') ->
  data_counted (data_ st').
Proof.
  revert st trades. induction fuel as [|fuel IH]; intros st trades Hv Hrun.
  all: simpl in Hrun.
  all: destruct (bids_begin st) as [[bp bq]|]; [|by injection Hrun as _ <-].
  all: destruct (asks_begin st) as [[ap aq]|]; [|by injection Hrun as _ <-].
  all: destruct (bp <? ap); [by injection Hrun as _ <-|].
  - discriminate Hrun.
  - destruct (MatchLevel (length bq + length aq)
                (mkLevelState bq aq (orders_ st) (data_ st) trades)) as [e|s'] eqn:El;
      [discriminate Hrun|].
    cbn [mbind M_bind] in Hrun. apply IH in Hrun; [done|].
    apply EraseEmptyLevels_data_counted.
    exact (MatchLevel_data_counted _ (mkLevelState bq aq (orders_ st) (data_ st) trades) _ Hv El).
Qed.

Lemma CancelOrderInternal_data_counted id st st' :
  data_counted (data_ st) -> CancelOrderInternal id st = ret st' -> data_counted (data_ st').
Proof.
  intros Hv. unfold CancelOrderInternal.
  destruct (orders_ st !! id) as [e|]; [|by intros [= <-]].
  destruct (deref st id e) as [err|o]; [discriminate|]. cbn [mbind M_bind].
  destruct (GetSide o).
  - destruct (erase_from_level _ _ _) as [err|b]; [discriminate|].
    cbn [mbind M_bind]. intros [= <-]. simpl. by apply UpdateLevelData_counted.
  - destruct (erase_from_level _ _ _) as [err|a]; [discriminate|].
    cbn [mbind M_bind]. intros [= <-]. simpl. by apply UpdateLevelData_counted.
Qed.

Lemma CancelOrders_data_counted ids st st' :
  data_counted (data_ st) -> CancelOrders ids st = ret st' -> data_counted (data_ st').
Proof.
  revert st. induction ids as [|id ids IH]; intros st Hv; simpl; [by intros [= <-]|].
  destruct (CancelOrderInternal id st) as [e|st1] eqn:Ec; [discriminate|].
  cbn [mbind M_bind]. apply IH. by eapply CancelOrderInternal_data_counted.
Qed.

Lemma CancelFillAndKillHead_data_counted t st st' :
  data_counted (data_ st) -> CancelFillAndKillHead t st = ret st' -> data_counted (data_ st').
Proof.
  intros Hv. unfold CancelFillAndKillHead.
  destruct t as [[p [|o q]]|]; [discriminate| |by intros [= <-]].
  destruct (decide _); [by rewrite CancelOrder_holding_true | by intros [= <-]].
Qed.

Lemma MatchOrders_data_counted st trades st' :
  data_counted (data_ st) -> MatchOrders st = ret (trades, st') -> data_counted (data_ st').
Proof.
  intros Hv. unfold MatchOrders.
  destruct (MatchLoop _ st []) as [e|[tr st1]] eqn:El; [discriminate|].
  cbn [mbind M_bind].
  destruct (CancelFillAndKillHead (bids_begin st1) st1) as [e|st2] eqn:E2; [discriminate|].
  cbn [mbind M_bind].
  destruct (CancelFillAndKillHead (asks_begin st2) st2) as [e|st3] eqn:E3; [discriminate|].
  cbn [mbind M_bind]. intros [= _ <-].
  eapply CancelFillAndKillHead_data_counted; [|exact E3].
  eapply CancelFillAndKillHead_data_counted; [|exact E2].
  by eapply MatchLoop_data_counted.
Qed.

Lemma AddOrder_data_counted o st trades st' :
  data_counted (data_ st) -> AddOrder o st = ret (trades, st') -> data_counted (data_ st').
Proof.
  intros Hv. unfold AddOrder.
  destruct (decide _); [by intros [= _ <-]|].
  destruct (ConvertMarket o st) as [e|[o'|]]; [discriminate| |by intros [= _ <-]].
  cbn [mbind M_bind].
  destruct (_ && _); [by intros [= _ <-]|].
  destruct (_ && _); [by intros [= _ <-]|].
  apply MatchOrders_data_counted.
  rewrite data_PlaceOrder. by apply UpdateLevelData_counted.
Qed.

Lemma exec_data_counted c st trades st' :
  data_counted (data_ st) -> exec c st = ret (trades, st') -> data_counted (data_ st').
Proof.
  intros Hv. destruct c as [o|id|m|ids]; simpl.
  - by apply AddOrder_data_counted.
  - unfold CancelOrder. destruct (CancelOrderInternal id st) as [e|st1] eqn:Ec; [discriminate|].
    cbn [mbind M_bind]. intros [= _ <-]. by eapply CancelOrderInternal_data_counted.
  - unfold ModifyOrder. destruct (orders_ st !! mod_orderId_ m); [|by intros [= _ <-]].
    destruct (deref _ _ _); [discriminate|]. cbn [mbind M_bind].
    unfold CancelOrder. destruct (CancelOrderInternal _ st) as [e|st1] eqn:Ec; [discriminate|].
    cbn [mbind M_bind]. apply AddOrder_data_counted. by eapply CancelOrderInternal_data_counted.
  - destruct (CancelOrders ids st) as [e|st1] eqn:Ec; [discriminate|].
    cbn [mbind M_bind]. intros [= _ <-]. by eapply CancelOrders_data_counted.
Qed.

Lemma reachable_data_counted st : reachable st -> data_counted (data_ st).
Proof.
  induction 1 as [|c st trades st' _ IH Hexec].
  - intros p d Hd. simpl in Hd. rewrite lookup_empty in Hd. discriminate.
  - by eapply exec_data_counted.
Qed.

(** X12.  An entry of [data_] is erased as soon as its count reaches zero:
    on every book reached from the empty book, each entry of [data_] counts
    at least one order, and its count and its quantity are values of their
    32-bit types. *)
Theorem level_data_entries_count_an_order (st : Orderbook) :
  reachable st ->
  forall p d, data_ st !! p = Some d ->
    0 < LevelData.count_ d < UINT32_MOD /\ valid_quantity (LevelData.quantity_ d).
Proof.
  intros Hreach p d Hd. split.
  - by eapply reachable_data_counted.
  - by eapply reachable_data_valid.
Qed.

Lemma level_data_entries_count_an_order_witness :
  data_ two_sided_book !! 99 = Some (LevelData.mk 5 1)
  /\ 0 < LevelData.count_ (LevelData.mk 5 1) < UINT32_MOD
  /\ valid_quantity (LevelData.quantity_ (LevelData.mk 5 1)).
Proof.
  assert (data_ two_sided_book !! 99 = Some (LevelData.mk 5 1)) as Hd by reflexivity.
  split; [exact Hd|].
  exact (level_data_entries_count_an_order two_sided_book two_sided_book_reachable _ _ Hd).
Defined.

(** ** Adding an order that rests, and cancelling it *)

Lemma UpdateLevelData_Add_Remove price quantity data :
  (forall d, data !! price = Some d ->
     0 < LevelData.count_ d < UINT32_MOD - 1 /\ valid_quantity (LevelData.quantity_ d)) ->
  UpdateLevelData price quantity LevelData.Remove
    (UpdateLevelData price quantity LevelData.Add data) = data.
Proof.
  intros Hd. unfold UpdateLevelData at 2.
  destruct (data !! price) as [[q c]|] eqn:E; cbn [from_option id LevelData.count_ LevelData.quantity_].
  - destruct (Hd _ eq_refl) as [Hc Hq]. cbn [LevelData.count_ LevelData.quantity_] in Hc, Hq.
    unfold valid_quantity in Hq.
    assert (wrap32 (c + 1) = c + 1) as ->
      by (unfold wrap32; apply Z.mod_small; unfold UINT32_MOD in *; lia).
    destruct (c + 1 =? 0) eqn:Ez; [apply Z.eqb_eq in Ez; lia|].
    unfold UpdateLevelData. rewrite lookup_insert_eq.
    cbn [from_option id LevelData.count_ LevelData.quantity_].
    assert (wrap32 (c + 1 + -1) = c) as ->
      by (unfold wrap32; replace (c + 1 + -1) with c by lia; apply Z.mod_small;
          unfold UINT32_MOD in *; lia).
    destruct (c =? 0) eqn:Ez'; [apply Z.eqb_eq in Ez'; lia|].
    rewrite insert_insert_eq. apply insert_id. rewrite E. do 2 f_equal.
    unfold wrap32. rewrite Zminus_mod_idemp_l.
    replace (q + quantity - quantity) with q by lia. symmetry. by apply Z.mod_small.
  - change (wrap32 (0 + 1)) with 1. cbn [Z.eqb].
    unfold UpdateLevelData. rewrite lookup_insert_eq.
    cbn [from_option id LevelData.count_ LevelData.quantity_].
    change (wrap32 (1 + -1)) with 0. cbn [Z.eqb].
    by apply delete_insert_id.
Qed.

Lemma find_node_snoc id q o :
  id ∉ orderId_ <$> q -> orderId_ o = id -> find_node id (q ++ [o]) = Some o.
Proof.
  intros Hq Ho. induction q as [|x q IH]; simpl.
  - by rewrite decide_True.
  - rewrite fmap_cons, not_elem_of_cons in Hq. destruct Hq as [Hx Hq].
    rewrite decide_False by congruence. by apply IH.
Qed.

Lemma erase_node_snoc id q o :
  id ∉ orderId_ <$> q -> orderId_ o = id -> erase_node id (q ++ [o]) = q.
Proof.
  intros Hq Ho. induction q as [|x q IH]; simpl.
  - by rewrite decide_True.
  - rewrite fmap_cons, not_elem_of_cons in Hq. destruct Hq as [Hx Hq].
    rewrite decide_False by congruence. by rewrite IH.
Qed.

Lemma put_level_push_back o (levels : gmap Z (list Order)) :
  levels !! price_ o <> Some [] ->
  put_level (price_ o) (default [] (levels !! price_ o)) (push_back_level o levels) = levels.
Proof.
  intros Hne. unfold put_level, push_back_level, GetPrice.
  destruct (levels !! price_ o) as [[|x q]|] eqn:E; [done| |]; simpl.
  - rewrite insert_insert_eq. by apply insert_id.
  - by apply delete_insert_id.
Qed.

(** X13.  Adding an order that rests and cancelling it gives the book back.
    On a book reached from the empty book, a good-till-cancel or
    good-for-day order with a fresh id whose price does not cross is added
    without a trade, at the tail of the queue of its side and price; and
    cancelling it afterwards restores the book, level data included, as long
    as the count of the level data at its price is not at the top of its
    32-bit range. *)
Theorem resting_order_added_then_cancelled_restores_the_book
    (st : Orderbook) (type : OrderType) (id : OrderId) (side : Side)
    (price : Price) (quantity : Quantity) :
  reachable st ->
  orders_ st !! id = None ->
  type = GoodTillCancel \/ type = GoodForDay ->
  CanMatch st side price = false ->
  (forall d, data_ st !! price = Some d -> LevelData.count_ d <> UINT32_MOD - 1) ->
  exists st1,
    AddOrder (NewOrder type id side price quantity) st = ret ([], st1)
    /\ queue_at side price st1
       = queue_at side price st ++ [NewOrder type id side price quantity]
    /\ CancelOrder id st1 = ret st.
Proof.
  intros Hreach Hfresh Htype Hcan Hcount.
  pose proof (reachable_data_counted st Hreach) as Hcounted.
  pose proof (reachable_data_valid st Hreach) as Hvalid.
  apply reachable_inv in Hreach. destruct Hreach as (Hwf & Hun & Hno).
  set (o := NewOrder type id side price quantity).
  assert (book_wf (PlaceOrder o st)) as Hwf1 by (by apply PlaceOrder_wf).
  exists (PlaceOrder o st). split; [|split].
  - unfold AddOrder. rewrite decide_False by (simpl; rewrite Hfresh; by intros [? ?]).
    unfold ConvertMarket. rewrite decide_False by (simpl; destruct Htype; by subst).
    unfold ret. cbn [mbind M_bind].
    rewrite (bool_decide_eq_false_2 (GetOrderType o = FillAndKill))
      by (simpl; destruct Htype; by subst).
    rewrite (bool_decide_eq_false_2 (GetOrderType o = FillOrKill))
      by (simpl; destruct Htype; by subst).
    cbn [andb]. apply MatchOrders_idle; [done| |].
    + apply apart_uncrossed. apply PlaceOrder_apart; [by apply apart_uncrossed | done].
    + intros s p q x Hq Hx.
      destruct (PlaceOrder_elem o st s p q x Hq Hx) as [->|(q0 & Hq0 & Hx0)].
      * simpl. destruct Htype; by subst.
      * by eapply Hno.
  - unfold queue_at. rewrite lookup_PlaceOrder. simpl. rewrite decide_True by done.
    by destruct (side_map side st !! price).
  - assert (id ∉ orderId_ <$> default [] (side_map side st !! price)) as Hnotin.
    { destruct (side_map side st !! price) as [q|] eqn:Hq; [|apply not_elem_of_nil].
      simpl. intros Hin. destruct Hwf as [Hl _].
      pose proof (level_entry_id st side price q id Hl Hq Hin). congruence. }
    assert (orders_ (PlaceOrder o st) !! id = Some (mkOrderEntry side price)) as He
      by (rewrite orders_PlaceOrder; simpl; apply lookup_insert_eq).
    destruct (CancelOrderInternal_live _ id _ Hwf1 He) as (q & x & Hq & Hf & Hc).
    cbn [entry_side_ entry_price_] in Hq, Hc.
    rewrite lookup_PlaceOrder in Hq. simpl in Hq. rewrite decide_True in Hq by done.
    injection Hq as <-.
    rewrite (find_node_snoc id _ o Hnotin eq_refl) in Hf. injection Hf as <-.
    unfold CancelOrder. rewrite Hc. f_equal.
    rewrite (erase_node_snoc id _ o Hnotin eq_refl).
    assert (put_level price (default [] (side_map side st !! price))
              (side_map side (PlaceOrder o st)) = side_map side st) as ->.
    { rewrite side_map_PlaceOrder. simpl. rewrite decide_True by done.
      apply (put_level_push_back o). simpl. intros Hq. destruct Hwf as [Hl _].
      by destruct (Hl side price [] Hq) as [? _]. }
    assert (remove_ids [id] (orders_ (PlaceOrder o st)) = orders_ st) as ->.
    { rewrite orders_PlaceOrder. simpl. by apply delete_insert_id. }
    assert (OnOrderCancelled o (data_ (PlaceOrder o st)) = data_ st) as ->.
    { rewrite data_PlaceOrder. apply UpdateLevelData_Add_Remove.
      intros d Hd. simpl in Hd. specialize (Hcount d Hd).
      specialize (Hcounted price d Hd). specialize (Hvalid price d Hd).
      split; [lia | done]. }
    destruct st, side; reflexivity.
Qed.

Lemma resting_order_added_then_cancelled_restores_the_book_witness :
  exists st1,
    AddOrder (NewOrder GoodTillCancel 3 Buy 99 4) two_sided_book = ret ([], st1)
    /\ queue_at Buy 99 st1
       = queue_at Buy 99 two_sided_book ++ [NewOrder GoodTillCancel 3 Buy 99 4]
    /\ CancelOrder 3 st1 = ret two_sided_book.
Proof.
  apply (resting_order_added_then_cancelled_restores_the_book two_sided_book
           GoodTillCancel 3 Buy 99 4 two_sided_book_reachable).
  - reflexivity.
  - by left.
  - reflexivity.
  - intros d Hd. vm_compute in Hd. injection Hd as <-. vm_compute. discriminate.
Defined.

(** * The reader of the test scripts *)

Section Split.

Import OrderbookTests.

Local Open Scope nat_scope.

Lemma append_cons (c : ascii) (s t : string) :
  (String c s ++ t)%string = String c (s ++ t)%string.
Proof. reflexivity. Qed.

Lemma append_nil_l (s : string) : (EmptyString ++ s)%string = s.
Proof. reflexivity. Qed.

Ltac sapp := rewrite ?append_cons, ?append_nil_l.

Lemma length_append (s1 s2 : string) :
  String.length (s1 ++ s2) = String.length s1 + String.length s2.
Proof. induction s1 as [|c s1 IH]; sapp; simpl; [done | by rewrite IH]. Qed.

Lemma append_assoc (s1 s2 s3 : string) : ((s1 ++ s2) ++ s3 = s1 ++ (s2 ++ s3))%string.
Proof. induction s1 as [|c s1 IH]; sapp; [done | by rewrite IH]. Qed.

Lemma substring_whole (s : string) : substring 0 (String.length s) s = s.
Proof. induction s as [|c s IH]; simpl; [done | by rewrite IH]. Qed.

Lemma substring_prefix (s1 s2 : string) :
  substring 0 (String.length s1) (s1 ++ s2) = s1.
Proof.
  induction s1 as [|c s1 IH]; sapp; simpl; [by destruct s2 | by rewrite IH].
Qed.

Lemma substring_skip (pre s : string) (n m : nat) :
  substring (String.length pre + n) m (pre ++ s) = substring n m s.
Proof. induction pre as [|c pre IH]; sapp; simpl; [done | exact IH]. Qed.

Lemma find_skip (pre s : string) (d : ascii) (n : nat) :
  find (pre ++ s) d (String.length pre + n) = (fun e => String.length pre + e) <$> find s d n.
Proof.
  induction pre as [|c pre IH]; sapp; simpl.
  - by destruct (find s d n).
  - rewrite IH. by destruct (find s d n).
Qed.

Lemma find_None (s : string) (d : ascii) :
  find s d 0 = None -> split_on d s = [s].
Proof.
  induction s as [|c s IH]; simpl; [done|].
  destruct (decide (c = d)); [done|].
  destruct (find s d 0); [done|]. intros _. by rewrite IH.
Qed.

Lemma find_Some (s : string) (d : ascii) (e : nat) :
  find s d 0 = Some e ->
  exists column rest,
    s = (column ++ String d rest)%string
    /\ String.length column = e
    /\ find column d 0 = None
    /\ split_on d s = column :: split_on d rest.
Proof.
  revert e. induction s as [|c s IH]; intros e; simpl; [done|].
  destruct (decide (c = d)) as [->|Hne].
  - intros [= <-]. by exists EmptyString, s.
  - destruct (find s d 0) as [e'|] eqn:E; [|done]. intros [= <-].
    destruct (IH e' eq_refl) as (column & rest & -> & Hlen & Hnone & Hsplit).
    exists (String c column), rest. sapp. simpl. rewrite Hlen, Hnone, Hsplit.
    rewrite decide_False by done. done.
Qed.

Lemma substring_skip0 (pre s : string) (m : nat) :
  substring (String.length pre) m (pre ++ s) = substring 0 m s.
Proof. rewrite <- (substring_skip pre s 0 m). by rewrite Nat.add_0_r. Qed.

Lemma find_skip0 (pre s : string) (d : ascii) :
  find (pre ++ s) d (String.length pre) = (fun e => String.length pre + e) <$> find s d 0.
Proof. rewrite <- (find_skip pre s d 0). by rewrite Nat.add_0_r. Qed.

Lemma Split_loop_columns (fuel : nat) (pre suf : string) (d : ascii) (columns : list string) :
  String.length suf <= fuel ->
  pre <> EmptyString \/ ~ begins_with d suf ->
  Split_loop fuel (pre ++ suf) d (String.length pre) columns
  = ret (columns ++ split_on d suf).
Proof.
  revert pre suf columns. induction fuel as [|fuel IH]; intros pre suf columns Hfuel Hstart.
  all: destruct (find suf d 0) as [e|] eqn:E.
  all: try (unfold Split_loop; rewrite find_skip0, E; cbn [fmap option_fmap option_map];
            unfold substr_from, substr;
            rewrite decide_False by (rewrite length_append; lia);
            unfold ret at 1; cbn [mbind M_bind];
            rewrite length_append;
            replace (String.length pre + String.length suf - String.length pre)
              with (String.length suf) by lia;
            rewrite substring_skip0, substring_whole;
            by rewrite (find_None _ _ E)).
  - destruct (find_Some _ _ _ E) as (column & rest & -> & _ & _ & _).
    rewrite length_append in Hfuel. simpl in Hfuel. lia.
  - destruct (find_Some _ _ _ E) as (column & rest & -> & Hlen & Hnone & Hsplit).
    cbn [Split_loop]. rewrite find_skip0, E. cbn [fmap option_fmap option_map].
    destruct (String.length pre + e) as [|k] eqn:Ek.
    { exfalso. destruct Hstart as [Hpre|Hsuf].
      - destruct pre; [done | simpl in Ek; lia].
      - apply Hsuf. destruct column; [by eexists | simpl in Hlen; lia]. }
    rewrite <- Ek. unfold substr.
    rewrite decide_False by (rewrite length_append; lia).
    unfold ret at 1. cbn [mbind M_bind].
    replace (String.length pre + e - String.length pre) with e by lia.
    rewrite substring_skip0, <- Hlen, substring_prefix.
    replace (String.length pre + String.length column + 1)
      with (String.length (pre ++ column ++ String d EmptyString)%string)
      by (rewrite !length_append; simpl; lia).
    replace (pre ++ column ++ String d rest)%string
      with ((pre ++ column ++ String d EmptyString) ++ rest)%string
      by (rewrite !append_assoc; reflexivity).
    rewrite IH.
    + by rewrite Hsplit, <- app_assoc.
    + rewrite length_append in Hfuel. simpl in Hfuel. lia.
    + left. destruct pre; [destruct column|]; done.
Qed.

Lemma split_on_cons (d : ascii) (s : string) :
  exists column columns, split_on d s = column :: columns.
Proof.
  induction s as [|c s (column & columns & IH)]; simpl; [by eexists _, _|].
  destruct (decide (c = d)); [by eexists _, _|]. rewrite IH. by eexists _, _.
Qed.

Lemma join_cons (d : ascii) (column column' : string) (columns : list string) :
  join d (column :: column' :: columns)
  = (column ++ String d (join d (column' :: columns)))%string.
Proof. reflexivity. Qed.

Lemma join_split_on (d : ascii) (s : string) : join d (split_on d s) = s.
Proof.
  induction s as [|c s IH]; [reflexivity|]. cbn [split_on].
  destruct (split_on_cons d s) as (column & columns & E). rewrite E in *.
  destruct (decide (c = d)) as [->|Hne].
  - rewrite join_cons, IH. reflexivity.
  - destruct columns as [|column' columns].
    + simpl in *. by rewrite IH.
    + rewrite join_cons in *. sapp. by rewrite IH.
Qed.

Lemma split_on_no_delimeter (d : ascii) (s : string) :
  Forall (fun column => ~ occurs d column) (split_on d s).
Proof.
  unfold occurs. induction s as [|c s IH]; cbn [split_on].
  - constructor; [|constructor]. simpl. by intros [? ?].
  - destruct (decide (c = d)) as [->|Hne].
    + constructor; [|done]. simpl. by intros [? ?].
    + destruct (split_on_cons d s) as (column & columns & E). rewrite E in *.
      apply Forall_cons in IH as [Hc Hcs]. constructor; [|done].
      simpl. rewrite decide_False by done. intros [? Hf]. apply Hc.
      destruct (find column d 0); [by eexists | discriminate].
Qed.

Lemma split_on_column (d : ascii) (column rest : string) :
  ~ occurs d column ->
  split_on d (column ++ String d rest) = column :: split_on d rest.
Proof.
  unfold occurs. induction column as [|c column IH]; intros Hno; sapp; simpl.
  - by rewrite decide_True.
  - simpl in Hno. destruct (decide (c = d)) as [->|Hne]; [exfalso; apply Hno; by eexists|].
    rewrite IH; [done|]. intros [e He]. apply Hno. rewrite He. by eexists.
Qed.

Lemma split_on_join (d : ascii) (columns : list string) :
  columns <> [] ->
  Forall (fun column => ~ occurs d column) columns ->
  split_on d (join d columns) = columns.
Proof.
  intros Hne Hall. induction Hall as [|column columns Hc Hcs IH]; [done|].
  destruct columns as [|column' columns].
  - simpl. apply find_None. unfold occurs in Hc.
    destruct (find column d 0); [exfalso; apply Hc; by eexists | done].
  - rewrite join_cons, split_on_column by done. by rewrite IH.
Qed.

Lemma Split_split_on (str : string) (d : ascii) :
  ~ begins_with d str -> Split str d = ret (split_on d str).
Proof.
  intros Hb. unfold Split.
  exact (Split_loop_columns (String.length str) EmptyString str d [] (le_n _) (or_intror Hb)).
Qed.

Lemma Split_begins_with (str : string) (d : ascii) :
  begins_with d str -> Split str d = ret [str].
Proof.
  intros [rest ->]. unfold Split. cbn [String.length Split_loop find].
  rewrite decide_True by done. unfold substr_from, substr.
  rewrite decide_False by lia. unfold ret at 1. cbn [mbind M_bind].
  rewrite Nat.sub_0_r. by rewrite substring_whole.
Qed.

Lemma begins_with_dec (d : ascii) (str : string) : begins_with d str \/ ~ begins_with d str.
Proof.
  destruct str as [|c rest]; [right; by intros [? ?]|].
  destruct (decide (c = d)) as [->|Hne]; [left; by eexists|].
  right. intros [? [= ? _]]. done.
Qed.

End Split.

(** X14.  [Split] never fails and loses no character: its columns, put
    together with the delimiter between them, are the string.  When the
    string does not begin with the delimiter, no column holds the
    delimiter; when it does, the loop stops at once and the string is the
    one column. *)
Theorem Split_columns_join_back (str : string) (delimeter : ascii) :
  exists columns,
    OrderbookTests.Split str delimeter = ret columns
    /\ OrderbookTests.join delimeter columns = str
    /\ (OrderbookTests.begins_with delimeter str -> columns = [str])
    /\ (~ OrderbookTests.begins_with delimeter str ->
        Forall (fun column => ~ OrderbookTests.occurs delimeter column) columns).
Proof.
  destruct (begins_with_dec delimeter str) as [Hb|Hb].
  - exists [str]. split; [by apply Split_begins_with|]. split; [reflexivity|].
    split; [done|]. intros Hnb. done.
  - exists (OrderbookTests.split_on delimeter str).
    split; [by apply Split_split_on|]. split; [apply join_split_on|].
    split; [done|]. intros _. apply split_on_no_delimeter.
Qed.

(** X15.  [Split] gives back the columns a line was put together from:
    when no column holds the delimiter and the line does not begin with
    it, the columns of the joined line are the columns. *)
Theorem Split_of_joined_columns (delimeter : ascii) (columns : list string) :
  columns <> [] ->
  Forall (fun column => ~ OrderbookTests.occurs delimeter column) columns ->
  ~ OrderbookTests.begins_with delimeter (OrderbookTests.join delimeter columns) ->
  OrderbookTests.Split (OrderbookTests.join delimeter columns) delimeter = ret columns.
Proof.
  intros Hne Hall Hb. rewrite Split_split_on by done. by rewrite split_on_join.
Qed.

Lemma Split_of_joined_columns_witness :
  OrderbookTests.Split
    (OrderbookTests.join " "%char ["C"%string; "1"%string]) " "%char
  = ret ["C"%string; "1"%string].
Proof.
  apply (Split_of_joined_columns " "%char ["C"%string; "1"%string]).
  - discriminate.
  - repeat constructor; vm_compute; by intros [? ?].
  - vm_compute. intros [? ?]. discriminate.
Defined.

Section Lines.

Import OrderbookTests.

Lemma Split_line (first : string) (columns : list string) :
  first <> EmptyString ->
  Forall (fun column => ~ occurs " "%char column) (first :: columns) ->
  Split (join " "%char (first :: columns)) " "%char = ret (first :: columns).
Proof.
  intros Hfirst Hall. rewrite Split_split_on.
  - by rewrite split_on_join.
  - apply Forall_cons in Hall as [Hf _]. intros [rest Hb].
    destruct first as [|c first]; [done|].
    destruct columns as [|column columns].
    + simpl in Hb. injection Hb as -> _. apply Hf. unfold occurs. simpl. by eexists.
    + rewrite join_cons, append_cons in Hb. injection Hb as -> _.
      apply Hf. unfold occurs. simpl. by eexists.
Qed.

Lemma at0_join (c : ascii) (columns : list string) :
  at0 (join " "%char (String c EmptyString :: columns)) = ret c.
Proof. destruct columns; [reflexivity|]. by rewrite join_cons, append_cons. Qed.

End Lines.

(** X16.  The three shapes of an action line.  With columns that hold no
    blank, [TryParseInformation] reads after [A] the side, the order type,
    the price, the quantity and the id, after [M] the id, the side, the
    price and the quantity, and after [C] the id, each with its parser and
    in this sequence; columns after these are not read.  A line has at
    least the columns its letter reads: five after [A], four after [M], one
    after [C]. *)
Theorem TryParseInformation_reads_the_columns_of_a_line
    (c1 c2 c3 c4 c5 : string) (more : list string) :
  (Forall (fun column => ~ OrderbookTests.occurs " "%char column)
     (c1 :: c2 :: c3 :: c4 :: c5 :: more) ->
   OrderbookTests.TryParseInformation
     (OrderbookTests.join " "%char ("A"%string :: c1 :: c2 :: c3 :: c4 :: c5 :: more))
   = (side ← OrderbookTests.ParseSide c1;
      orderType ← OrderbookTests.ParseOrderType c2;
      price ← InputHandler.ParsePrice c3;
      quantity ← InputHandler.ParseQuantity c4;
      orderId ← InputHandler.ParseOrderId c5;
      ret (Some (OrderbookTests.mkInformation OrderbookTests.Add (Some orderType)
                   (Some side) (Some price) (Some quantity) (Some orderId)))))
  /\ (Forall (fun column => ~ OrderbookTests.occurs " "%char column)
        (c1 :: c2 :: c3 :: c4 :: more) ->
      OrderbookTests.TryParseInformation
        (OrderbookTests.join " "%char ("M"%string :: c1 :: c2 :: c3 :: c4 :: more))
      = (orderId ← InputHandler.ParseOrderId c1;
         side ← OrderbookTests.ParseSide c2;
         price ← InputHandler.ParsePrice c3;
         quantity ← InputHandler.ParseQuantity c4;
         ret (Some (OrderbookTests.mkInformation OrderbookTests.Modify None
                      (Some side) (Some price) (Some quantity) (Some orderId)))))
  /\ (Forall (fun column => ~ OrderbookTests.occurs " "%char column) (c1 :: more) ->
      OrderbookTests.TryParseInformation
        (OrderbookTests.join " "%char ("C"%string :: c1 :: more))
      = (orderId ← InputHandler.ParseOrderId c1;
         ret (Some (OrderbookTests.mkInformation OrderbookTests.Cancel None None None None
                      (Some orderId))))).
Proof.
  assert (forall (c : ascii) (columns : list string),
            c <> " "%char ->
            Forall (fun column => ~ OrderbookTests.occurs " "%char column) columns ->
            OrderbookTests.Split
              (OrderbookTests.join " "%char (String c EmptyString :: columns)) " "%char
            = ret (String c EmptyString :: columns)) as Hsplit.
  { intros c columns Hc Hall. apply Split_line; [done|]. constructor; [|done].
    unfold OrderbookTests.occurs. simpl. rewrite decide_False by done. by intros [? ?]. }
  split; [|split]; intros Hall.
  all: unfold OrderbookTests.TryParseInformation; rewrite at0_join.
  all: rewrite Hsplit by first [exact Hall | done]; unfold ret; cbn [mbind M_bind].
  - rewrite (decide_True (P := ("A"%char = "A"%char))) by done.
    unfold OrderbookTests.subscript. cbn [lookup list_lookup]. unfold ret.
    cbn [mbind M_bind]. done.
  - rewrite (decide_False (P := ("M"%char = "A"%char))) by done.
    rewrite (decide_True (P := ("M"%char = "M"%char))) by done.
    unfold OrderbookTests.subscript. cbn [lookup list_lookup]. unfold ret.
    cbn [mbind M_bind]. done.
  - rewrite (decide_False (P := ("C"%char = "A"%char))) by done.
    rewrite (decide_False (P := ("C"%char = "M"%char))) by done.
    rewrite (decide_True (P := ("C"%char = "C"%char))) by done.
    unfold OrderbookTests.subscript. cbn [lookup list_lookup]. unfold ret.
    cbn [mbind M_bind]. done.
Qed.

Lemma TryParseInformation_reads_the_columns_of_a_line_witness :
  OrderbookTests.TryParseInformation "A B GoodTillCancel 100 10 1"%string
  = ret (Some (OrderbookTests.mkInformation OrderbookTests.Add (Some GoodTillCancel)
                 (Some Buy) (Some 100) (Some 10) (Some 1)))
  /\ OrderbookTests.TryParseInformation "M 1 S 101 5"%string
     = ret (Some (OrderbookTests.mkInformation OrderbookTests.Modify None
                    (Some Sell) (Some 101) (Some 5) (Some 1)))
  /\ OrderbookTests.TryParseInformation "C 1"%string
     = ret (Some (OrderbookTests.mkInformation OrderbookTests.Cancel None None None None
                    (Some 1))).
Proof.
  split; [|split].
  - refine (eq_trans (proj1 (TryParseInformation_reads_the_columns_of_a_line
              "B"%string "GoodTillCancel"%string "100"%string "10"%string "1"%string []) _) _).
    + repeat constructor; vm_compute; by intros [? ?].
    + vm_compute. reflexivity.
  - refine (eq_trans (proj1 (proj2 (TryParseInformation_reads_the_columns_of_a_line
              "1"%string "S"%string "101"%string "5"%string EmptyString [])) _) _).
    + repeat constructor; vm_compute; by intros [? ?].
    + vm_compute. reflexivity.
  - refine (eq_trans (proj2 (proj2 (TryParseInformation_reads_the_columns_of_a_line
              "1"%string EmptyString EmptyString EmptyString EmptyString [])) _) _).
    + repeat constructor; vm_compute; by intros [? ?].
    + vm_compute. reflexivity.
Defined.

Section GetInformations.

Import OrderbookTests.

Local Abbreviation newline := "010"%char.

Lemma append_nil_r (s : string) : (s ++ EmptyString)%string = s.
Proof. induction s as [|c s IH]; [done|]. by rewrite append_cons, IH. Qed.

Lemma not_occurs_snoc (d c : ascii) (s : string) :
  ~ occurs d s -> c <> d -> ~ occurs d (s ++ String c EmptyString).
Proof.
  unfold occurs. induction s as [|x s IH]; intros Hs Hc.
  - rewrite append_nil_l. simpl. rewrite decide_False by done. by intros [? ?].
  - rewrite append_cons. simpl in *. destruct (decide (x = d)); [exfalso; apply Hs; by eexists|].
    intros [e He]. apply IH; [|done|].
    + intros [e' He']. apply Hs. rewrite He'. by eexists.
    + destruct (find (s ++ String c EmptyString) d 0); [by eexists | discriminate].
Qed.

Lemma getlines_shape (content line : string) :
  ~ occurs newline line ->
  exists lines last,
    (line ++ content)%string = (unlines lines ++ last)%string
    /\ ~ occurs newline last
    /\ getlines content line
       = ((fun l => (l, false)) <$> lines)
         ++ (if decide (last = EmptyString) then [] else [(last, true)])
    /\ forall rest,
         getlines (content ++ String newline rest) line
         = ((fun l => (l, false)) <$> lines) ++ (last, false) :: getlines rest EmptyString.
Proof.
  revert line. induction content as [|c content IH]; intros line Hline.
  - exists [], line. rewrite append_nil_r. split; [done|]. split; [done|]. split.
    + simpl. by destruct line.
    + intros rest. rewrite append_nil_l. simpl. by rewrite ?decide_True by done.
  - destruct (decide (c = newline)) as [->|Hc].
    + destruct (IH EmptyString) as (lines & last & Heq & Hlast & Hlines & Hrest).
      { unfold occurs. simpl. by intros [? ?]. }
      exists (line :: lines), last. rewrite append_nil_l in Heq.
      split; [simpl; by rewrite append_assoc, append_cons, Heq|].
      split; [done|]. split.
      * simpl. rewrite ?decide_True by done. by rewrite Hlines.
      * intros rest. rewrite append_cons. simpl. rewrite ?decide_True by done.
        by rewrite Hrest.
    + destruct (IH (line ++ String c EmptyString)%string)
        as (lines & last & Heq & Hlast & Hlines & Hrest).
      { by apply not_occurs_snoc. }
      exists lines, last. rewrite append_assoc, append_cons, append_nil_l in Heq.
      split; [done|]. split; [done|]. split.
      * simpl. by rewrite decide_False.
      * intros rest. rewrite append_cons. simpl. rewrite decide_False by done.
        by rewrite Hrest.
Qed.

Ltac bind_cases H :=
  repeat match type of H with
         | context [mbind _ ?m] =>
             let E := fresh "E" in
             destruct m eqn:E; cbn [mbind M_bind] in H; [discriminate H|]
         end.

Lemma TryParseInformation_assigned (line : string) (action : Information) :
  TryParseInformation line = ret (Some action) -> assigned action.
Proof.
  unfold TryParseInformation. intros H.
  destruct (at0 line) as [|value]; [discriminate H|]. cbn [mbind M_bind] in H.
  destruct (Split line " "%char) as [|values]; [discriminate H|]. cbn [mbind M_bind] in H.
  destruct (decide (value = "A"%char)); [|destruct (decide (value = "M"%char));
    [|destruct (decide (value = "C"%char)); [|discriminate H]]].
  all: bind_cases H; injection H as <-; unfold assigned; simpl; eauto 10.
Qed.

Lemma GetInformations_loop_through (lines : list string) (actions : list Information) :
  Forall assigned actions ->
  (exists e, forall tail,
      GetInformations_loop (((fun l => (l, false)) <$> lines) ++ tail) actions = throw e)
  \/ (exists actions',
        Forall assigned actions'
        /\ forall tail,
             GetInformations_loop (((fun l => (l, false)) <$> lines) ++ tail) actions
             = GetInformations_loop tail actions').
Proof.
  revert actions. induction lines as [|line lines IH]; intros actions Hactions.
  - right. by exists actions.
  - rewrite fmap_cons. destruct line as [|c line].
    { left. eexists. intros tail. cbn [app GetInformations_loop].
      rewrite decide_True by done. reflexivity. }
    assert (forall tail,
              GetInformations_loop
                (((String c line, false) :: ((fun l => (l, false)) <$> lines)) ++ tail) actions
              = if bool_decide (c = "R"%char)
                then throw (LogicError "Result should only be specified at the end.")
                else
                  isValid ← TryParseInformation (String c line);
                  match isValid with
                  | None =>
                      GetInformations_loop (((fun l => (l, false)) <$> lines) ++ tail) actions
                  | Some action =>
                      GetInformations_loop (((fun l => (l, false)) <$> lines) ++ tail)
                        (actions ++ [action])
                  end) as Hstep.
    { intros tail. cbn [app GetInformations_loop]. rewrite decide_False by done.
      cbn [at0 ret mbind M_bind]. by destruct (bool_decide (c = "R"%char)). }
    destruct (bool_decide (c = "R"%char)) eqn:Ec.
    { left. eexists. intros tail. rewrite Hstep. reflexivity. }
    destruct (TryParseInformation (String c line)) as [e|[action|]] eqn:E.
    + left. exists e. intros tail. by rewrite Hstep.
    + destruct (IH (actions ++ [action])) as [[e He]|(actions' & Ha & Hl)].
      { apply Forall_app. split; [done|]. constructor; [|done].
        by eapply TryParseInformation_assigned. }
      * left. exists e. intros tail. rewrite Hstep. cbn [mbind M_bind]. apply He.
      * right. exists actions'. split; [done|]. intros tail. rewrite Hstep.
        cbn [mbind M_bind]. apply Hl.
    + destruct (IH actions Hactions) as [[e He]|(actions' & Ha & Hl)].
      * left. exists e. intros tail. rewrite Hstep. cbn [mbind M_bind]. apply He.
      * right. exists actions'. split; [done|]. intros tail. rewrite Hstep.
        cbn [mbind M_bind]. apply Hl.
Qed.

End GetInformations.

Lemma GetInformations_assigned
    (content : string) (actions : list OrderbookTests.Information)
    (result : OrderbookTests.Result) :
  OrderbookTests.GetInformations content = ret (actions, result) ->
  Forall OrderbookTests.assigned actions.
Proof.
  unfold OrderbookTests.GetInformations. intros Hrun.
  destruct (getlines_shape content EmptyString) as (lines & last & _ & _ & Hlines & _).
  { unfold OrderbookTests.occurs. simpl. by intros [? ?]. }
  rewrite Hlines in Hrun.
  destruct (GetInformations_loop_through lines [] (Forall_nil_2 _))
    as [[e He]|(actions' & Hassigned & Hloop)];
    [rewrite He in Hrun; discriminate Hrun|].
  rewrite Hloop in Hrun.
  destruct (decide (last = EmptyString)) as [|Hne]; [discriminate Hrun|].
  destruct last as [|c last]; [done|].
  cbn [OrderbookTests.GetInformations_loop] in Hrun.
  rewrite decide_False in Hrun by done.
  cbn [OrderbookTests.at0 ret mbind M_bind] in Hrun.
  destruct (bool_decide (c = "R"%char)); cbn [negb] in Hrun.
  - destruct (OrderbookTests.TryParseResult _) as [e|[r|]]; cbn [mbind M_bind] in Hrun;
      try discriminate Hrun.
    by injection Hrun as <- <-.
  - destruct (OrderbookTests.TryParseInformation _) as [e|[a|]]; discriminate Hrun.
Qed.

(** X17.  [GetInformations] returns only for a script whose last line is
    the result line and is not ended by a newline: when it returns, the
    content is a sequence of complete lines followed by a line that begins
    with [R] and holds no newline, and every action it returns has a value
    in each field the test body reads.  The same script with a newline, and
    anything more, after the result line is turned away with the error
    [Result should only be specified at the end.] *)
Theorem GetInformations_wants_the_result_line_unterminated
    (content : string) (actions : list OrderbookTests.Information)
    (result : OrderbookTests.Result) :
  OrderbookTests.GetInformations content = ret (actions, result) ->
  (exists lines line,
      content = (OrderbookTests.unlines lines ++ line)%string
      /\ OrderbookTests.begins_with "R"%char line
      /\ ~ OrderbookTests.occurs "010"%char line)
  /\ Forall OrderbookTests.assigned actions
  /\ forall rest,
       OrderbookTests.GetInformations (content ++ String "010"%char rest)
       = throw (LogicError "Result should only be specified at the end.").
Proof.
  unfold OrderbookTests.GetInformations. intros Hrun.
  destruct (getlines_shape content EmptyString)
    as (lines & last & Heq & Hlast & Hlines & Hrest).
  { unfold OrderbookTests.occurs. simpl. by intros [? ?]. }
  rewrite append_nil_l in Heq. rewrite Hlines in Hrun.
  destruct (GetInformations_loop_through lines [] (Forall_nil_2 _))
    as [[e He]|(actions' & Hassigned & Hloop)];
    [rewrite He in Hrun; discriminate Hrun|].
  rewrite Hloop in Hrun.
  destruct (decide (last = EmptyString)) as [|Hne]; [discriminate Hrun|].
  destruct last as [|c last]; [done|].
  cbn [OrderbookTests.GetInformations_loop] in Hrun.
  rewrite decide_False in Hrun by done.
  cbn [OrderbookTests.at0 ret mbind M_bind] in Hrun.
  destruct (bool_decide (c = "R"%char)) eqn:Ec; cbn [negb] in Hrun.
  - apply bool_decide_eq_true in Ec as ->.
    destruct (OrderbookTests.TryParseResult _) as [e|[r|]]; cbn [mbind M_bind] in Hrun;
      try discriminate Hrun.
    injection Hrun as <- <-. split; [|split; [done|]].
    + exists lines, (String "R"%char last). split; [done|]. split; [by eexists | done].
    + intros rest. rewrite Hrest, Hloop. reflexivity.
  - destruct (OrderbookTests.TryParseInformation _) as [e|[a|]]; discriminate Hrun.
Qed.

Lemma GetInformations_wants_the_result_line_unterminated_witness :
  (exists lines line,
      OrderbookTests.script_with_one_add = (OrderbookTests.unlines lines ++ line)%string
      /\ OrderbookTests.begins_with "R"%char line
      /\ ~ OrderbookTests.occurs "010"%char line)
  /\ Forall OrderbookTests.assigned
       [OrderbookTests.mkInformation OrderbookTests.Add (Some GoodTillCancel)
          (Some Buy) (Some 100) (Some 10) (Some 1)]
  /\ forall rest,
       OrderbookTests.GetInformations
         (OrderbookTests.script_with_one_add ++ String "010"%char rest)
       = throw (LogicError "Result should only be specified at the end.").
Proof.
  apply (GetInformations_wants_the_result_line_unterminated
           OrderbookTests.script_with_one_add
           [OrderbookTests.mkInformation OrderbookTests.Add (Some GoodTillCancel)
              (Some Buy) (Some 100) (Some 10) (Some 1)]
           (OrderbookTests.mkResult 1 1 0)).
  vm_compute. reflexivity.
Defined.

(** * The test body *)

Lemma Size_resting (st : Orderbook) :
  reachable st -> Size st = length (resting_orders st).
Proof.
  intros Hreach. apply reachable_inv in Hreach. destruct Hreach as [Hwf _].
  pose proof (NoDup_resting_ids st Hwf) as Hnd.
  unfold Size. rewrite <- length_map_to_list.
  rewrite <- (length_fmap fst), <- (length_fmap orderId_ (resting_orders st)).
  apply Permutation_length. apply NoDup_Permutation.
  - apply NoDup_fst_map_to_list.
  - done.
  - intros id. rewrite (resting_ids_indexed st id Hwf). rewrite list_elem_of_fmap. split.
    + intros ([k e] & -> & Hke%elem_of_map_to_list). by eexists.
    + intros [e He]. exists (id, e). split; [done | by apply elem_of_map_to_list].
Qed.

Section TestBody.

Import OrderbookTests.

(** One round of the loop of the test body is one command on the book; the
    command adds a [FillAndKill] order only when the action says so. *)
Lemma Act_cons_exec (action : Information) (actions : list Information) (st : Orderbook) :
  assigned action ->
  exists c, Act (action :: actions) st = ('(_, st') ← exec c st; Act actions st')
            /\ forall o, c = DoAddOrder o -> GetOrderType o = FillAndKill ->
                         type_ action = Add /\ orderType_ action = Some FillAndKill.
Proof.
  destruct action as [type orderType side price quantity orderId].
  unfold assigned. destruct type; simpl.
  - intros ([t ->] & [s ->] & [p ->] & [q ->] & [i ->]).
    exists (DoAddOrder (NewOrder t i s p q)). simpl. split.
    + by destruct (AddOrder _ st) as [|[? ?]].
    + intros o [= <-]. simpl. by intros ->.
  - intros [i ->]. exists (DoCancelOrder i). simpl. split; [|done].
    by destruct (CancelOrder i st).
  - intros ([s ->] & [p ->] & [q ->] & [i ->]).
    exists (DoModifyOrder (NewOrderModify i s p q)). simpl. split; [|done].
    by destruct (ModifyOrder _ st) as [|[? ?]].
Qed.

(** The loop of the test body either ends in a book reached from the empty
    book, or stops at the lock [AddOrder] takes a second time, under an
    action that adds a [FillAndKill] order. *)
Lemma Act_outcome (actions : list Information) (st : Orderbook) :
  Forall assigned actions -> reachable st ->
  (exists st', Act actions st = ret st' /\ reachable st')
  \/ (Act actions st = throw Deadlock
      /\ Exists (fun action => type_ action = Add
                               /\ orderType_ action = Some FillAndKill) actions).
Proof.
  intros Hall. revert st. induction Hall as [|action actions Ha _ IH]; intros st Hreach.
  - left. by exists st.
  - destruct (Act_cons_exec action actions st Ha) as (c & -> & Hc).
    destruct (exec_outcome c st (reachable_inv st Hreach))
      as [(trades & st1 & Hexec)|(Hexec & o & -> & Ho)].
    + rewrite Hexec. cbn [mbind M_bind].
      destruct (IH st1) as [Hret|[Hdead Hex]]; [by eapply reachable_exec| by left |].
      right. split; [done | by apply Exists_cons_tl].
    + right. rewrite Hexec. split; [done|]. apply Exists_cons_hd. by eapply Hc.
Qed.

End TestBody.

(** X18.  The test body on a script that [GetInformations] accepts.  When
    the loop over the actions ends, it ends in a book reached from the empty
    book, and the test passes exactly when the three numbers of the result
    line are the number of resting orders, the number of bid levels and the
    number of ask levels of that book.  Otherwise the loop stops at the lock
    that [AddOrder] holds and [CancelOrder] takes again, the test body does
    not get to its assertions, and the script adds a [FillAndKill] order.
    The loop ends on every script that adds no [FillAndKill] order. *)
Theorem OrderbookTestSuite_compares_the_counts
    (content : string) (actions : list OrderbookTests.Information)
    (result : OrderbookTests.Result) :
  OrderbookTests.GetInformations content = ret (actions, result) ->
  ((exists orderbook,
      OrderbookTests.Act actions empty_book = ret orderbook
      /\ reachable orderbook
      /\ OrderbookTests.OrderbookTestSuite content
         = ret (OrderbookTests.Assert orderbook result)
      /\ (OrderbookTests.Assert orderbook result = true <->
          OrderbookTests.allCount_ result = Z.of_nat (length (resting_orders orderbook))
          /\ OrderbookTests.bidCount_ result = Z.of_nat (size (bids_ orderbook))
          /\ OrderbookTests.askCount_ result = Z.of_nat (size (asks_ orderbook))))
   \/ (OrderbookTests.Act actions empty_book = throw Deadlock
       /\ OrderbookTests.OrderbookTestSuite content = throw Deadlock
       /\ Exists (fun action =>
                    OrderbookTests.type_ action = OrderbookTests.Add
                    /\ OrderbookTests.orderType_ action = Some FillAndKill) actions))
  /\ (Forall (fun action =>
                OrderbookTests.type_ action = OrderbookTests.Add ->
                OrderbookTests.orderType_ action <> Some FillAndKill) actions ->
      exists orderbook, OrderbookTests.Act actions empty_book = ret orderbook).
Proof.
  intros Hget. pose proof (GetInformations_assigned _ _ _ Hget) as Hassigned.
  pose proof (Act_outcome actions empty_book Hassigned reachable_empty) as Hout.
  split.
  - destruct Hout as [(orderbook & Hact & Hreach)|[Hact Hex]].
    + left. exists orderbook. split; [done|]. split; [done|]. split.
      * unfold OrderbookTests.OrderbookTestSuite. rewrite Hget.
        unfold ret. cbn [mbind M_bind]. by rewrite Hact.
      * unfold OrderbookTests.Assert, GetBids, GetAsks, GetOrderInfos. simpl.
        rewrite !length_fmap. unfold iterate_greater, iterate_less.
        rewrite !merge_sort_Permutation, !length_map_to_list.
        rewrite (Size_resting orderbook Hreach).
        rewrite !andb_true_iff, !Z.eqb_eq. intuition congruence.
    + right. split; [done|]. split; [|done].
      unfold OrderbookTests.OrderbookTestSuite. rewrite Hget.
      unfold ret. cbn [mbind M_bind]. by rewrite Hact.
  - intros Hnone. destruct Hout as [(orderbook & Hact & _)|[_ Hex]]; [by exists orderbook|].
    exfalso. apply Exists_exists in Hex as (action & Hin & Hadd & Htype).
    rewrite Forall_forall in Hnone. by apply (Hnone action Hin Hadd).
Qed.

Lemma OrderbookTestSuite_compares_the_counts_witness :
  ((exists orderbook,
      OrderbookTests.Act
        [OrderbookTests.mkInformation OrderbookTests.Add (Some GoodTillCancel)
           (Some Buy) (Some 100) (Some 10) (Some 1)] empty_book = ret orderbook
      /\ reachable orderbook
      /\ OrderbookTests.OrderbookTestSuite OrderbookTests.script_with_one_add
         = ret (OrderbookTests.Assert orderbook (OrderbookTests.mkResult 1 1 0))
      /\ (OrderbookTests.Assert orderbook (OrderbookTests.mkResult 1 1 0) = true <->
          OrderbookTests.allCount_ (OrderbookTests.mkResult 1 1 0)
            = Z.of_nat (length (resting_orders orderbook))
          /\ OrderbookTests.bidCount_ (OrderbookTests.mkResult 1 1 0)
             = Z.of_nat (size (bids_ orderbook))
          /\ OrderbookTests.askCount_ (OrderbookTests.mkResult 1 1 0)
             = Z.of_nat (size (asks_ orderbook))))
   \/ (OrderbookTests.Act
         [OrderbookTests.mkInformation OrderbookTests.Add (Some GoodTillCancel)
            (Some Buy) (Some 100) (Some 10) (Some 1)] empty_book = throw Deadlock
       /\ OrderbookTests.OrderbookTestSuite OrderbookTests.script_with_one_add
          = throw Deadlock
       /\ Exists (fun action =>
                    OrderbookTests.type_ action = OrderbookTests.Add
                    /\ OrderbookTests.orderType_ action = Some FillAndKill)
            [OrderbookTests.mkInformation OrderbookTests.Add (Some GoodTillCancel)
               (Some Buy) (Some 100) (Some 10) (Some 1)]))
  /\ (Forall (fun action =>
                OrderbookTests.type_ action = OrderbookTests.Add ->
                OrderbookTests.orderType_ action <> Some FillAndKill)
        [OrderbookTests.mkInformation OrderbookTests.Add (Some GoodTillCancel)
           (Some Buy) (Some 100) (Some 10) (Some 1)] ->
      exists orderbook,
        OrderbookTests.Act
          [OrderbookTests.mkInformation OrderbookTests.Add (Some GoodTillCancel)
             (Some Buy) (Some 100) (Some 10) (Some 1)] empty_book = ret orderbook).
Proof.
  apply (OrderbookTestSuite_compares_the_counts OrderbookTests.script_with_one_add
           [OrderbookTests.mkInformation OrderbookTests.Add (Some GoodTillCancel)
              (Some Buy) (Some 100) (Some 10) (Some 1)]
           (OrderbookTests.mkResult 1 1 0)).
  vm_compute. reflexivity.
Defined.

(** The second scenario of the specification as a script: the test body
    stops in the call that adds the [FillAndKill] order. *)
Example OrderbookTestSuite_scenario_2 :
  OrderbookTests.OrderbookTestSuite
    (OrderbookTests.unlines ["A B GoodTillCancel 100 5 1"; "A S FillAndKill 100 10 2"]
     ++ "R 0 0 0")%string
  = throw Deadlock.
Proof. vm_compute. reflexivity. Qed.

(** * The quantity the inner loop trades *)

Lemma traded_app t1 t2 : traded (t1 ++ t2) = traded t1 + traded t2.
Proof. unfold traded. induction t1 as [|t t1 IH]; simpl; [done | rewrite IH; lia]. Qed.

Lemma sum_remaining_nonneg q : remaining_valid q -> 0 <= sum_remaining q.
Proof.
  induction 1 as [|o q Ho _ IH]; simpl; [done|].
  unfold valid_quantity, GetRemainingQuantity in *. lia.
Qed.

Lemma filled_by_remaining quantity o :
  valid_quantity (remainingQuantity_ o) -> 0 <= quantity <= remainingQuantity_ o ->
  remainingQuantity_ (filled_by quantity o) = remainingQuantity_ o - quantity.
Proof.
  unfold valid_quantity, filled_by, wrap32. simpl. intros Hv Hq.
  apply Z.mod_small. lia.
Qed.

Lemma MatchLevel_conserves fuel s :
  remaining_valid (ls_bids s) -> remaining_valid (ls_asks s) ->
  (length (ls_bids s) + length (ls_asks s) <= fuel)%nat ->
  exists s' new,
    MatchLevel fuel s = ret s'
    /\ ls_trades s' = ls_trades s ++ new
    /\ remaining_valid (ls_bids s') /\ remaining_valid (ls_asks s')
    /\ sum_remaining (ls_bids s') = sum_remaining (ls_bids s) - traded new
    /\ sum_remaining (ls_asks s') = sum_remaining (ls_asks s) - traded new
    /\ (ls_bids s' = [] \/ ls_asks s' = []).
Proof.
  revert s. induction fuel as [|fuel IH]; intros [bids asks orders data trades] Hb Ha Hlen;
    cbn [ls_bids ls_asks ls_trades] in *.
  all: destruct bids as [|bid bids];
    [eexists _, []; split; [reflexivity|]; cbn [ls_bids ls_asks ls_trades];
     rewrite app_nil_r; repeat split; try done; try (simpl; lia); by left|].
  all: destruct asks as [|ask asks];
    [eexists _, []; split; [reflexivity|]; cbn [ls_bids ls_asks ls_trades];
     rewrite app_nil_r; repeat split; try done; try (simpl; lia); by right|].
  - simpl in Hlen. lia.
  - rewrite MatchLevel_round.
    apply Forall_cons in Hb as [Hbid Hb]. apply Forall_cons in Ha as [Hask Ha].
    set (quantity := Z.min (GetRemainingQuantity bid) (GetRemainingQuantity ask)).
    assert (0 <= quantity <= remainingQuantity_ bid /\ quantity <= remainingQuantity_ ask)
      as (Hq0 & Hqa)
      by (unfold quantity, GetRemainingQuantity, valid_quantity in *; lia).
    pose proof (filled_by_remaining quantity bid Hbid Hq0) as Hrb.
    pose proof (filled_by_remaining quantity ask Hask ltac:(lia)) as Hra.
    assert (remaining_valid (if IsFilled (filled_by quantity bid) then bids
                             else filled_by quantity bid :: bids)) as Hb1.
    { destruct (IsFilled (filled_by quantity bid)); [exact Hb|]. constructor; [|exact Hb].
      rewrite Hrb. unfold valid_quantity in *. lia. }
    assert (remaining_valid (if IsFilled (filled_by quantity ask) then asks
                             else filled_by quantity ask :: asks)) as Ha1.
    { destruct (IsFilled (filled_by quantity ask)); [exact Ha|]. constructor; [|exact Ha].
      rewrite Hra. unfold valid_quantity in *. lia. }
    assert (sum_remaining (if IsFilled (filled_by quantity bid) then bids
                           else filled_by quantity bid :: bids)
            = sum_remaining (bid :: bids) - quantity) as Hsb.
    { unfold IsFilled, GetRemainingQuantity. rewrite Hrb.
      destruct (Z.eqb_spec (remainingQuantity_ bid - quantity) 0) as [E|E];
        unfold sum_remaining; cbn [foldr]; unfold GetRemainingQuantity; rewrite ?Hrb; lia. }
    assert (sum_remaining (if IsFilled (filled_by quantity ask) then asks
                           else filled_by quantity ask :: asks)
            = sum_remaining (ask :: asks) - quantity) as Hsa.
    { unfold IsFilled, GetRemainingQuantity. rewrite Hra.
      destruct (Z.eqb_spec (remainingQuantity_ ask - quantity) 0) as [E|E];
        unfold sum_remaining; cbn [foldr]; unfold GetRemainingQuantity; rewrite ?Hra; lia. }
    pose proof (one_head_filled bid ask) as Hone. cbv zeta in Hone. fold quantity in Hone.
    match goal with
    | |- exists s' new, MatchLevel _ ?s1 = _ /\ _ =>
        destruct (IH s1) as (s' & new & Hrun & Htr & Hvb & Hva & Hsumb & Hsuma & Hnil)
    end.
    + exact Hb1.
    + exact Ha1.
    + cbn [ls_bids ls_asks]. simpl in Hlen.
      destruct (IsFilled (filled_by quantity bid)) eqn:Eb;
        destruct (IsFilled (filled_by quantity ask)) eqn:Ea; simpl; try lia;
        try (specialize (Hone eq_refl); discriminate Hone).
    + cbn [ls_bids ls_asks ls_trades] in *.
      eexists s', (_ :: new). split; [exact Hrun|].
      split; [rewrite Htr, <- app_assoc; reflexivity|].
      split; [done|]. split; [done|].
      rewrite Hsumb, Hsuma, Hsb, Hsa. cbn [traded foldr bidTrade_ ti_quantity_].
      fold (traded new). split; [lia|]. split; [lia | done].
Qed.

(** X19.  The inner loop of [MatchOrders] trades the smaller of the two
    level totals.  On two queues whose remaining quantities are values of
    their type it ends with one queue empty; the quantities of the trades
    it appends add up to the minimum of the total remaining quantity of the
    bids and that of the asks, and each queue keeps its total less that
    amount. *)
Theorem MatchLevel_trades_the_smaller_total (s : LevelState) :
  remaining_valid (ls_bids s) ->
  remaining_valid (ls_asks s) ->
  exists s' new,
    MatchLevel (length (ls_bids s) + length (ls_asks s)) s = ret s'
    /\ ls_trades s' = ls_trades s ++ new
    /\ traded new = Z.min (sum_remaining (ls_bids s)) (sum_remaining (ls_asks s))
    /\ sum_remaining (ls_bids s') = sum_remaining (ls_bids s) - traded new
    /\ sum_remaining (ls_asks s') = sum_remaining (ls_asks s) - traded new
    /\ (ls_bids s' = [] \/ ls_asks s' = []).
Proof.
  intros Hb Ha.
  destruct (MatchLevel_conserves _ s Hb Ha (le_n _))
    as (s' & new & Hrun & Htr & Hvb & Hva & Hsumb & Hsuma & Hnil).
  exists s', new. split; [done|]. split; [done|].
  split; [|split; [done | split; done]].
  pose proof (sum_remaining_nonneg _ Hvb). pose proof (sum_remaining_nonneg _ Hva).
  destruct Hnil as [E|E]; rewrite E in *; simpl in *; lia.
Qed.

Lemma MatchLevel_trades_the_smaller_total_witness :
  exists s' new,
    MatchLevel (length (ls_bids level_5_3_against_4_9) + length (ls_asks level_5_3_against_4_9))
      level_5_3_against_4_9 = ret s'
    /\ ls_trades s' = ls_trades level_5_3_against_4_9 ++ new
    /\ traded new = Z.min (sum_remaining (ls_bids level_5_3_against_4_9))
                          (sum_remaining (ls_asks level_5_3_against_4_9))
    /\ sum_remaining (ls_bids s') = sum_remaining (ls_bids level_5_3_against_4_9) - traded new
    /\ sum_remaining (ls_asks s') = sum_remaining (ls_asks level_5_3_against_4_9) - traded new
    /\ (ls_bids s' = [] \/ ls_asks s' = []).
Proof.
  apply (MatchLevel_trades_the_smaller_total level_5_3_against_4_9).
  - repeat constructor; vm_compute; done.
  - repeat constructor; vm_compute; done.
Defined.

(** * Modifying an order that rests *)

Lemma AddOrder_rests st type id side price quantity :
  book_inv st ->
  orders_ st !! id = None ->
  type = GoodTillCancel \/ type = GoodForDay ->
  CanMatch st side price = false ->
  AddOrder (NewOrder type id side price quantity) st
  = ret ([], PlaceOrder (NewOrder type id side price quantity) st).
Proof.
  intros (Hwf & Hun & Hno) Hfresh Htype Hcan.
  set (o := NewOrder type id side price quantity).
  unfold AddOrder. rewrite decide_False by (simpl; rewrite Hfresh; by intros [? ?]).
  unfold ConvertMarket. rewrite decide_False by (simpl; destruct Htype; by subst).
  unfold ret. cbn [mbind M_bind].
  rewrite (bool_decide_eq_false_2 (GetOrderType o = FillAndKill))
    by (simpl; destruct Htype; by subst).
  rewrite (bool_decide_eq_false_2 (GetOrderType o = FillOrKill))
    by (simpl; destruct Htype; by subst).
  cbn [andb]. apply MatchOrders_idle.
  - by apply PlaceOrder_wf.
  - apply apart_uncrossed. apply PlaceOrder_apart; [by apply apart_uncrossed | done].
  - intros s p q x Hq Hx.
    destruct (PlaceOrder_elem o st s p q x Hq Hx) as [->|(q0 & Hq0 & Hx0)].
    + simpl. destruct Htype; by subst.
    + by eapply Hno.
Qed.

Lemma CanMatch_shrinks st st' side price :
  shrinks st st' -> CanMatch st side price = false -> CanMatch st' side price = false.
Proof.
  intros Hs. unfold CanMatch. destruct side.
  - destruct (asks_begin st') as [[a' q']|] eqn:E'; [|done].
    apply begin_lookup_min in E'. destruct (Hs Sell a' q' E') as (q & Hq & _).
    destruct (asks_begin st) as [[a q0]|] eqn:E.
    + apply min_entry_Some in E as [_ Hmin]. specialize (Hmin a' q Hq). lia.
    + apply min_entry_None in E. simpl in Hq. rewrite E, lookup_empty in Hq. discriminate.
  - destruct (bids_begin st') as [[b' q']|] eqn:E'; [|done].
    apply begin_lookup_max in E'. destruct (Hs Buy b' q' E') as (q & Hq & _).
    destruct (bids_begin st) as [[b q0]|] eqn:E.
    + apply max_entry_Some in E as [_ Hmax]. specialize (Hmax b' q Hq). lia.
    + apply max_entry_None in E. simpl in Hq. rewrite E, lookup_empty in Hq. discriminate.
Qed.

(** X20.  A modified order goes to the back of the queue.  On a book
    reached from the empty book, [ModifyOrder] on a resting good-till-cancel
    or good-for-day order with a price that does not cross returns no trade;
    the order leaves its place, every queue keeps its other orders in their
    sequence, and the order comes back with its type, the new quantity and
    the new side and price at the tail of the queue there, also when side
    and price are the ones it had. *)
Theorem ModifyOrder_moves_the_order_to_the_tail
    (st : Orderbook) (o : Order) (side : Side) (price : Price) (quantity : Quantity) :
  reachable st ->
  o ∈ resting_orders st ->
  GetOrderType o = GoodTillCancel \/ GetOrderType o = GoodForDay ->
  CanMatch st side price = false ->
  exists st',
    ModifyOrder (NewOrderModify (GetOrderId o) side price quantity) st = ret ([], st')
    /\ forall s p,
         queue_at s p st'
         = filter (fun x => orderId_ x <> GetOrderId o) (queue_at s p st)
           ++ (if decide (s = side /\ p = price)
               then [NewOrder (GetOrderType o) (GetOrderId o) side price quantity]
               else []).
Proof.
  intros Hreach (s0 & p0 & q0 & Hq0 & Ho)%elem_of_resting_orders Htype Hcan.
  apply reachable_inv in Hreach. pose proof Hreach as (Hwf & _).
  destruct (level_entry st s0 p0 q0 o (proj1 Hwf) Hq0 Ho) as (_ & _ & He).
  destruct (deref_live st _ _ Hwf He) as (q1 & o1 & Hq1 & Ho1 & Hid1 & Hderef).
  simpl in Hq1.
  assert (o1 = o) as -> by exact (same_id_same_order st _ _ q1 o1 s0 p0 q0 o Hwf Hq1 Ho1 Hq0 Ho Hid1).
  destruct (CancelOrderInternal_spec st (orderId_ o) Hwf) as (st1 & Hc & Hwf1 & Hs & Hord).
  set (o' := NewOrder (GetOrderType o) (GetOrderId o) side price quantity).
  exists (PlaceOrder o' st1). split.
  - unfold ModifyOrder. cbn [mod_orderId_ NewOrderModify]. unfold GetOrderId. rewrite He, Hderef.
    unfold ret at 1. cbn [mbind M_bind]. unfold CancelOrder. rewrite Hc.
    unfold ret at 1. cbn [mbind M_bind].
    apply (AddOrder_rests st1 (GetOrderType o) (orderId_ o) side price quantity).
    + by apply (book_inv_shrinks st).
    + rewrite Hord. apply lookup_delete_eq.
    + exact Htype.
    + by apply (CanMatch_shrinks st).
  - intros s p. unfold GetOrderId.
    rewrite <- (CancelOrderInternal_queues st (orderId_ o) st1 Hwf Hc s p).
    unfold queue_at. rewrite lookup_PlaceOrder. simpl.
    destruct (decide (s = side /\ p = price)); [done|]. by rewrite app_nil_r.
Qed.

Lemma ModifyOrder_moves_the_order_to_the_tail_witness :
  exists st',
    ModifyOrder (NewOrderModify (GetOrderId (NewOrder GoodTillCancel 1 Buy 99 5)) Buy 99 6)
      two_sided_book = ret ([], st')
    /\ forall s p,
         queue_at s p st'
         = filter (fun x => orderId_ x <> GetOrderId (NewOrder GoodTillCancel 1 Buy 99 5))
             (queue_at s p two_sided_book)
           ++ (if decide (s = Buy /\ p = 99)
               then [NewOrder (GetOrderType (NewOrder GoodTillCancel 1 Buy 99 5))
                       (GetOrderId (NewOrder GoodTillCancel 1 Buy 99 5)) Buy 99 6]
               else []).
Proof.
  apply (ModifyOrder_moves_the_order_to_the_tail two_sided_book
           (NewOrder GoodTillCancel 1 Buy 99 5) Buy 99 6 two_sided_book_reachable).
  - vm_compute. by left.
  - by left.
  - reflexivity.
Defined.

(** * Numbers that do not fit *)

Section Numbers.

Import InputHandler.

Lemma digit_of_range (c : ascii) (d : Z) : digit_of c = Some d -> 0 <= d <= 9.
Proof.
  unfold digit_of. destruct (_ && _) eqn:E; [|discriminate]. intros [= <-].
  apply andb_true_iff in E as [H1 H2]. apply Z.leb_le in H1, H2. lia.
Qed.

Lemma scan_digits_range (s : string) : Forall (fun d => 0 <= d <= 9) (scan_digits s).
Proof.
  induction s as [|c s IH]; simpl; [constructor|].
  destruct (digit_of c) as [d|] eqn:E; [|constructor].
  constructor; [by eapply digit_of_range | done].
Qed.

Lemma fold_digits_nonneg (ds : list Z) (acc : Z) :
  Forall (fun d => 0 <= d <= 9) ds -> 0 <= acc ->
  0 <= fold_left (fun acc d => 10 * acc + d) ds acc.
Proof.
  intros Hall. revert acc. induction Hall as [|d ds Hd _ IH]; intros acc Hacc; simpl; [done|].
  apply IH. lia.
Qed.

Lemma number_value_nonneg (s : string) : 0 <= number_value s.
Proof.
  unfold number_value, digits_value. apply fold_digits_nonneg; [apply scan_digits_range | done].
Qed.

Lemma strip_minus_digit (s : string) :
  scan_digits s <> [] -> strip_minus s = (false, s).
Proof.
  destruct s as [|c s]; [done|]. simpl scan_digits.
  destruct (digit_of c) as [d|] eqn:E; [|done]. intros _.
  destruct c as [[] [] [] [] [] [] [] []]; try reflexivity. vm_compute in E. discriminate E.
Qed.

Lemma from_chars_digits (s : string) (value : Z) :
  scan_digits s <> [] ->
  from_chars_int64 s value
  = if number_value s <=? INT64_MAX then (number_value s, errc_ok)
    else (value, result_out_of_range).
Proof.
  intros Hne. pose proof (number_value_nonneg s) as Hnn.
  unfold from_chars_int64. rewrite (strip_minus_digit s Hne).
  unfold number_value in *. destruct (scan_digits s) as [|d ds] eqn:E; [done|].
  assert ((INT64_MIN <=? digits_value (d :: ds)) = true) as ->
    by (apply Z.leb_le; unfold INT64_MIN; lia).
  reflexivity.
Qed.

Lemma to_int32_wrap32 (z : Z) : to_int32 (wrap32 z) = to_int32 z.
Proof.
  unfold to_int32, wrap32. by rewrite Z.mod_mod by (unfold UINT32_MOD; lia).
Qed.

End Numbers.

(** X21.  A token that begins with a digit is read up to its last leading
    digit and cut to 32 bits: [ToNumber] returns the number modulo [2^32]
    when it fits in 64 bits, and zero when it does not; no error is raised
    in either case.  As a price, a number from [2^31] to [2^32 - 1] becomes
    the negative price that lies [2^32] below it. *)
Theorem ToNumber_keeps_the_low_32_bits (s : string) :
  InputHandler.scan_digits s <> [] ->
  (InputHandler.number_value s <= INT64_MAX ->
   InputHandler.ToNumber s = ret (InputHandler.number_value s mod 2 ^ 32))
  /\ (INT64_MAX < InputHandler.number_value s -> InputHandler.ToNumber s = ret 0)
  /\ (2 ^ 31 <= InputHandler.number_value s < 2 ^ 32 ->
      InputHandler.ParsePrice s = ret (InputHandler.number_value s - 2 ^ 32)).
Proof.
  intros Hne. pose proof (number_value_nonneg s) as Hnn.
  assert (InputHandler.number_value s <= INT64_MAX ->
          InputHandler.ToNumber s = ret (wrap32 (InputHandler.number_value s))) as Hfit.
  { intros Hle. unfold InputHandler.ToNumber. rewrite (from_chars_digits s 0 Hne).
    apply Z.leb_le in Hle. rewrite Hle.
    destruct (Z.ltb_spec (InputHandler.number_value s) 0); [lia | reflexivity]. }
  split; [exact Hfit|]. split.
  - intros Hgt. unfold InputHandler.ToNumber. rewrite (from_chars_digits s 0 Hne).
    apply Z.leb_gt in Hgt. rewrite Hgt. reflexivity.
  - intros Hrange. unfold InputHandler.ParsePrice.
    rewrite decide_False by (intros ->; by apply Hne).
    rewrite Hfit by (unfold INT64_MAX; lia). unfold ret. cbn [mbind M_bind].
    rewrite to_int32_wrap32. unfold InputHandler.to_int32, wrap32, UINT32_MOD.
    rewrite Z.mod_small by lia.
    destruct (Z.ltb_spec (InputHandler.number_value s) (2 ^ 31)); [lia | reflexivity].
Qed.

Lemma ToNumber_keeps_the_low_32_bits_witness :
  InputHandler.ToNumber "4294967297"%string = ret 1
  /\ InputHandler.ToNumber "9223372036854775808"%string = ret 0
  /\ InputHandler.ParsePrice "4294967295x"%string = ret (-1).
Proof.
  split; [|split].
  - apply (proj1 (ToNumber_keeps_the_low_32_bits "4294967297"%string ltac:(discriminate))).
    vm_compute. discriminate.
  - apply (proj1 (proj2 (ToNumber_keeps_the_low_32_bits "9223372036854775808"%string
                           ltac:(discriminate)))).
    vm_compute. reflexivity.
  - apply (proj2 (proj2 (ToNumber_keeps_the_low_32_bits "4294967295x"%string
                           ltac:(discriminate)))).
    vm_compute. split; [discriminate | reflexivity].
Defined.

(** * Cancelling a list of orders *)

Lemma CancelOrders_orders ids st st' :
  book_wf st -> CancelOrders ids st = ret st' ->
  orders_ st' = remove_ids (reverse ids) (orders_ st).
Proof.
  revert st. induction ids as [|id ids IH]; intros st Hwf Hc; simpl in Hc.
  - by injection Hc as <-.
  - destruct (CancelOrderInternal_spec st id Hwf) as (st1 & Hc1 & Hwf1 & _ & Ho1).
    rewrite Hc1 in Hc. cbn [mbind M_bind] in Hc.
    rewrite (IH st1 Hwf1 Hc), Ho1, reverse_cons. unfold remove_ids.
    by rewrite foldr_app.
Qed.

(** X22.  [CancelOrders] removes the listed orders and nothing else.  On a
    book reached from the empty book it completes, whatever the list: ids
    that are not live and ids listed twice do no harm; every queue keeps
    exactly its orders whose id is not listed, in their sequence; the
    listed ids leave the index and the others stay; and the book it leaves
    is again one reached from the empty book. *)
Theorem CancelOrders_removes_the_listed_orders (st : Orderbook) (ids : OrderIds) :
  reachable st ->
  exists st',
    CancelOrders ids st = ret st'
    /\ (forall s p, queue_at s p st' = filter (fun o => orderId_ o ∉ ids) (queue_at s p st))
    /\ (forall id, orders_ st' !! id = if decide (id ∈ ids) then None else orders_ st !! id)
    /\ reachable st'.
Proof.
  intros Hreach. pose proof (reachable_inv st Hreach) as [Hwf _].
  destruct (CancelOrders_spec ids st Hwf) as (st' & Hc & _ & _).
  exists st'. split; [exact Hc|]. split; [by apply CancelOrders_queues|]. split.
  - intros id. rewrite (CancelOrders_orders ids st st' Hwf Hc), remove_ids_lookup.
    destruct (decide (id ∈ reverse ids)) as [Hin|Hin]; rewrite elem_of_reverse in Hin;
      [by rewrite decide_True | by rewrite decide_False].
  - apply (reachable_exec (DoCancelOrders ids) st [] st' Hreach). simpl. by rewrite Hc.
Qed.

Lemma CancelOrders_removes_the_listed_orders_witness :
  exists st',
    CancelOrders [2; 7; 2] two_sided_book = ret st'
    /\ (forall s p, queue_at s p st'
                    = filter (fun o => orderId_ o ∉ [2; 7; 2]) (queue_at s p two_sided_book))
    /\ (forall id, orders_ st' !! id
                   = if decide (id ∈ [2; 7; 2]) then None else orders_ two_sided_book !! id)
    /\ reachable st'.
Proof.
  exact (CancelOrders_removes_the_listed_orders two_sided_book [2; 7; 2]
           two_sided_book_reachable).
Defined.

(** * Matching to the end *)

(** X23.  Every public operation leaves the book fully matched: on a book
    reached from the empty book [MatchOrders] finds nothing to do; it
    returns no trade and the book as it is. *)
Theorem MatchOrders_finds_nothing_on_a_reached_book (st : Orderbook) :
  reachable st -> MatchOrders st = ret ([], st).
Proof.
  intros (Hwf & Hun & Hno)%reachable_inv. by apply MatchOrders_idle.
Qed.

Lemma MatchOrders_finds_nothing_on_a_reached_book_witness :
  MatchOrders two_sided_book = ret ([], two_sided_book).
Proof.
  exact (MatchOrders_finds_nothing_on_a_reached_book two_sided_book two_sided_book_reachable).
Defined.

(** * Price and time priority *)

Lemma MatchLoop_appends fuel st trades trades' st' :
  MatchLoop fuel st trades = ret (trades', st') -> exists new, trades' = trades ++ new.
Proof.
  revert st trades. induction fuel as [|fuel IH]; intros st trades Hrun.
  all: simpl in Hrun.
  all: destruct (bids_begin st) as [[bp bq]|];
    [|injection Hrun as <- <-; exists []; by rewrite app_nil_r].
  all: destruct (asks_begin st) as [[ap aq]|];
    [|injection Hrun as <- <-; exists []; by rewrite app_nil_r].
  all: destruct (bp <? ap); [injection Hrun as <- <-; exists []; by rewrite app_nil_r|].
  - discriminate Hrun.
  - destruct (MatchLevel (length bq + length aq)
                (mkLevelState bq aq (orders_ st) (data_ st) trades)) as [e|s'] eqn:El;
      [discriminate Hrun|].
    cbn [mbind M_bind] in Hrun.
    destruct (MatchLevel_trades _ _ _ El) as (new1 & Htr & _). cbn [ls_trades] in Htr.
    destruct (IH _ _ Hrun) as (new & ->). rewrite Htr. exists (new1 ++ new).
    by rewrite app_assoc.
Qed.

(** The first trade of the loop is between the heads of the two best levels. *)
Lemma MatchLoop_first_trade fuel st bp bid bids ap ask asks trades st' :
  bids_begin st = Some (bp, bid :: bids) ->
  asks_begin st = Some (ap, ask :: asks) ->
  ap <= bp ->
  MatchLoop fuel st [] = ret (trades, st') ->
  exists rest,
    trades =
    mkTrade
      (mkTradeInfo (orderId_ bid) (price_ bid)
         (Z.min (GetRemainingQuantity bid) (GetRemainingQuantity ask)))
      (mkTradeInfo (orderId_ ask) (price_ ask)
         (Z.min (GetRemainingQuantity bid) (GetRemainingQuantity ask))) :: rest.
Proof.
  intros Eb Ea Hle Hrun. destruct fuel as [|fuel]; simpl in Hrun; rewrite Eb, Ea in Hrun.
  all: destruct (Z.ltb_spec bp ap) as [|_]; [lia|].
  - discriminate Hrun.
  - cbn [length Nat.add] in Hrun. rewrite MatchLevel_round in Hrun.
    match type of Hrun with
    | context [MatchLevel ?f ?s] => destruct (MatchLevel f s) as [e|s'] eqn:El
    end; [discriminate Hrun|].
    cbn [mbind M_bind] in Hrun.
    destruct (MatchLevel_trades _ _ _ El) as (new1 & Htr & _). cbn [ls_trades] in Htr.
    destruct (MatchLoop_appends _ _ _ _ _ Hrun) as (new & ->).
    rewrite Htr. simpl. by eexists.
Qed.

Lemma MatchLoop_apart fuel st :
  apart st -> (0 < fuel)%nat -> MatchLoop fuel st [] = ret ([], st).
Proof.
  intros Hap Hfuel. destruct fuel as [|fuel]; [lia|]. simpl.
  destruct (bids_begin st) as [[bp bq]|] eqn:Eb; [|done].
  destruct (asks_begin st) as [[ap aq]|] eqn:Ea; [|done].
  apply begin_lookup_max in Eb. apply begin_lookup_min in Ea.
  specialize (Hap _ _ _ _ Eb Ea). apply Z.ltb_lt in Hap. by rewrite Hap.
Qed.

Lemma MatchOrders_loop st trades st' :
  MatchOrders st = ret (trades, st') ->
  exists st1, MatchLoop (S (size (bids_ st) + size (asks_ st))) st [] = ret (trades, st1).
Proof.
  unfold MatchOrders. intros Hrun.
  destruct (MatchLoop _ st []) as [e|[tr st1]]; [discriminate Hrun|].
  cbn [mbind M_bind] in Hrun.
  destruct (CancelFillAndKillHead (bids_begin st1) st1) as [e|st2]; [discriminate Hrun|].
  cbn [mbind M_bind] in Hrun.
  destruct (CancelFillAndKillHead (asks_begin st2) st2) as [e|st3]; [discriminate Hrun|].
  cbn [mbind M_bind] in Hrun. injection Hrun as <- _. by exists st1.
Qed.

(** X24.  Price and time priority.  When [AddOrder] on a book reached from
    the empty book returns trades, the first of them is with the order at
    the head of the best level of the opposite side, the oldest order at
    the best price: its leg carries the id of that order and the price of
    that level, the other leg the id of the added order, and both the
    minimum of the remaining quantities of the two orders. *)
Theorem AddOrder_first_trade_is_with_the_oldest_best_order
    (st : Orderbook) (o : Order) (t : Trade) (trades : Trades) (st' : Orderbook) :
  reachable st ->
  AddOrder o st = ret (t :: trades, st') ->
  exists p a q,
    best_opposite (GetSide o) st = Some (p, a :: q)
    /\ ti_orderId_ (leg (opposite (GetSide o)) t) = GetOrderId a
    /\ ti_price_ (leg (opposite (GetSide o)) t) = p
    /\ ti_orderId_ (leg (GetSide o) t) = GetOrderId o
    /\ ti_quantity_ (bidTrade_ t) = Z.min (GetRemainingQuantity o) (GetRemainingQuantity a)
    /\ ti_quantity_ (askTrade_ t) = Z.min (GetRemainingQuantity o) (GetRemainingQuantity a).
Proof.
  intros Hreach Hadd. apply reachable_inv in Hreach.
  destruct (AddOrder_cases o st _ st' Hreach Hadd)
    as [[[=] _]|(o' & Hfresh & Hconv & Hm & Hwf1 & _ & _)].
  destruct (ConvertMarket_cases o st) as (r & Hconv' & Hr).
  rewrite Hconv in Hconv'. injection Hconv' as <-.
  assert (orderId_ o' = orderId_ o /\ side_ o' = side_ o
          /\ remainingQuantity_ o' = remainingQuantity_ o) as (Hid & Hside & Hrem).
  { destruct (Hr o' eq_refl) as [[_ ->]|(_ & w & -> & _)]; done. }
  destruct Hreach as (Hwf & Hun & _). apply apart_uncrossed in Hun.
  destruct (MatchOrders_loop _ _ _ Hm) as (st1 & Hloop).
  destruct (CanMatch st (side_ o') (price_ o')) eqn:Hcan.
  2:{ rewrite (MatchLoop_apart _ (PlaceOrder o' st)) in Hloop;
        [discriminate Hloop | by apply PlaceOrder_apart | lia]. }
  destruct (PlaceOrder_crossing_top o' st Hun Hcan) as [_ Htop].
  unfold GetSide, GetOrderId, GetRemainingQuantity. rewrite <- Hside, <- Hid, <- Hrem.
  destruct (side_ o') eqn:Es; simpl in Htop |- *.
  - apply CanMatch_Buy in Hcan as (ap & aq & Ha & Hle).
    pose proof (begin_lookup_min _ _ _ Ha) as Haq.
    destruct Hwf as [Hl _]. destruct (Hl Sell ap aq Haq) as (Hne & _).
    destruct aq as [|a q]; [done|].
    destruct (level_entry st Sell ap (a :: q) a Hl Haq ltac:(by left)) as (_ & Hap & _).
    assert (asks_begin (PlaceOrder o' st) = Some (ap, a :: q)) as Ha1.
    { unfold asks_begin. change (asks_ (PlaceOrder o' st)) with (side_map Sell (PlaceOrder o' st)).
      rewrite side_map_PlaceOrder, decide_False by (by rewrite Es). exact Ha. }
    destruct (MatchLoop_first_trade _ _ _ _ _ _ _ _ _ _ Htop Ha1 Hle Hloop) as (rest & [= -> _]).
    exists ap, a, q. simpl. unfold GetRemainingQuantity. by rewrite Hap.
  - apply CanMatch_Sell in Hcan as (bp & bq & Hb & Hle).
    pose proof (begin_lookup_max _ _ _ Hb) as Hbq.
    destruct Hwf as [Hl _]. destruct (Hl Buy bp bq Hbq) as (Hne & _).
    destruct bq as [|b q]; [done|].
    destruct (level_entry st Buy bp (b :: q) b Hl Hbq ltac:(by left)) as (_ & Hbp & _).
    assert (bids_begin (PlaceOrder o' st) = Some (bp, b :: q)) as Hb1.
    { unfold bids_begin. change (bids_ (PlaceOrder o' st)) with (side_map Buy (PlaceOrder o' st)).
      rewrite side_map_PlaceOrder, decide_False by (by rewrite Es). exact Hb. }
    destruct (MatchLoop_first_trade _ _ _ _ _ _ _ _ _ _ Hb1 Htop Hle Hloop) as (rest & [= -> _]).
    exists bp, b, q. simpl. unfold GetRemainingQuantity.
    rewrite Hbp, (Z.min_comm (remainingQuantity_ o')). done.
Qed.

Lemma AddOrder_first_trade_is_with_the_oldest_best_order_witness :
  exists p a q,
    best_opposite (GetSide (NewOrder GoodTillCancel 3 Buy 101 4)) two_sided_book
    = Some (p, a :: q)
    /\ ti_orderId_ (leg (opposite (GetSide (NewOrder GoodTillCancel 3 Buy 101 4)))
                      (mkTrade (mkTradeInfo 3 101 4) (mkTradeInfo 2 101 4))) = GetOrderId a
    /\ ti_price_ (leg (opposite (GetSide (NewOrder GoodTillCancel 3 Buy 101 4)))
                    (mkTrade (mkTradeInfo 3 101 4) (mkTradeInfo 2 101 4))) = p
    /\ ti_orderId_ (leg (GetSide (NewOrder GoodTillCancel 3 Buy 101 4))
                      (mkTrade (mkTradeInfo 3 101 4) (mkTradeInfo 2 101 4)))
       = GetOrderId (NewOrder GoodTillCancel 3 Buy 101 4)
    /\ ti_quantity_ (bidTrade_ (mkTrade (mkTradeInfo 3 101 4) (mkTradeInfo 2 101 4)))
       = Z.min (GetRemainingQuantity (NewOrder GoodTillCancel 3 Buy 101 4))
               (GetRemainingQuantity a)
    /\ ti_quantity_ (askTrade_ (mkTrade (mkTradeInfo 3 101 4) (mkTradeInfo 2 101 4)))
       = Z.min (GetRemainingQuantity (NewOrder GoodTillCancel 3 Buy 101 4))
               (GetRemainingQuantity a).
Proof.
  refine (AddOrder_first_trade_is_with_the_oldest_best_order two_sided_book
            (NewOrder GoodTillCancel 3 Buy 101 4)
            (mkTrade (mkTradeInfo 3 101 4) (mkTradeInfo 2 101 4)) []
            _ two_sided_book_reachable _).
  vm_compute. reflexivity.
Defined.

(** * The quantity an added order moves *)

Lemma sum_remaining_app q1 q2 : sum_remaining (q1 ++ q2) = sum_remaining q1 + sum_remaining q2.
Proof. unfold sum_remaining. induction q1 as [|o q1 IH]; simpl; [done | rewrite IH; lia]. Qed.

Lemma sum_remaining_perm q1 q2 : q1 ≡ₚ q2 -> sum_remaining q1 = sum_remaining q2.
Proof.
  unfold sum_remaining. induction 1 as [|o q1 q2 _ IH|o1 o2 q|q1 q2 q3 _ IH1 _ IH2]; simpl; lia.
Qed.

Lemma levels_total_insert_fresh p q (levels : gmap Z (list Order)) :
  levels !! p = None ->
  levels_total (<[p := q]> levels) = sum_remaining q + levels_total levels.
Proof.
  intros Hp. unfold levels_total.
  rewrite (sum_remaining_perm _ (((p, q) :: map_to_list levels) ≫= snd)).
  - by rewrite bind_cons, sum_remaining_app.
  - by rewrite map_to_list_insert.
Qed.

Lemma levels_total_delete p q (levels : gmap Z (list Order)) :
  levels !! p = Some q ->
  levels_total (delete p levels) = levels_total levels - sum_remaining q.
Proof.
  intros Hp. unfold levels_total.
  rewrite (sum_remaining_perm (map_to_list levels ≫= snd)
             (((p, q) :: map_to_list (delete p levels)) ≫= snd)).
  - rewrite bind_cons, sum_remaining_app. simpl. lia.
  - by rewrite map_to_list_delete.
Qed.

Lemma levels_total_insert p q q0 (levels : gmap Z (list Order)) :
  levels !! p = Some q0 ->
  levels_total (<[p := q]> levels) = levels_total levels - sum_remaining q0 + sum_remaining q.
Proof.
  intros Hp. rewrite <- insert_delete_eq.
  rewrite levels_total_insert_fresh by apply lookup_delete_eq.
  rewrite (levels_total_delete p q0) by done. lia.
Qed.

Lemma levels_total_put p q q0 (levels : gmap Z (list Order)) :
  levels !! p = Some q0 ->
  levels_total (put_level p q levels) = levels_total levels - sum_remaining q0 + sum_remaining q.
Proof.
  intros Hp. unfold put_level. destruct q as [|o q]; simpl.
  - rewrite (levels_total_delete p q0) by done. unfold sum_remaining. simpl. lia.
  - by apply levels_total_insert.
Qed.

Lemma sum_remaining_singleton o : sum_remaining [o] = GetRemainingQuantity o.
Proof. unfold sum_remaining. simpl. lia. Qed.

Lemma levels_total_push o (levels : gmap Z (list Order)) :
  levels_total (push_back_level o levels) = levels_total levels + GetRemainingQuantity o.
Proof.
  unfold push_back_level. destruct (levels !! GetPrice o) as [q0|] eqn:E; simpl.
  - rewrite (levels_total_insert _ _ q0) by done.
    rewrite sum_remaining_app, sum_remaining_singleton. lia.
  - rewrite levels_total_insert_fresh by done. rewrite sum_remaining_singleton. lia.
Qed.

Lemma book_valid_round bp ap s st :
  book_valid st -> remaining_valid (ls_bids s) -> remaining_valid (ls_asks s) ->
  book_valid (EraseEmptyLevels bp ap s st).
Proof.
  intros Hv Hb Ha side p q. destruct side; simpl.
  - rewrite EraseEmptyLevels_bids, put_level_lookup.
    destruct (decide (bp = p)); [destruct (is_nil (ls_bids s)); [done | by intros [= <-]]|].
    apply (Hv Buy).
  - rewrite EraseEmptyLevels_asks, put_level_lookup.
    destruct (decide (ap = p)); [destruct (is_nil (ls_asks s)); [done | by intros [= <-]]|].
    apply (Hv Sell).
Qed.

Lemma MatchLoop_conserves fuel st trades trades' st' :
  book_valid st ->
  MatchLoop fuel st trades = ret (trades', st') ->
  exists new,
    trades' = trades ++ new
    /\ book_valid st'
    /\ levels_total (bids_ st') = levels_total (bids_ st) - traded new
    /\ levels_total (asks_ st') = levels_total (asks_ st) - traded new.
Proof.
  revert st trades. induction fuel as [|fuel IH]; intros st trades Hv Hrun.
  all: simpl in Hrun.
  all: destruct (bids_begin st) as [[bp bq]|] eqn:Eb;
    [|injection Hrun as <- <-; exists []; rewrite app_nil_r; simpl;
      repeat split; try done; lia].
  all: destruct (asks_begin st) as [[ap aq]|] eqn:Ea;
    [|injection Hrun as <- <-; exists []; rewrite app_nil_r; simpl;
      repeat split; try done; lia].
  all: destruct (bp <? ap);
    [injection Hrun as <- <-; exists []; rewrite app_nil_r; simpl;
     repeat split; try done; lia|].
  - discriminate Hrun.
  - pose proof (begin_lookup_max _ _ _ Eb) as Hbq.
    pose proof (begin_lookup_min _ _ _ Ea) as Haq.
    destruct (MatchLevel_conserves (length bq + length aq)
                (mkLevelState bq aq (orders_ st) (data_ st) trades)
                (Hv Buy bp bq Hbq) (Hv Sell ap aq Haq) (le_n _))
      as (s' & new1 & Hlevel & Htr & Hvb & Hva & Hsb & Hsa & _).
    cbn [ls_bids ls_asks ls_trades] in *.
    rewrite Hlevel in Hrun. unfold ret in Hrun. cbn [mbind M_bind] in Hrun.
    destruct (IH _ _ (book_valid_round bp ap s' st Hv Hvb Hva) Hrun)
      as (new & -> & Hv' & Hb' & Ha').
    exists (new1 ++ new). split; [by rewrite Htr, app_assoc|]. split; [done|].
    rewrite Hb', Ha', EraseEmptyLevels_bids, EraseEmptyLevels_asks.
    rewrite (levels_total_put bp _ bq) by done. rewrite (levels_total_put ap _ aq) by done.
    rewrite traded_app. lia.
Qed.

Lemma CancelFillAndKillHead_none s st :
  book_wf st -> no_FillAndKill st -> CancelFillAndKillHead (top s st) st = ret st.
Proof.
  intros Hwf Hno. destruct (top s st) as [[p q]|] eqn:Et; [|reflexivity].
  apply top_lookup in Et. pose proof Hwf as [Hl _].
  destruct (Hl s p q Et) as (Hnil & _ & _). destruct q as [|o q]; [done|]. simpl.
  rewrite decide_False; [reflexivity|]. eapply Hno; [exact Et | by left].
Qed.

(** X25.  No quantity is made or lost.  On a book reached from the empty
    book whose resting orders have 32-bit remaining quantities, [AddOrder]
    of an order that is not of type [FillAndKill] either leaves the book as
    it is with no trade, or it changes the total remaining quantity of each
    side by exactly what the trades account for: the side of the order
    gains the remaining quantity of the order less the traded quantity, and
    the opposite side loses the traded quantity.  The remaining quantities
    of the book it leaves are again 32-bit values. *)
Theorem AddOrder_conserves_quantity (st : Orderbook) (o : Order) :
  reachable st ->
  book_valid st ->
  valid_quantity (GetRemainingQuantity o) ->
  GetOrderType o <> FillAndKill ->
  exists trades st',
    AddOrder o st = ret (trades, st')
    /\ book_valid st'
    /\ ((trades = [] /\ st' = st)
        \/ (levels_total (side_map (GetSide o) st')
            = levels_total (side_map (GetSide o) st) + GetRemainingQuantity o - traded trades
            /\ levels_total (side_map (opposite (GetSide o)) st')
               = levels_total (side_map (opposite (GetSide o)) st) - traded trades)).
Proof.
  intros Hreach Hv Ho Htype. apply reachable_inv in Hreach.
  destruct (AddOrder_total o st Hreach Htype) as (trades & st' & Hadd & _).
  exists trades, st'. split; [exact Hadd|].
  destruct (AddOrder_cases o st trades st' Hreach Hadd)
    as [[-> ->]|(o' & Hfresh & Hconv & Hm & Hwf1 & _ & _)]; [split; [done | by left]|].
  destruct (ConvertMarket_cases o st) as (r & Hconv' & Hr).
  rewrite Hconv in Hconv'. injection Hconv' as <-.
  assert (side_ o' = side_ o /\ remainingQuantity_ o' = remainingQuantity_ o
          /\ orderType_ o' <> FillAndKill) as (Hside & Hrem & Htype').
  { destruct (Hr o' eq_refl) as [[_ ->]|(_ & w & -> & _)]; done. }
  destruct Hreach as (Hwf & _ & Hno).
  assert (no_FillAndKill (PlaceOrder o' st)) as Hno1.
  { intros s p q x Hq Hx.
    destruct (PlaceOrder_elem o' st s p q x Hq Hx) as [->|(q0 & Hq0 & Hx0)];
      [done | by eapply Hno]. }
  assert (book_valid (PlaceOrder o' st)) as Hv1.
  { intros s p q. rewrite lookup_PlaceOrder. destruct (decide _) as [[-> ->]|]; [|apply Hv].
    intros [= <-]. apply Forall_app. split.
    - destruct (side_map (side_ o') st !! price_ o') as [q0|] eqn:E; [by eapply Hv | constructor].
    - constructor; [|constructor]. rewrite Hrem. exact Ho. }
  destruct (MatchLoop_spec (S (size (bids_ (PlaceOrder o' st)) + size (asks_ (PlaceOrder o' st))))
              (PlaceOrder o' st) [] Hwf1) as (tr & st1 & Hloop & Hwfl & Hsl & _); [lia|].
  destruct (MatchLoop_conserves _ _ _ _ _ Hv1 Hloop) as (new & Hnew & Hvl & Hb & Ha).
  simpl in Hnew. subst tr.
  pose proof (shrinks_no_FillAndKill _ _ Hsl Hno1) as Hnol.
  unfold MatchOrders in Hm. rewrite Hloop in Hm. unfold ret in Hm.
  cbn [mbind M_bind] in Hm.
  change (bids_begin st1) with (top Buy st1) in Hm.
  rewrite (CancelFillAndKillHead_none Buy st1 Hwfl Hnol) in Hm.
  unfold ret in Hm. cbn [mbind M_bind] in Hm.
  change (asks_begin st1) with (top Sell st1) in Hm.
  rewrite (CancelFillAndKillHead_none Sell st1 Hwfl Hnol) in Hm.
  unfold ret in Hm. cbn [mbind M_bind] in Hm. injection Hm as <- <-.
  split; [exact Hvl|]. right.
  change (bids_ (PlaceOrder o' st)) with (side_map Buy (PlaceOrder o' st)) in Hb.
  change (asks_ (PlaceOrder o' st)) with (side_map Sell (PlaceOrder o' st)) in Ha.
  rewrite side_map_PlaceOrder in Hb, Ha.
  unfold GetSide, GetRemainingQuantity. rewrite <- Hside, <- Hrem.
  destruct (side_ o'); simpl in *.
  - rewrite levels_total_push in Hb. unfold GetRemainingQuantity in Hb. lia.
  - rewrite levels_total_push in Ha. unfold GetRemainingQuantity in Ha. lia.
Qed.

Lemma two_sided_book_valid : book_valid two_sided_book.
Proof.
  intros s p q Hq. apply elem_of_map_to_list in Hq.
  destruct s; vm_compute in Hq; inversion Hq as [|? ? ? Hq']; subst;
    try (by inversion Hq'); repeat constructor; vm_compute; done.
Defined.

Lemma AddOrder_conserves_quantity_witness :
  exists trades st',
    AddOrder (NewOrder GoodTillCancel 3 Buy 101 4) two_sided_book = ret (trades, st')
    /\ book_valid st'
    /\ ((trades = [] /\ st' = two_sided_book)
        \/ (levels_total (side_map (GetSide (NewOrder GoodTillCancel 3 Buy 101 4)) st')
            = levels_total (side_map (GetSide (NewOrder GoodTillCancel 3 Buy 101 4))
                              two_sided_book)
              + GetRemainingQuantity (NewOrder GoodTillCancel 3 Buy 101 4) - traded trades
            /\ levels_total
                 (side_map (opposite (GetSide (NewOrder GoodTillCancel 3 Buy 101 4))) st')
               = levels_total
                   (side_map (opposite (GetSide (NewOrder GoodTillCancel 3 Buy 101 4)))
                      two_sided_book)
                 - traded trades)).
Proof.
  apply (AddOrder_conserves_quantity two_sided_book (NewOrder GoodTillCancel 3 Buy 101 4)
           two_sided_book_reachable two_sided_book_valid).
  - vm_compute. split; [discriminate | reflexivity].
  - discriminate.
Defined.

(** * Orders of quantity zero *)

(** The inner loop only erases ids from the index. *)
Lemma MatchLevel_index_None fuel s s' id :
  MatchLevel fuel s = ret s' -> ls_orders s !! id = None -> ls_orders s' !! id = None.
Proof.
  revert s. induction fuel as [|fuel IH]; intros [bids asks orders data trades] Hrun Hid.
  all: destruct bids as [|bid bids]; [by injection Hrun as <-|].
  all: destruct asks as [|ask asks]; [by injection Hrun as <-|].
  - discriminate Hrun.
  - rewrite MatchLevel_round in Hrun. eapply IH; [exact Hrun|]. cbn [ls_orders] in *.
    destruct (IsFilled (filled_by _ bid)), (IsFilled (filled_by _ ask));
      rewrite ?lookup_delete_None; tauto.
Qed.

Lemma orders_EraseEmptyLevels bidPrice askPrice s st :
  orders_ (EraseEmptyLevels bidPrice askPrice s st) = ls_orders s.
Proof. unfold EraseEmptyLevels. by destruct (is_nil (ls_bids s)), (is_nil (ls_asks s)). Qed.

Lemma MatchLoop_index_None fuel st trades trades' st' id :
  MatchLoop fuel st trades = ret (trades', st') ->
  orders_ st !! id = None -> orders_ st' !! id = None.
Proof.
  revert st trades. induction fuel as [|fuel IH]; intros st trades Hrun Hid.
  all: simpl in Hrun.
  all: destruct (bids_begin st) as [[bp bq]|]; [|by injection Hrun as <- <-].
  all: destruct (asks_begin st) as [[ap aq]|]; [|by injection Hrun as <- <-].
  all: destruct (bp <? ap); [by injection Hrun as <- <-|].
  - discriminate Hrun.
  - destruct (MatchLevel (length bq + length aq)
                (mkLevelState bq aq (orders_ st) (data_ st) trades)) as [e|s'] eqn:El;
      [discriminate Hrun|].
    cbn [mbind M_bind] in Hrun. eapply IH; [exact Hrun|].
    rewrite orders_EraseEmptyLevels. by eapply MatchLevel_index_None.
Qed.

Lemma IsFilled_zero z : GetRemainingQuantity z = 0 -> IsFilled (filled_by 0 z) = true.
Proof. unfold IsFilled, GetRemainingQuantity. simpl. by intros ->. Qed.

(** An order with nothing left at the head of one of the two best levels
    that cross is out of the index when the loop returns. *)
Lemma MatchLoop_zero_head fuel st bp bid bids ap ask asks z trades st' :
  bids_begin st = Some (bp, bid :: bids) ->
  asks_begin st = Some (ap, ask :: asks) ->
  ap <= bp ->
  z = bid \/ z = ask ->
  GetRemainingQuantity z = 0 ->
  0 <= GetRemainingQuantity bid -> 0 <= GetRemainingQuantity ask ->
  MatchLoop fuel st [] = ret (trades, st') ->
  orders_ st' !! orderId_ z = None.
Proof.
  intros Eb Ea Hle Hz Hzero Hbid Hask Hrun.
  destruct fuel as [|fuel]; simpl in Hrun; rewrite Eb, Ea in Hrun.
  all: destruct (Z.ltb_spec bp ap) as [|_]; [lia|].
  - discriminate Hrun.
  - cbn [length Nat.add] in Hrun. rewrite MatchLevel_round in Hrun.
    match type of Hrun with
    | context [MatchLevel ?f ?s] => destruct (MatchLevel f s) as [e|s'] eqn:El
    end; [discriminate Hrun|].
    cbn [mbind M_bind] in Hrun.
    eapply MatchLoop_index_None; [exact Hrun|]. rewrite orders_EraseEmptyLevels.
    eapply MatchLevel_index_None; [exact El|]. cbn [ls_orders].
    assert (Z.min (GetRemainingQuantity bid) (GetRemainingQuantity ask) = 0) as ->
      by (destruct Hz as [->| ->]; lia).
    destruct Hz as [->| ->]; rewrite (IsFilled_zero _ Hzero).
    + destruct (IsFilled (filled_by 0 ask)); [apply lookup_delete_None; right|];
        apply lookup_delete_eq.
    + apply lookup_delete_eq.
Qed.

Lemma MatchOrders_ret_loop st trades st' :
  book_wf st -> MatchOrders st = ret (trades, st') ->
  MatchLoop (S (size (bids_ st) + size (asks_ st))) st [] = ret (trades, st').
Proof.
  intros Hwf Hrun.
  destruct (MatchOrders_cases st Hwf) as (tr & st1 & Hloop & _ & _ & _ & [[Hm _]|[Hm _]]);
    rewrite Hm in Hrun; [|discriminate Hrun].
  by injection Hrun as <- <-.
Qed.

Lemma zero_quantity_bid_book_reachable : reachable zero_quantity_bid_book.
Proof.
  eapply (reachable_exec (DoAddOrder (NewOrder GoodTillCancel 1 Buy 100 0))).
  - exact reachable_empty.
  - vm_compute. reflexivity.
Defined.

(** C10.  A [GoodTillCancel] order of quantity zero that does not cross is
    not turned away: it is filled from the start, it is placed at the tail
    of its level with no trade, and [Size] counts it.  When such an order is
    the head of its level in a round of the inner loop, whatever the head of
    the other side has left, the round records a trade of quantity zero and
    pops the order of quantity zero from its queue and from the id index;
    the inner loop returns with that trade in its trades, behind the ones it
    began with, with a queue that holds only orders from behind the order of
    quantity zero, and with the id of that order out of the index.  When an
    order with nothing left is the head of the best level of one side of a
    book reached from the empty book, and a [GoodTillCancel] order with a
    fresh id is added that crosses that level, [AddOrder] returns, the first
    of its trades is the trade of quantity zero between the two orders, and
    the order with nothing left rests no longer and is out of the index.
    On the empty book: a bid of quantity zero at 100 rests; the ask for 4 at
    100 that follows trades zero against it, removes it and rests with its
    4 units. *)
Theorem zero_quantity_order_rests_and_trades_zero :
  (forall st id side price,
      reachable st ->
      orders_ st !! id = None ->
      CanMatch st side price = false ->
      let o := NewOrder GoodTillCancel id side price 0 in
      IsFilled o = true
      /\ AddOrder o st = ret ([], PlaceOrder o st)
      /\ (exists q, side_map side (PlaceOrder o st) !! price = Some (q ++ [o]))
      /\ Size (PlaceOrder o st) = S (Size st))
  /\ (forall fuel bid bids ask asks orders data trades,
        GetRemainingQuantity bid = 0 ->
        0 <= GetRemainingQuantity ask ->
        let zero := mkTrade (mkTradeInfo (GetOrderId bid) (GetPrice bid) 0)
                            (mkTradeInfo (GetOrderId ask) (GetPrice ask) 0) in
        (exists s1,
           MatchLevel (S fuel) (mkLevelState (bid :: bids) (ask :: asks) orders data trades)
           = MatchLevel fuel s1
           /\ ls_trades s1 = trades ++ [zero]
           /\ ls_bids s1 = bids
           /\ ls_orders s1 !! GetOrderId bid = None)
        /\ ((length bids + length (ask :: asks) <= fuel)%nat ->
            exists s' rest k,
              MatchLevel (S fuel)
                (mkLevelState (bid :: bids) (ask :: asks) orders data trades) = ret s'
              /\ ls_trades s' = trades ++ zero :: rest
              /\ static <$> ls_bids s' = drop k (static <$> bids)
              /\ ls_orders s' !! GetOrderId bid = None))
  /\ (forall fuel bid bids ask asks orders data trades,
        GetRemainingQuantity ask = 0 ->
        0 <= GetRemainingQuantity bid ->
        let zero := mkTrade (mkTradeInfo (GetOrderId bid) (GetPrice bid) 0)
                            (mkTradeInfo (GetOrderId ask) (GetPrice ask) 0) in
        (exists s1,
           MatchLevel (S fuel) (mkLevelState (bid :: bids) (ask :: asks) orders data trades)
           = MatchLevel fuel s1
           /\ ls_trades s1 = trades ++ [zero]
           /\ ls_asks s1 = asks
           /\ ls_orders s1 !! GetOrderId ask = None)
        /\ ((length (bid :: bids) + length asks <= fuel)%nat ->
            exists s' rest k,
              MatchLevel (S fuel)
                (mkLevelState (bid :: bids) (ask :: asks) orders data trades) = ret s'
              /\ ls_trades s' = trades ++ zero :: rest
              /\ static <$> ls_asks s' = drop k (static <$> asks)
              /\ ls_orders s' !! GetOrderId ask = None))
  /\ (forall st id side price quantity p z q,
        reachable st ->
        orders_ st !! id = None ->
        0 <= quantity ->
        best_opposite side st = Some (p, z :: q) ->
        GetRemainingQuantity z = 0 ->
        CanMatch st side price = true ->
        let o := NewOrder GoodTillCancel id side price quantity in
        exists rest st',
          AddOrder o st = ret (zero_trade o z :: rest, st')
          /\ GetPrice z = p
          /\ orders_ st' !! GetOrderId z = None
          /\ GetOrderId z ∉ orderId_ <$> resting_orders st')
  /\ (exists st2,
        AddOrder (NewOrder GoodTillCancel 1 Buy 100 0) empty_book
        = ret ([], zero_quantity_bid_book)
        /\ Size zero_quantity_bid_book = 1%nat
        /\ AddOrder (NewOrder GoodTillCancel 2 Sell 100 4) zero_quantity_bid_book
           = ret ([mkTrade (mkTradeInfo 1 100 0) (mkTradeInfo 2 100 0)], st2)
        /\ bids_ st2 = ∅
        /\ asks_ st2 !! 100 = Some [NewOrder GoodTillCancel 2 Sell 100 4]
        /\ Size st2 = 1%nat).
Proof.
  split; [|split; [|split; [|split]]].
  - intros st id side price Hreach Hfresh Hcan o.
    apply reachable_inv in Hreach. destruct Hreach as (Hwf & Hun & Hno).
    split; [reflexivity|]. split; [|split].
    + unfold AddOrder. rewrite decide_False by (simpl; rewrite Hfresh; by intros [? ?]).
      simpl. apply MatchOrders_idle.
      * by apply PlaceOrder_wf.
      * apply apart_uncrossed. apply PlaceOrder_apart; [by apply apart_uncrossed | done].
      * intros s p q x Hq Hx.
        destruct (PlaceOrder_elem o st s p q x Hq Hx) as [->|(q0 & Hq0 & Hx0)];
          [discriminate | by eapply Hno].
    + exists (default [] (side_map side st !! price)).
      rewrite lookup_PlaceOrder. by rewrite decide_True.
    + unfold Size. rewrite orders_PlaceOrder. by apply map_size_insert_None.
  - intros fuel bid bids ask asks orders data trades Hb Ha zero.
    pose proof (MatchLevel_round fuel bid bids ask asks orders data trades) as Hround.
    cbv zeta in Hround.
    assert (Z.min (GetRemainingQuantity bid) (GetRemainingQuantity ask) = 0) as Hmin by lia.
    rewrite Hmin, (IsFilled_zero bid Hb) in Hround.
    assert ((if IsFilled (filled_by 0 ask)
             then delete (orderId_ ask) (delete (orderId_ bid) orders)
             else delete (orderId_ bid) orders) !! orderId_ bid = None) as Hgone.
    { destruct (IsFilled (filled_by 0 ask)); [apply lookup_delete_None; right|];
        apply lookup_delete_eq. }
    split.
    + eexists. split; [exact Hround|]. cbn [ls_trades ls_bids ls_orders].
      split; [reflexivity|]. split; [reflexivity|]. exact Hgone.
    + intros Hfuel. rewrite Hround.
      match goal with
      | |- context [MatchLevel fuel ?s] =>
          destruct (MatchLevel_spec fuel s) as (s' & Hrun & _ & kb & ka & Hbids & _ & _)
      end.
      { cbn [ls_bids ls_asks]. destruct (IsFilled (filled_by 0 ask)); simpl in *; lia. }
      destruct (MatchLevel_trades _ _ _ Hrun) as (rest & Htr & _).
      cbn [ls_trades ls_bids] in *.
      exists s', rest, kb. split; [exact Hrun|]. split; [by rewrite Htr, <- app_assoc|].
      split; [exact Hbids|].
      eapply MatchLevel_index_None; [exact Hrun|]. exact Hgone.
  - intros fuel bid bids ask asks orders data trades Ha Hb zero.
    pose proof (MatchLevel_round fuel bid bids ask asks orders data trades) as Hround.
    cbv zeta in Hround.
    assert (Z.min (GetRemainingQuantity bid) (GetRemainingQuantity ask) = 0) as Hmin by lia.
    rewrite Hmin, (IsFilled_zero ask Ha) in Hround.
    split.
    + eexists. split; [exact Hround|]. cbn [ls_trades ls_asks ls_orders].
      split; [reflexivity|]. split; [reflexivity|]. apply lookup_delete_eq.
    + intros Hfuel. rewrite Hround.
      match goal with
      | |- context [MatchLevel fuel ?s] =>
          destruct (MatchLevel_spec fuel s) as (s' & Hrun & _ & kb & ka & _ & Hasks & _)
      end.
      { cbn [ls_bids ls_asks]. destruct (IsFilled (filled_by 0 bid)); simpl in *; lia. }
      destruct (MatchLevel_trades _ _ _ Hrun) as (rest & Htr & _).
      cbn [ls_trades ls_asks] in *.
      exists s', rest, ka. split; [exact Hrun|]. split; [by rewrite Htr, <- app_assoc|].
      split; [exact Hasks|].
      eapply MatchLevel_index_None; [exact Hrun|]. cbn [ls_orders]. apply lookup_delete_eq.
  - intros st id side price quantity p z q Hreach Hfresh Hq Hbest Hzero Hcan o.
    apply reachable_inv in Hreach. destruct Hreach as (Hwf & Hun & Hno).
    assert (AddOrder o st = MatchOrders (PlaceOrder o st)) as ->.
    { unfold AddOrder. rewrite decide_False by (simpl; rewrite Hfresh; by intros [? ?]).
      reflexivity. }
    assert (book_wf (PlaceOrder o st)) as Hwf1 by (by apply PlaceOrder_wf).
    destruct (MatchOrders_total (PlaceOrder o st) Hwf1)
      as (trades & st' & Hm & Hwf' & _).
    { intros s p0 q0 x Hq0 Hx.
      destruct (PlaceOrder_elem o st s p0 q0 x Hq0 Hx) as [->|(q1 & Hq1 & Hx1)];
        [discriminate | by eapply Hno]. }
    pose proof (MatchOrders_ret_loop _ _ _ Hwf1 Hm) as Hloop.
    apply apart_uncrossed in Hun.
    destruct (PlaceOrder_crossing_top o st Hun Hcan) as [_ Htop].
    pose proof Hwf as [Hl _].
    assert (GetOrderId z ∉ orderId_ <$> resting_orders st' <->
            orders_ st' !! GetOrderId z = None) as Hrest.
    { rewrite (resting_ids_indexed st' (GetOrderId z) Hwf'), eq_None_not_Some. tauto. }
    unfold zero_trade. destruct side; simpl in Hbest, Htop |- *.
    + pose proof (begin_lookup_min _ _ _ Hbest) as Hlook.
      destruct (level_entry st Sell p (z :: q) z Hl Hlook ltac:(by left)) as (_ & Hp & _).
      apply CanMatch_Buy in Hcan as (ap & aq & Ha & Hle).
      rewrite Hbest in Ha. injection Ha as <- <-.
      assert (asks_begin (PlaceOrder o st) = Some (p, z :: q)) as Ha1.
      { unfold asks_begin.
        change (asks_ (PlaceOrder o st)) with (side_map Sell (PlaceOrder o st)).
        by rewrite side_map_PlaceOrder, decide_False. }
      destruct (MatchLoop_first_trade _ _ _ _ _ _ _ _ _ _ Htop Ha1 Hle Hloop)
        as (rest & ->).
      assert (orders_ st' !! orderId_ z = None) as Hgone.
      { eapply (MatchLoop_zero_head _ _ _ _ _ _ _ _ z _ _ Htop Ha1 Hle (or_intror eq_refl)
                  Hzero); [|lia|exact Hloop].
        unfold GetRemainingQuantity, o. simpl. lia. }
      exists rest, st'. rewrite Hm. unfold GetRemainingQuantity in *. simpl.
      rewrite Hzero, Z.min_r by lia.
      split; [reflexivity|]. split; [exact Hp|]. split; [exact Hgone | by apply Hrest].
    + pose proof (begin_lookup_max _ _ _ Hbest) as Hlook.
      destruct (level_entry st Buy p (z :: q) z Hl Hlook ltac:(by left)) as (_ & Hp & _).
      apply CanMatch_Sell in Hcan as (bp & bq & Hb & Hle).
      rewrite Hbest in Hb. injection Hb as <- <-.
      assert (bids_begin (PlaceOrder o st) = Some (p, z :: q)) as Hb1.
      { unfold bids_begin.
        change (bids_ (PlaceOrder o st)) with (side_map Buy (PlaceOrder o st)).
        by rewrite side_map_PlaceOrder, decide_False. }
      destruct (MatchLoop_first_trade _ _ _ _ _ _ _ _ _ _ Hb1 Htop Hle Hloop)
        as (rest & ->).
      assert (orders_ st' !! orderId_ z = None) as Hgone.
      { eapply (MatchLoop_zero_head _ _ _ _ _ _ _ _ z _ _ Hb1 Htop Hle (or_introl eq_refl)
                  Hzero); [lia| |exact Hloop].
        unfold GetRemainingQuantity, o. simpl. lia. }
      exists rest, st'. rewrite Hm. unfold GetRemainingQuantity in *. simpl.
      rewrite Hzero, Z.min_l by lia.
      split; [reflexivity|]. split; [exact Hp|]. split; [exact Hgone | by apply Hrest].
  - eexists. split; [vm_compute; reflexivity|]. split; [vm_compute; reflexivity|].
    split; [vm_compute; reflexivity|]. repeat split; vm_compute; reflexivity.
Qed.

Lemma zero_quantity_order_rests_and_trades_zero_witness :
  (IsFilled (NewOrder GoodTillCancel 5 Buy 98 0) = true
   /\ AddOrder (NewOrder GoodTillCancel 5 Buy 98 0) two_sided_book
      = ret ([], PlaceOrder (NewOrder GoodTillCancel 5 Buy 98 0) two_sided_book)
   /\ (exists q, side_map Buy (PlaceOrder (NewOrder GoodTillCancel 5 Buy 98 0) two_sided_book)
                 !! 98 = Some (q ++ [NewOrder GoodTillCancel 5 Buy 98 0]))
   /\ Size (PlaceOrder (NewOrder GoodTillCancel 5 Buy 98 0) two_sided_book)
      = S (Size two_sided_book))
  /\ (exists s' rest k,
        MatchLevel 2 (mkLevelState [NewOrder GoodTillCancel 5 Buy 98 0]
                        [NewOrder GoodTillCancel 6 Sell 98 4] ∅ ∅ []) = ret s'
        /\ ls_trades s' = [] ++ mkTrade (mkTradeInfo 5 98 0) (mkTradeInfo 6 98 0) :: rest
        /\ static <$> ls_bids s' = drop k (static <$> [])
        /\ ls_orders s' !! 5 = None)
  /\ (exists rest st',
        AddOrder (NewOrder GoodTillCancel 2 Sell 100 4) zero_quantity_bid_book
        = ret (zero_trade (NewOrder GoodTillCancel 2 Sell 100 4)
                 (NewOrder GoodTillCancel 1 Buy 100 0) :: rest, st')
        /\ GetPrice (NewOrder GoodTillCancel 1 Buy 100 0) = 100
        /\ orders_ st' !! GetOrderId (NewOrder GoodTillCancel 1 Buy 100 0) = None
        /\ GetOrderId (NewOrder GoodTillCancel 1 Buy 100 0) ∉ orderId_ <$> resting_orders st').
Proof.
  split; [|split].
  - apply (proj1 zero_quantity_order_rests_and_trades_zero two_sided_book 5 Buy 98).
    + exact two_sided_book_reachable.
    + reflexivity.
    + vm_compute. reflexivity.
  - apply (proj2 (proj1 (proj2 zero_quantity_order_rests_and_trades_zero) 1%nat
             (NewOrder GoodTillCancel 5 Buy 98 0) [] (NewOrder GoodTillCancel 6 Sell 98 4) []
             ∅ ∅ [] eq_refl ltac:(simpl; lia))).
    simpl. lia.
  - apply (proj1 (proj2 (proj2 (proj2 zero_quantity_order_rests_and_trades_zero)))
             zero_quantity_bid_book 2 Sell 100 4 100 (NewOrder GoodTillCancel 1 Buy 100 0) []).
    + exact zero_quantity_bid_book_reachable.
    + reflexivity.
    + lia.
    + vm_compute. reflexivity.
    + reflexivity.
    + vm_compute. reflexivity.
Defined.
